(** * code-study-sync: device-flow authentication, submission watcher and
      commit publisher

    A shallow embedding of the browser extension's background script
    (github-auth.ts, github-api.ts, index.ts), of its storage wrappers
    (githubStorage.ts) and of the content script's submission watcher.

    Modelling conventions.
    - JavaScript strings are byte strings ([string]); text is taken to be
      well-formed, so [unescape(encodeURIComponent(s))] is the identity on
      the UTF-8 bytes of [s].
    - Timestamps and durations are integers ([Z]); they stay far inside the
      range where JavaScript numbers are exact.
    - Asynchronous code runs on one event loop; an operation is a function of
      the store and of the answers of its environment (clock, network,
      storage faults), threaded through the monad [M] below.  A rejected
      promise or a thrown [Error] is [Err msg], where [msg] is the error's
      [message]. *)

From Stdlib Require Import String Ascii List ZArith Lia Bool DecimalString.
Import ListNotations.
Open Scope string_scope.
Open Scope Z_scope.

(** ** JavaScript values that the code tests for truthiness *)

Definition truthy_str (s : string) : bool := negb (s =? "")%string.

Definition truthy_num (z : Z) : bool := negb (z =? 0).

(** [a || b] on strings. *)
Definition or_str (a b : string) : string := if truthy_str a then a else b.

(** ** Data model (githubStorage.ts) *)

Record RepoConfig := mkRepoConfig {
  owner : string;
  repo : string;
  branch : string;
  path : string
}.

Record DeviceCodeInfo := mkDeviceCodeInfo {
  device_code : string;
  user_code : string;
  verification_uri : string;
  interval : Z;
  expires_in : Z;
  expires_at : option Z
}.

(** [{...info, expires_at: t}] *)
Definition with_expires_at (info : DeviceCodeInfo) (t : Z) : DeviceCodeInfo :=
  {| device_code := device_code info;
     user_code := user_code info;
     verification_uri := verification_uri info;
     interval := interval info;
     expires_in := expires_in info;
     expires_at := Some t |}.

(** [{...config, path}] *)
Definition with_path (config : RepoConfig) (p : string) : RepoConfig :=
  {| owner := owner config;
     repo := repo config;
     branch := branch config;
     path := p |}.

(** ** Remote payloads *)

Record TokenData := mkTokenData {
  access_token : option string;
  error : option string
}.

Record UserInfo := mkUserInfo {
  login : string;
  name : string;
  avatar_url : string
}.

Record RepoEntry := mkRepoEntry {
  repo_name : string;
  full_name : string
}.

(** The body of the content endpoint's answer: the code reads [message] from
    an error body and hands a success body on as it is. *)
Record CommitPayload := mkCommitPayload {
  message : option string;
  raw : string
}.

(** What [res.json()] gives: a parsed value, or a rejection. *)
Inductive Parsed (A : Type) : Type :=
| Json (a : A)
| NotJson (why : string).
Arguments Json {A} a.
Arguments NotJson {A} why.

(** What [fetch] gives: the call itself throws (transport failure), or a
    response with a status and a body. *)
Inductive Fetch (A : Type) : Type :=
| NetThrow (why : string)
| Resp (status : Z) (body : Parsed A).
Arguments NetThrow {A} why.
Arguments Resp {A} status body.

(** [res.ok] *)
Definition status_ok (status : Z) : bool := (200 <=? status) && (status <=? 299).

(** A network call as issued by the code. *)
Record Request := mkRequest {
  method : string;
  url : string;
  authorization : option string;
  body : list (string * string)
}.

(** Values of response objects sent back to the popup. *)
Inductive JsVal : Type :=
| VBool (b : bool)
| VStr (s : string)
| VUser (u : UserInfo)
| VRepos (l : list RepoEntry)
| VJson (p : CommitPayload).

Definition Response := list (string * JsVal).

(** ** Environment and store *)

Record Env := mkEnv {
  now : Z;
  store_fault : nat -> option string;
  device_code_resp : Fetch DeviceCodeInfo;
  token_resp : nat -> Fetch TokenData;
  validate_resp : Fetch UserInfo;
  user_resp : Fetch UserInfo;
  repos_resp : Fetch (list RepoEntry);
  put_resp : Fetch CommitPayload
}.

Record World := mkWorld {
  authToken : string;
  repoConfig : RepoConfig;
  deviceCode : option DeviceCodeInfo;
  storageOps : nat;
  requests : list Request;
  sleeps : list Z;
  responses : list Response;
  tabs : list string;
  spawned : list (string * Z)
}.

Definition set_authToken (v : string) (w : World) : World :=
  mkWorld v (repoConfig w) (deviceCode w) (storageOps w) (requests w)
          (sleeps w) (responses w) (tabs w) (spawned w).

Definition set_repoConfig (v : RepoConfig) (w : World) : World :=
  mkWorld (authToken w) v (deviceCode w) (storageOps w) (requests w)
          (sleeps w) (responses w) (tabs w) (spawned w).

Definition set_deviceCode (v : option DeviceCodeInfo) (w : World) : World :=
  mkWorld (authToken w) (repoConfig w) v (storageOps w) (requests w)
          (sleeps w) (responses w) (tabs w) (spawned w).

Definition bump_storageOps (w : World) : World :=
  mkWorld (authToken w) (repoConfig w) (deviceCode w) (S (storageOps w))
          (requests w) (sleeps w) (responses w) (tabs w) (spawned w).

Definition add_request (r : Request) (w : World) : World :=
  mkWorld (authToken w) (repoConfig w) (deviceCode w) (storageOps w)
          (requests w ++ [r]) (sleeps w) (responses w) (tabs w) (spawned w).

Definition add_sleep (ms : Z) (w : World) : World :=
  mkWorld (authToken w) (repoConfig w) (deviceCode w) (storageOps w)
          (requests w) (sleeps w ++ [ms]) (responses w) (tabs w) (spawned w).

Definition add_response (r : Response) (w : World) : World :=
  mkWorld (authToken w) (repoConfig w) (deviceCode w) (storageOps w)
          (requests w) (sleeps w) (responses w ++ [r]) (tabs w) (spawned w).

Definition add_tab (u : string) (w : World) : World :=
  mkWorld (authToken w) (repoConfig w) (deviceCode w) (storageOps w)
          (requests w) (sleeps w) (responses w) (tabs w ++ [u]) (spawned w).

Definition add_spawned (t : string * Z) (w : World) : World :=
  mkWorld (authToken w) (repoConfig w) (deviceCode w) (storageOps w)
          (requests w) (sleeps w) (responses w) (tabs w) (spawned w ++ [t]).

(** ** The monad of operations *)

Inductive Res (A : Type) : Type :=
| Ok (a : A)
| Err (msg : string)
| OutOfFuel.
Arguments Ok {A} a.
Arguments Err {A} msg.
Arguments OutOfFuel {A}.

Definition M (A : Type) : Type := Env -> World -> Res A * World.

Definition ret {A} (a : A) : M A := fun _ w => (Ok a, w).

Definition bind {A B} (m : M A) (k : A -> M B) : M B :=
  fun e w =>
    match m e w with
    | (Ok a, w1) => k a e w1
    | (Err msg, w1) => (Err msg, w1)
    | (OutOfFuel, w1) => (OutOfFuel, w1)
    end.

(** [throw new Error(msg)] *)
Definition throw {A} (msg : string) : M A := fun _ w => (Err msg, w).

(** [try { m } catch (error) { h error }], also [promise.catch(h)]. *)
Definition try_catch {A} (m : M A) (h : string -> M A) : M A :=
  fun e w =>
    match m e w with
    | (Err msg, w1) => h msg e w1
    | r => r
    end.

Declare Scope op_scope.
Delimit Scope op_scope with op.
Notation "x <- c ;; k" := (bind c (fun x => k))
  (at level 100, c at next level, right associativity) : op_scope.
Notation "c ;;; k" := (bind c (fun _ => k))
  (at level 100, right associativity) : op_scope.
Open Scope op_scope.

(** [Date.now()] *)
Definition Date_now : M Z := fun e w => (Ok (now e), w).

(** [await new Promise(r => setTimeout(r, ms))] *)
Definition sleep (ms : Z) : M unit := fun _ w => (Ok tt, add_sleep ms w).

(** [sendResponse(r)] *)
Definition sendResponse (r : Response) : M unit :=
  fun _ w => (Ok tt, add_response r w).

(** ** Storage *)

(** Modelled from the spec: [createStorage] of packages/storage/lib/base is
    not among the sources.  Its contract is [get() -> value | default] and
    [set(value | updater-function) -> void]; every call is one storage
    operation, which the platform may reject. *)
Definition storage_op {A} (f : World -> A * World) : M A :=
  fun e w =>
    let w1 := bump_storageOps w in
    match store_fault e (storageOps w) with
    | Some msg => (Err msg, w1)
    | None => let (a, w2) := f w1 in (Ok a, w2)
    end.

Definition authTokenStorage_get : M string :=
  storage_op (fun w => (authToken w, w)).

Definition authTokenStorage_set (v : string) : M unit :=
  storage_op (fun w => (tt, set_authToken v w)).

Definition repoConfigStorage_get : M RepoConfig :=
  storage_op (fun w => (repoConfig w, w)).

Definition repoConfigStorage_set (v : RepoConfig) : M unit :=
  storage_op (fun w => (tt, set_repoConfig v w)).

Definition repoConfigStorage_update (f : RepoConfig -> RepoConfig) : M unit :=
  storage_op (fun w => (tt, set_repoConfig (f (repoConfig w)) w)).

Definition deviceCodeStorage_get : M (option DeviceCodeInfo) :=
  storage_op (fun w => (deviceCode w, w)).

Definition deviceCodeStorage_set (v : option DeviceCodeInfo) : M unit :=
  storage_op (fun w => (tt, set_deviceCode v w)).

(** The storage never rejects. *)
Definition reliable (e : Env) : Prop := forall n, store_fault e n = None.

Module githubAuthStorage.

Definition get : M string := authTokenStorage_get.

Definition set (v : string) : M unit := authTokenStorage_set v.

Definition clear : M unit := authTokenStorage_set "".

End githubAuthStorage.

Module githubRepoStorage.

Definition get : M RepoConfig := repoConfigStorage_get.

Definition set (v : RepoConfig) : M unit := repoConfigStorage_set v.

Definition isConfigured : M bool :=
  config <- repoConfigStorage_get ;;
  ret (truthy_str (owner config) && truthy_str (repo config)).

Definition updatePath (p : string) : M unit :=
  repoConfigStorage_update (fun config => with_path config p).

End githubRepoStorage.

Module githubDeviceCodeStorage.

Definition get : M (option DeviceCodeInfo) := deviceCodeStorage_get.

Definition set (v : option DeviceCodeInfo) : M unit := deviceCodeStorage_set v.

Definition clear : M unit := deviceCodeStorage_set None.

(** [info.expires_at && info.expires_at > t] *)
Definition expires_after (info : DeviceCodeInfo) (t : Z) : bool :=
  match expires_at info with
  | Some x => truthy_num x && (x >? t)
  | None => false
  end.

Definition isActive : M bool :=
  info <- deviceCodeStorage_get ;;
  match info with
  | None => ret false
  | Some info =>
    t1 <- Date_now ;;
    if expires_after info t1 then ret true
    else
      let expired := (deviceCodeStorage_set None ;;; ret false) in
      if truthy_num (expires_in info) then
        t2 <- Date_now ;;
        let expiresAt := t2 + expires_in info * 1000 in
        t3 <- Date_now ;;
        if expiresAt >? t3 then
          deviceCodeStorage_set (Some (with_expires_at info expiresAt)) ;;;
          ret true
        else expired
      else expired
  end.

Definition setWithExpiration (info : DeviceCodeInfo) : M unit :=
  t <- Date_now ;;
  let expiresAt := t + expires_in info * 1000 in
  deviceCodeStorage_set (Some (with_expires_at info expiresAt)).

End githubDeviceCodeStorage.

(** ** github-auth.ts *)

Definition CLIENT_ID : string := "Ov23liGv4JgHmvPmvmgW".
Definition DEVICE_CODE_URL : string := "https://github.com/login/device/code".
Definition TOKEN_URL : string := "https://github.com/login/oauth/access_token".
Definition SCOPE : string := "read:user user:email repo".

(** [await fetch(...)]: the request is issued, then the environment answers. *)
Definition fetch {A} (r : Request) (answer : Env -> Fetch A) : M (Z * Parsed A) :=
  fun e w =>
    let w1 := add_request r w in
    match answer e with
    | NetThrow why => (Err why, w1)
    | Resp status b => (Ok (status, b), w1)
    end.

(** [await res.json()] *)
Definition json {A} (b : Parsed A) : M A :=
  match b with
  | Json a => ret a
  | NotJson why => throw why
  end.

Definition device_code_request : Request :=
  {| method := "POST";
     url := DEVICE_CODE_URL;
     authorization := None;
     body := [("client_id", CLIENT_ID); ("scope", SCOPE)] |}.

Definition startDeviceFlow : M DeviceCodeInfo :=
  res <- fetch device_code_request device_code_resp ;;
  let (status, b) := res in
  if negb (status_ok status) then throw "Failed to initiate GitHub device flow"
  else
    data <- json b ;;
    t <- Date_now ;;
    let expiresAt := t + expires_in data * 1000 in
    let deviceInfo := with_expires_at data expiresAt in
    githubDeviceCodeStorage.set (Some deviceInfo) ;;;
    ret data.

Definition token_request (deviceCode : string) : Request :=
  {| method := "POST";
     url := TOKEN_URL;
     authorization := None;
     body := [("client_id", CLIENT_ID);
              ("device_code", deviceCode);
              ("grant_type", "urn:ietf:params:oauth:grant-type:device_code")] |}.

Definition maxAttempts : nat := 60.

(** How one turn of the polling loop ends: [return token] or the next turn. *)
Inductive LoopCtl : Type :=
| Return (token : string)
| Continue.

(** [`${v}`] of an optional string. *)
Definition show_opt (v : option string) : string :=
  match v with
  | Some s => s
  | None => "undefined"
  end.

(** [v === s] on an optional string. *)
Definition opt_is (v : option string) (s : string) : bool :=
  match v with
  | Some s' => (s' =? s)%string
  | None => false
  end.

(** The [try { ... } catch (error) { throw error }] block of one iteration;
    [attempts] is the counter after its increment. *)
Definition poll_iteration (attempts : nat) (deviceCode : string) (interval : Z)
  : M LoopCtl :=
  try_catch
    (res <- fetch (token_request deviceCode) (fun e => token_resp e attempts) ;;
     let (status, b) := res in
     if negb (status_ok status) then
       sleep (interval * 1000) ;;; ret Continue
     else
       data <- json b ;;
       match access_token data with
       | Some t =>
         if truthy_str t then ret (Return t)
         else if opt_is (error data) "authorization_pending" then
           sleep (interval * 1000) ;;; ret Continue
         else throw ("GitHub OAuth failed: " ++ show_opt (error data))
       | None =>
         if opt_is (error data) "authorization_pending" then
           sleep (interval * 1000) ;;; ret Continue
         else throw ("GitHub OAuth failed: " ++ show_opt (error data))
       end)
    (fun error => throw error).

Definition AUTH_TIMEOUT : string := "Authentication timed out. Please try again.".

(** [while (attempts < maxAttempts) { attempts++; ... }] *)
Fixpoint poll_loop (fuel attempts : nat) (deviceCode : string) (interval : Z)
  : M string :=
  if (attempts <? maxAttempts)%nat then
    match fuel with
    | O => fun _ w => (OutOfFuel, w)
    | S fuel' =>
      let attempts := S attempts in
      ctl <- poll_iteration attempts deviceCode interval ;;
      match ctl with
      | Return token => ret token
      | Continue => poll_loop fuel' attempts deviceCode interval
      end
    end
  else throw AUTH_TIMEOUT.

Definition pollForAccessToken (deviceCode : string) (interval : Z) : M string :=
  poll_loop maxAttempts 0 deviceCode interval.

Definition user_request (token : string) : Request :=
  {| method := "GET";
     url := "https://api.github.com/user";
     authorization := Some ("token " ++ token);
     body := [] |}.

Definition validateGithubToken (token : string) : M bool :=
  try_catch
    (res <- fetch (user_request token) validate_resp ;;
     let isValid := (fst res =? 200) in
     ret isValid)
    (fun _ => ret false).

Definition getGithubUserInfo (token : string) : M UserInfo :=
  res <- fetch (user_request token) user_resp ;;
  let (status, b) := res in
  if negb (status_ok status) then throw "Failed to fetch user information"
  else json b.

Definition isAuthenticated : M bool :=
  token <- githubAuthStorage.get ;;
  if negb (truthy_str token) then ret false
  else validateGithubToken token.

Definition signOut : M unit := githubAuthStorage.clear.

(** ** Strings as the code builds them *)

(** [`${n}`] of an integer. *)
Definition show_Z (n : Z) : string := NilZero.string_of_int (Z.to_int n).

(** [s.endsWith(suffix)] *)
Definition endsWith (s suffix : string) : bool :=
  let n := String.length s in
  let m := String.length suffix in
  (m <=? n)%nat && (substring (n - m) m s =? suffix)%string.

Definition lower_ascii (c : ascii) : ascii :=
  let n := nat_of_ascii c in
  if ((65 <=? n) && (n <=? 90))%nat then ascii_of_nat (n + 32) else c.

(** [s.toLowerCase()], on ASCII text. *)
Fixpoint toLowerCase (s : string) : string :=
  match s with
  | EmptyString => EmptyString
  | String c s' => String (lower_ascii c) (toLowerCase s')
  end.

Definition b64_alphabet : string :=
  "ABCDEFGHIJKLMNOPQRSTUVWXYZabcdefghijklmnopqrstuvwxyz0123456789+/".

Definition b64_char (n : N) : ascii :=
  match String.get (N.to_nat n) b64_alphabet with
  | Some c => c
  | None => "="%char
  end.

Fixpoint btoa_bytes (l : list N) : string :=
  match l with
  | [] => ""
  | [a] =>
    String (b64_char (a / 4))
      (String (b64_char ((a mod 4) * 16)) "==")
  | [a; b] =>
    String (b64_char (a / 4))
      (String (b64_char ((a mod 4) * 16 + b / 16))
         (String (b64_char ((b mod 16) * 4)) "="))
  | a :: b :: c :: rest =>
    String (b64_char (a / 4))
      (String (b64_char ((a mod 4) * 16 + b / 16))
         (String (b64_char ((b mod 16) * 4 + c / 64))
            (String (b64_char (c mod 64)) (btoa_bytes rest))))
  end%N.

(** [btoa(unescape(encodeURIComponent(s)))]: base64 of the UTF-8 bytes. *)
Definition btoa (s : string) : string :=
  btoa_bytes (map N_of_ascii (list_ascii_of_string s)).

(** ** content script: saveSolutionToGitHub *)

Record SolutionData := mkSolutionData {
  problemId : string;
  problemName : string;
  language : string;
  extension : option string;
  code : string
}.

Definition languageToExtension : list (string * string) :=
  [("c", "c"); ("cpp", "cpp"); ("c++", "cpp"); ("java", "java");
   ("python", "py"); ("python3", "py"); ("csharp", "cs"); ("c#", "cs");
   ("javascript", "js"); ("typescript", "ts"); ("php", "php");
   ("swift", "swift"); ("kotlin", "kt"); ("dart", "dart"); ("go", "go");
   ("ruby", "rb"); ("scala", "scala"); ("rust", "rs"); ("racket", "rkt");
   ("erlang", "erl"); ("elixir", "ex"); ("unknown", "txt")].

(** [table[key]] on the keys the object literal lists. *)
Fixpoint lookup (key : string) (table : list (string * string)) : option string :=
  match table with
  | [] => None
  | (k, v) :: rest => if (k =? key)%string then Some v else lookup key rest
  end.

(** Names that every object inherits and that survive [toLowerCase]: for them
    [languageToExtension[normalizedLang]] is an inherited value, not a table
    entry, and [extensionFor] does not describe the code. *)
Definition inherited_name (key : string) : bool :=
  (key =? "constructor")%string || (key =? "__proto__")%string.

(** The extension [saveSolutionToGitHub] picks. *)
Definition extensionFor (language : string) : string :=
  let normalizedLang := toLowerCase language in
  match lookup normalizedLang languageToExtension with
  | Some ext => if truthy_str ext then ext else "txt"
  | None => "txt"
  end.

(** The [data] of the message [saveSolutionToGitHub] sends to the background
    script. *)
Definition saveSolutionToGitHub (problemId problemName language code : string)
  : SolutionData :=
  {| problemId := problemId;
     problemName := problemName;
     language := language;
     extension := Some (extensionFor language);
     code := code |}.

(** ** github-api.ts *)

Definition MISSING_CONFIG : string := "Missing GitHub configuration".

(** [data.extension || 'txt'] *)
Definition extension_or_txt (ext : option string) : string :=
  match ext with
  | Some x => or_str x "txt"
  | None => "txt"
  end.

Definition fileNameOf (data : SolutionData) (timestamp : Z) : string :=
  problemId data ++ "_" ++ show_Z timestamp ++ "."
    ++ extension_or_txt (extension data).

Definition filePathOf (repoConfig : RepoConfig) (fileName : string) : string :=
  if truthy_str (path repoConfig) then
    let p := if endsWith (path repoConfig) "/" then path repoConfig
             else path repoConfig ++ "/" in
    p ++ fileName
  else fileName.

Definition commit_request (token : string) (repoConfig : RepoConfig)
  (data : SolutionData) (timestamp : Z) : Request :=
  let filePath := filePathOf repoConfig (fileNameOf data timestamp) in
  let commitMessage :=
    "Solution for " ++ problemId data ++ ": " ++ problemName data
      ++ " (" ++ language data ++ ")" in
  let base64Content := btoa (code data) in
  let apiUrl :=
    "https://api.github.com/repos/" ++ owner repoConfig ++ "/"
      ++ repo repoConfig ++ "/contents/" ++ filePath in
  {| method := "PUT";
     url := apiUrl;
     authorization := Some ("Bearer " ++ token);
     body := [("message", commitMessage);
              ("content", base64Content);
              ("branch", or_str (branch repoConfig) "main")] |}.

Definition commitSolutionToGithub (data : SolutionData) : M CommitPayload :=
  try_catch
    (token <- githubAuthStorage.get ;;
     repoConfig <- githubRepoStorage.get ;;
     if negb (truthy_str token) || negb (truthy_str (owner repoConfig))
        || negb (truthy_str (repo repoConfig))
     then throw MISSING_CONFIG
     else
       timestamp <- Date_now ;;
       res <- fetch (commit_request token repoConfig data timestamp) put_resp ;;
       let (status, b) := res in
       if negb (status_ok status) then
         errorData <- json b ;;
         throw ("GitHub API error: " ++ show_opt (message errorData))
       else json b)
    (fun error => throw error).

Definition repos_request (token : string) : Request :=
  {| method := "GET";
     url := "https://api.github.com/user/repos?sort=updated&per_page=100";
     authorization := Some ("Bearer " ++ token);
     body := [] |}.

Definition fetchUserRepositories : M (list RepoEntry) :=
  token <- githubAuthStorage.get ;;
  if negb (truthy_str token) then throw "Not authenticated with GitHub"
  else
    res <- fetch (repos_request token) repos_resp ;;
    let (status, b) := res in
    if negb (status_ok status) then
      throw ("Failed to fetch repositories: " ++ show_Z status)
    else
      repos <- json b ;;
      ret (map (fun r => mkRepoEntry (repo_name r) (full_name r)) repos).

(** ** background script: index.ts *)

Inductive Message : Type :=
| GithubLogin
| CheckDeviceFlow
| CancelDeviceFlow
| CheckAuthStatus
| GithubLogout
| OpenVerificationPage
| FetchGithubRepos
| SaveRepoConfig (config : RepoConfig)
| UpdateRepoPath (path : string)
| SubmitLeetcodeSolution (data : SolutionData)
| OtherAction (action : string).

Definition action (m : Message) : string :=
  match m with
  | GithubLogin => "github-login"
  | CheckDeviceFlow => "check-device-flow"
  | CancelDeviceFlow => "cancel-device-flow"
  | CheckAuthStatus => "check-auth-status"
  | GithubLogout => "github-logout"
  | OpenVerificationPage => "open-verification-page"
  | FetchGithubRepos => "fetch-github-repos"
  | SaveRepoConfig _ => "save-repo-config"
  | UpdateRepoPath _ => "update-repo-path"
  | SubmitLeetcodeSolution _ => "submit-leetcode-solution"
  | OtherAction a => a
  end.

(** A promise that is started and not awaited: the poll of the device flow. *)
Definition spawn (task : string * Z) : M unit :=
  fun _ w => (Ok tt, add_spawned task w).

(** A promise whose result nobody looks at: a rejection is dropped. *)
Definition detached {A} (m : M A) : M unit :=
  fun e w =>
    match m e w with
    | (OutOfFuel, w1) => (OutOfFuel, w1)
    | (_, w1) => (Ok tt, w1)
    end.

(** [chrome.tabs.create({ url })] *)
Definition tabs_create (u : string) : M unit :=
  fun _ w => (Ok tt, add_tab u w).

(** Reading a property of [null]. *)
Definition NULL_USER_CODE : string :=
  "Cannot read properties of null (reading 'user_code')".

Definition failure (msg : string) : Response :=
  [("success", VBool false); ("error", VStr msg)].

Definition handleGithubLogin : M unit :=
  try_catch
    (isActive <- githubDeviceCodeStorage.isActive ;;
     try_catch
       (if isActive : bool then
          deviceInfo <- githubDeviceCodeStorage.get ;;
          match deviceInfo with
          | None => throw NULL_USER_CODE
          | Some deviceInfo =>
            sendResponse [("success", VBool true);
                          ("alreadyInProgress", VBool true);
                          ("deviceCode", VStr (user_code deviceInfo));
                          ("verificationUrl", VStr (verification_uri deviceInfo))]
          end
        else
          deviceInfo <- startDeviceFlow ;;
          sendResponse [("success", VBool true);
                        ("deviceCode", VStr (user_code deviceInfo));
                        ("verificationUrl", VStr (verification_uri deviceInfo))] ;;;
          spawn (device_code deviceInfo, interval deviceInfo))
       (fun error => sendResponse (failure error)))
    (fun _ => sendResponse (failure "Internal error checking auth status")).

(** The poll that [handleGithubLogin] leaves running, and what it does with
    the outcome. *)
Definition loginBackground (task : string * Z) : M unit :=
  try_catch
    (token <- pollForAccessToken (fst task) (snd task) ;;
     githubAuthStorage.set token ;;;
     detached githubDeviceCodeStorage.clear)
    (fun _ => detached githubDeviceCodeStorage.clear).

Definition handleOpenVerificationPage : M unit :=
  try_catch
    (deviceInfo <- githubDeviceCodeStorage.get ;;
     match deviceInfo with
     | Some deviceInfo =>
       if truthy_str (verification_uri deviceInfo) then
         tabs_create (verification_uri deviceInfo) ;;;
         sendResponse [("success", VBool true)]
       else sendResponse (failure "No active device flow found")
     | None => sendResponse (failure "No active device flow found")
     end)
    (fun error => sendResponse (failure error)).

Definition handleCheckDeviceFlow : M unit :=
  try_catch
    (isActive <- githubDeviceCodeStorage.isActive ;;
     if isActive : bool then
       deviceInfo <- githubDeviceCodeStorage.get ;;
       match deviceInfo with
       | None => throw NULL_USER_CODE
       | Some deviceInfo =>
         sendResponse [("inProgress", VBool true);
                       ("deviceCode", VStr (user_code deviceInfo));
                       ("verificationUrl", VStr (verification_uri deviceInfo))]
       end
     else sendResponse [("inProgress", VBool false)])
    (fun error =>
       sendResponse [("inProgress", VBool false); ("error", VStr error)]).

Definition handleCancelDeviceFlow : M unit :=
  try_catch
    (githubDeviceCodeStorage.clear ;;;
     sendResponse [("success", VBool true)])
    (fun error => sendResponse (failure error)).

Definition handleCheckAuthStatus : M unit :=
  try_catch
    (isLoggedIn <- isAuthenticated ;;
     if isLoggedIn : bool then
       token <- githubAuthStorage.get ;;
       userInfo <- getGithubUserInfo token ;;
       sendResponse [("isLoggedIn", VBool isLoggedIn); ("user", VUser userInfo)]
     else sendResponse [("isLoggedIn", VBool isLoggedIn)])
    (fun error =>
       sendResponse [("isLoggedIn", VBool false); ("error", VStr error)]).

Definition handleLogout : M unit :=
  try_catch
    (signOut ;;;
     sendResponse [("success", VBool true)])
    (fun error => sendResponse (failure error)).

Definition handleFetchRepositories : M unit :=
  try_catch
    (token <- githubAuthStorage.get ;;
     repositories <-
       (if negb (truthy_str token) then
          sendResponse (failure "Not authenticated with GitHub") ;;;
          ret None
        else
          l <- fetchUserRepositories ;;
          ret (Some l)) ;;
     match repositories with
     | Some l => sendResponse [("success", VBool true); ("repositories", VRepos l)]
     | None => ret tt
     end)
    (fun error => sendResponse (failure error)).

Definition handleUpdateRepoPath (p : string) : M unit :=
  try_catch
    (githubRepoStorage.updatePath p ;;;
     sendResponse [("success", VBool true)])
    (fun error => sendResponse (failure error)).

Definition handleSaveRepoConfig (config : RepoConfig) : M unit :=
  try_catch
    (githubRepoStorage.set config ;;;
     sendResponse [("success", VBool true)])
    (fun error => sendResponse (failure error)).

Definition handleSubmitLeetCodeSolution (data : SolutionData) : M unit :=
  try_catch
    (result <- commitSolutionToGithub data ;;
     sendResponse [("success", VBool true); ("result", VJson result)])
    (fun error => sendResponse (failure error)).

(** The listener of [chrome.runtime.onMessage]: the handler of the named
    action runs and the listener returns [true]; for any other action it
    returns [false].  ([OtherAction] stands for an action that names no
    property of the handler table, own or inherited.) *)
Definition onMessage (m : Message) : M bool :=
  match m with
  | GithubLogin => handleGithubLogin ;;; ret true
  | CheckDeviceFlow => handleCheckDeviceFlow ;;; ret true
  | CancelDeviceFlow => handleCancelDeviceFlow ;;; ret true
  | CheckAuthStatus => handleCheckAuthStatus ;;; ret true
  | GithubLogout => handleLogout ;;; ret true
  | OpenVerificationPage => handleOpenVerificationPage ;;; ret true
  | FetchGithubRepos => handleFetchRepositories ;;; ret true
  | SaveRepoConfig config => handleSaveRepoConfig config ;;; ret true
  | UpdateRepoPath p => handleUpdateRepoPath p ;;; ret true
  | SubmitLeetcodeSolution data => handleSubmitLeetCodeSolution data ;;; ret true
  | OtherAction _ => ret false
  end.

(** ** content script: the submission watcher *)

Module Watcher.

(** [s.includes(sub)] *)
Fixpoint includes (s sub : string) : bool :=
  String.prefix sub s ||
  match s with
  | EmptyString => false
  | String _ s' => includes s' sub
  end.

Definition is_digit (c : ascii) : bool :=
  let n := nat_of_ascii c in ((48 <=? n) && (n <=? 57))%nat.

(** The longest run of digits at the head of [s]: what [(\d+)] captures. *)
Fixpoint take_digits (s : string) : string :=
  match s with
  | EmptyString => EmptyString
  | String c s' => if is_digit c then String c (take_digits s') else EmptyString
  end.

(** [s.match(/\/submissions\/(\d+)/)]: the capture of the leftmost match. *)
Fixpoint match_submissions (s : string) : option string :=
  match s with
  | EmptyString => None
  | String _ s' =>
    if String.prefix "/submissions/" s then
      let digits := take_digits (substring 13 (String.length s - 13) s) in
      if truthy_str digits then Some digits else match_submissions s'
    else match_submissions s'
  end.

(** What the watcher reads from the page: the path of its URL and the
    attribute of the first element that carries [data-submission-id]. *)
Record Page := mkPage {
  pathname : string;
  data_submission_id : option string
}.

Definition extractSubmissionIdFromPage (page : Page) : option string :=
  match match_submissions (pathname page) with
  | Some id => Some id
  | None => data_submission_id page
  end.

(** An added node: not an element, or an element together with the text of
    the result element it is or contains, if any. *)
Inductive Node : Type :=
| NotElement
| Element (resultText : option string).

Record MutationRecord := mkMutationRecord {
  type : string;
  addedNodes : list Node
}.

Record ClickTarget := mkClickTarget {
  matches_submit_selector : bool;
  closest_button_text : option string
}.

Inductive Event : Type :=
| Click (target : ClickTarget)
| FlagTimeout
| Mutations (page : Page) (mutations : list MutationRecord).

(** The two module variables, and the calls of [processSuccessfulSubmission]
    made so far, each with the identifier derived for it. *)
Record State := mkState {
  lastProcessedSubmissionId : option string;
  isWaitingForSubmissionResult : bool;
  processed : list (option string)
}.

(** [submissionId && submissionId === lastProcessedSubmissionId] *)
Definition already_processed (submissionId last : option string) : bool :=
  match submissionId, last with
  | Some a, Some b => truthy_str a && (a =? b)%string
  | _, _ => false
  end.

(** The body of [addedNodes.forEach]. *)
Definition onAddedNode (page : Page) (st : State) (node : Node) : State :=
  match node with
  | NotElement => st
  | Element None => st
  | Element (Some text) =>
    if includes text "Accepted" then
      let submissionId := extractSubmissionIdFromPage page in
      if already_processed submissionId (lastProcessedSubmissionId st) then st
      else
        {| lastProcessedSubmissionId := submissionId;
           isWaitingForSubmissionResult := false;
           processed := processed st ++ [submissionId] |}
    else st
  end.

Definition onMutation (page : Page) (st : State) (mutation : MutationRecord)
  : State :=
  if negb (type mutation =? "childList")%string then st
  else fold_left (onAddedNode page) (addedNodes mutation) st.

(** The callback of [resultObserver]. *)
Definition resultObserver (page : Page) (mutations : list MutationRecord)
  (st : State) : State :=
  if negb (isWaitingForSubmissionResult st) then st
  else fold_left (onMutation page) mutations st.

Definition is_submit_click (target : ClickTarget) : bool :=
  matches_submit_selector target ||
  match closest_button_text target with
  | Some text => includes (toLowerCase text) "submit"
  | None => false
  end.

Definition set_waiting (b : bool) (st : State) : State :=
  {| lastProcessedSubmissionId := lastProcessedSubmissionId st;
     isWaitingForSubmissionResult := b;
     processed := processed st |}.

Definition step (st : State) (ev : Event) : State :=
  match ev with
  | Click target => if is_submit_click target then set_waiting true st else st
  | FlagTimeout => set_waiting false st
  | Mutations page mutations => resultObserver page mutations st
  end.

Definition run (evs : list Event) (st : State) : State := fold_left step evs st.

(** Every mutation event of the run derives the identifier [id]. *)
Definition derives (id : option string) (ev : Event) : Prop :=
  match ev with
  | Mutations page _ => extractSubmissionIdFromPage page = id
  | _ => True
  end.

End Watcher.

(** ** Concrete environments and stores used in examples *)

(** An environment at time [t] whose storage works and whose network is down. *)
Definition env_at (t : Z) : Env :=
  {| now := t;
     store_fault := fun _ => None;
     device_code_resp := NetThrow "Failed to fetch";
     token_resp := fun _ => NetThrow "Failed to fetch";
     validate_resp := NetThrow "Failed to fetch";
     user_resp := NetThrow "Failed to fetch";
     repos_resp := NetThrow "Failed to fetch";
     put_resp := NetThrow "Failed to fetch" |}.

Definition default_repoConfig : RepoConfig :=
  {| owner := ""; repo := ""; branch := "main"; path := "leetcode-solutions" |}.

(** The store as [createStorage] initialises it. *)
Definition initial_world : World :=
  {| authToken := "";
     repoConfig := default_repoConfig;
     deviceCode := None;
     storageOps := 0;
     requests := [];
     sleeps := [];
     responses := [];
     tabs := [];
     spawned := [] |}.

Definition sample_device_data : DeviceCodeInfo :=
  {| device_code := "D1";
     user_code := "ABCD-1234";
     verification_uri := "https://example/activate";
     interval := 5;
     expires_in := 900;
     expires_at := None |}.

(** A session that was stored at time 100 and expired at time 1000. *)
Definition stale_session : DeviceCodeInfo := with_expires_at sample_device_data 1000.

(** [res.status === 200] for the answer of the identity endpoint. *)
Definition answers_200 {A} (f : Fetch A) : bool :=
  match f with
  | Resp status _ => status =? 200
  | NetThrow _ => false
  end.

(** The repository target and solution of the publish scenario. *)
Definition scenario_target : RepoConfig :=
  {| owner := "u"; repo := "r"; branch := ""; path := "sol" |}.

Definition scenario_world (token : string) : World :=
  set_authToken token (set_repoConfig scenario_target initial_world).

Definition scenario_solution : SolutionData :=
  saveSolutionToGitHub "two-sum" "Two Sum" "python" "x=1".

(** The path prefix, normalized to end with a separator (an empty prefix
    stays empty). *)
Definition normalized_prefix (p : string) : string :=
  if (p =? "")%string then ""
  else if endsWith p "/" then p
  else p ++ "/".

(** The extension the language-to-extension table gives, [txt] by default. *)
Definition table_extension (language : string) : string :=
  match lookup (toLowerCase language) languageToExtension with
  | Some ext => ext
  | None => "txt"
  end.

(** Credential, owner and repo are all present. *)
Definition configured (w : World) : bool :=
  truthy_str (authToken w) && truthy_str (owner (repoConfig w))
  && truthy_str (repo (repoConfig w)).

(** [data.access_token] is present and not empty. *)
Definition has_token (data : TokenData) : bool :=
  match access_token data with
  | Some t => truthy_str t
  | None => false
  end.

(** The answers after which the poll sleeps and asks again: a response with
    a non-success status, and [authorization_pending]. *)
Definition retried (o : Fetch TokenData) : bool :=
  match o with
  | NetThrow _ => false
  | Resp status b =>
    if status_ok status then
      match b with
      | Json data =>
        negb (has_token data) && opt_is (error data) "authorization_pending"
      | NotJson _ => false
      end
    else true
  end.

(** How the poll ends on an answer that is not retried: with the token the
    answer carries, and with an error otherwise. *)
Definition final_answer (o : Fetch TokenData) : Res string :=
  match o with
  | NetThrow why => Err why
  | Resp _ (NotJson why) => Err why
  | Resp _ (Json data) =>
    if has_token data then Ok (match access_token data with
                               | Some t => t
                               | None => ""
                               end)
    else Err ("GitHub OAuth failed: " ++ show_opt (error data))
  end.

(** The network answers every token request with [o]. *)
Definition env_token (o : Fetch TokenData) : Env :=
  {| now := 0;
     store_fault := fun _ => None;
     device_code_resp := NetThrow "Failed to fetch";
     token_resp := fun _ => o;
     validate_resp := NetThrow "Failed to fetch";
     user_resp := NetThrow "Failed to fetch";
     repos_resp := NetThrow "Failed to fetch";
     put_resp := NetThrow "Failed to fetch" |}.

(** The time slept in all, in milliseconds. *)
Definition total_ms (l : list Z) : Z := fold_right Z.add 0 l.

(** The token endpoint answers [authorization_pending] twice, then grants
    the token [tok]. *)
Definition env_pending_twice : Env :=
  {| now := 0;
     store_fault := fun _ => None;
     device_code_resp := Resp 200 (Json sample_device_data);
     token_resp := fun attempt =>
       if (attempt <=? 2)%nat
       then Resp 200 (Json (mkTokenData None (Some "authorization_pending")))
       else Resp 200 (Json (mkTokenData (Some "tok") None));
     validate_resp := NetThrow "Failed to fetch";
     user_resp := NetThrow "Failed to fetch";
     repos_resp := NetThrow "Failed to fetch";
     put_resp := NetThrow "Failed to fetch" |}.

(** What [handleGithubLogin] answers when a flow is already active. *)
Definition existing_session_response (d : DeviceCodeInfo) : Response :=
  [("success", VBool true);
   ("alreadyInProgress", VBool true);
   ("deviceCode", VStr (user_code d));
   ("verificationUrl", VStr (verification_uri d))].

(** What it answers when it has started a flow. *)
Definition new_flow_response (d : DeviceCodeInfo) : Response :=
  [("success", VBool true);
   ("deviceCode", VStr (user_code d));
   ("verificationUrl", VStr (verification_uri d))].

(** What happens to the device flow over time: a login request arrives,
    or the oldest poll still running ends.  A poll touches the store only
    when it ends, so its end is one event. *)
Inductive FlowEvent : Type :=
| LoginRequest (e : Env)
| PollEnds (e : Env).

(** The store, and the number of polls that have ended. *)
Definition FlowState : Type := (World * nat)%type.

Definition flow_step (s : FlowState) (ev : FlowEvent) : FlowState :=
  match ev with
  | LoginRequest e => (snd (handleGithubLogin e (fst s)), snd s)
  | PollEnds e =>
    match nth_error (spawned (fst s)) (snd s) with
    | Some task => (snd (loginBackground task e (fst s)), S (snd s))
    | None => s
    end
  end.

Definition flow_run (evs : list FlowEvent) (s : FlowState) : FlowState :=
  fold_left flow_step evs s.

(** The login request finds in the store a session that has not expired. *)
Definition finds_session (e : Env) (w : World) : Prop :=
  exists d x, deviceCode w = Some d /\ expires_at d = Some x /\ 0 <= now e < x.

(** The storage works throughout, and every login request of the run is
    issued while a session that has not expired is in the store. *)
Fixpoint logins_find_session (evs : list FlowEvent) (s : FlowState) : Prop :=
  match evs with
  | [] => True
  | ev :: rest =>
    match ev with
    | LoginRequest e => reliable e /\ finds_session e (fst s)
    | PollEnds e => reliable e
    end /\ logins_find_session rest (flow_step s ev)
  end.

(** The number of login requests in a run. *)
Definition login_count (evs : list FlowEvent) : nat :=
  length (filter (fun ev => match ev with
                            | LoginRequest _ => true
                            | PollEnds _ => false
                            end) evs).

(** The number of flows started so far: the requests to the device-code
    endpoint. *)
Definition flows_started (w : World) : nat :=
  length (filter (fun q => (url q =? DEVICE_CODE_URL)%string) (requests w)).

(** The device-code endpoint grants [sample_device_data] at time [t]. *)
Definition env_grant (t : Z) : Env :=
  {| now := t;
     store_fault := fun _ => None;
     device_code_resp := Resp 200 (Json sample_device_data);
     token_resp := fun _ => NetThrow "Failed to fetch";
     validate_resp := NetThrow "Failed to fetch";
     user_resp := NetThrow "Failed to fetch";
     repos_resp := NetThrow "Failed to fetch";
     put_resp := NetThrow "Failed to fetch" |}.

(** [r[k]] on a response object. *)
Fixpoint field (k : string) (r : Response) : option JsVal :=
  match r with
  | [] => None
  | (k', v) :: rest => if (k' =? k)%string then Some v else field k rest
  end.




(** An operation that sends no response and ends. *)
Definition quiet {A} (m : M A) : Prop :=
  forall e w,
    fst (m e w) <> OutOfFuel /\ responses (snd (m e w)) = responses w.



(** The watcher armed by a submit click, nothing processed yet. *)
Definition armed_watcher : Watcher.State :=
  {| Watcher.lastProcessedSubmissionId := None;
     Watcher.isWaitingForSubmissionResult := true;
     Watcher.processed := [] |}.

(** A mutation record that adds an accepted result element. *)
Definition accepted_record : Watcher.MutationRecord :=
  {| Watcher.type := "childList";
     Watcher.addedNodes := [Watcher.Element (Some "Accepted")] |}.

(** A click on the submit button. *)
Definition submit_click : Watcher.Event :=
  Watcher.Click {| Watcher.matches_submit_selector := true;
                   Watcher.closest_button_text := None |}.

(** A problem page from which no submission identifier can be derived, one
    whose [data-submission-id] attribute is empty, and the page of
    submission 555. *)
Definition page_without_id : Watcher.Page :=
  {| Watcher.pathname := "/problems/two-sum/";
     Watcher.data_submission_id := None |}.

Definition page_with_empty_id : Watcher.Page :=
  {| Watcher.pathname := "/problems/two-sum/";
     Watcher.data_submission_id := Some "" |}.

Definition page_555 : Watcher.Page :=
  {| Watcher.pathname := "/problems/two-sum/submissions/555/";
     Watcher.data_submission_id := None |}.

(** The page of another submission, 556. *)
Definition page_556 : Watcher.Page :=
  {| Watcher.pathname := "/problems/two-sum/submissions/556/";
     Watcher.data_submission_id := None |}.

(** From [st] to [st'] at most one submission was processed, and it was
    submission [s]. *)
Definition at_most_one (s : string) (st st' : Watcher.State) : Prop :=
  (Watcher.lastProcessedSubmissionId st' = Watcher.lastProcessedSubmissionId st /\
   Watcher.processed st' = Watcher.processed st) \/
  (Watcher.lastProcessedSubmissionId st' = Some s /\
   Watcher.processed st' = (Watcher.processed st ++ [Some s])%list).

(** Nothing was processed from [st] to [st'], and [s] stays the last
    processed submission. *)
Definition suppressed (s : string) (st st' : Watcher.State) : Prop :=
  Watcher.lastProcessedSubmissionId st = Some s ->
  Watcher.lastProcessedSubmissionId st' = Some s /\
  Watcher.processed st' = Watcher.processed st.

(** The identity endpoint answers with [status] at time [t]. *)
Definition env_identity (t status : Z) : Env :=
  {| now := t;
     store_fault := fun _ => None;
     device_code_resp := NetThrow "Failed to fetch";
     token_resp := fun _ => NetThrow "Failed to fetch";
     validate_resp := Resp status (NotJson "Unexpected end of JSON input");
     user_resp := NetThrow "Failed to fetch";
     repos_resp := NetThrow "Failed to fetch";
     put_resp := NetThrow "Failed to fetch" |}.

(** A store that holds the session granted at time 1000. *)
Definition world_in_flow : World :=
  set_deviceCode (Some (with_expires_at sample_device_data 901000)) initial_world.

From Stdlib Require Import NArith.

(** ** Further code of the storage wrappers *)

(** [githubAuthStorage.isAuthenticated]: a credential is stored. *)
Definition githubAuthStorage_isAuthenticated : M bool :=
  token <- authTokenStorage_get ;;
  ret (truthy_str token).

(** The store proper and what was sent to the popup are the same in [w] and
    [w']; requests and sleeps may differ. *)
Definition same_store (w w' : World) : Prop :=
  authToken w' = authToken w /\
  repoConfig w' = repoConfig w /\
  deviceCode w' = deviceCode w /\
  storageOps w' = storageOps w /\
  responses w' = responses w /\
  tabs w' = tabs w /\
  spawned w' = spawned w.

(** The message of the error with which [startDeviceFlow] fails on an
    answer of the device-code endpoint that grants nothing. *)
Definition device_flow_error (o : Fetch DeviceCodeInfo) : option string :=
  match o with
  | NetThrow why => Some why
  | Resp status b =>
    if status_ok status then
      match b with
      | Json _ => None
      | NotJson why => Some why
      end
    else Some "Failed to initiate GitHub device flow"
  end.

(** What [commitSolutionToGithub] returns on an answer of the content
    endpoint. *)
Definition commit_outcome (o : Fetch CommitPayload) : Res CommitPayload :=
  match o with
  | NetThrow why => Err why
  | Resp _ (NotJson why) => Err why
  | Resp status (Json p) =>
    if status_ok status then Ok p
    else Err ("GitHub API error: " ++ show_opt (message p))
  end.

(** The identity endpoint answers the second request of [check-auth-status]
    with a user. *)
Definition user_of (o : Fetch UserInfo) : option UserInfo :=
  match o with
  | Resp status (Json u) => if status_ok status then Some u else None
  | _ => None
  end.

Definition sample_user : UserInfo :=
  {| login := "octocat"; name := "The Octocat";
     avatar_url := "https://example/avatar.png" |}.

(** Both requests to the identity endpoint succeed. *)
Definition env_logged_in : Env :=
  {| now := 0;
     store_fault := fun _ => None;
     device_code_resp := NetThrow "Failed to fetch";
     token_resp := fun _ => NetThrow "Failed to fetch";
     validate_resp := Resp 200 (Json sample_user);
     user_resp := Resp 200 (Json sample_user);
     repos_resp := NetThrow "Failed to fetch";
     put_resp := Resp 201 (Json (mkCommitPayload None "{}")) |}.

(** [v !== undefined] for an optional value. *)
Definition is_some {A} (v : option A) : bool :=
  match v with
  | Some _ => true
  | None => false
  end.

(** ** Further code of the content script: extraction of the solution *)

Module Content.

(** Character classes of the regular expressions, on ASCII text: [\s] (also
    what [trim] removes), [\d], [\w], the line terminators that [.] does not
    match, and [[\d#+-]]. *)
Definition is_space (c : ascii) : bool :=
  let n := nat_of_ascii c in
  ((n =? 32) || ((9 <=? n) && (n <=? 13)))%nat.

Definition is_word (c : ascii) : bool :=
  let n := nat_of_ascii c in
  (((48 <=? n) && (n <=? 57)) || ((65 <=? n) && (n <=? 90))
   || ((97 <=? n) && (n <=? 122)) || (n =? 95))%nat.

Definition is_line_end (c : ascii) : bool :=
  let n := nat_of_ascii c in ((n =? 10) || (n =? 13))%nat.

Definition is_label_symbol (c : ascii) : bool :=
  let n := nat_of_ascii c in
  (((48 <=? n) && (n <=? 57)) || (n =? 35) || (n =? 43) || (n =? 45))%nat.

(** The longest prefix of [s] whose characters satisfy [p], and what
    follows it. *)
Fixpoint take_while (p : ascii -> bool) (s : string) : string :=
  match s with
  | EmptyString => EmptyString
  | String c s' => if p c then String c (take_while p s') else EmptyString
  end.

Fixpoint drop_while (p : ascii -> bool) (s : string) : string :=
  match s with
  | EmptyString => EmptyString
  | String c s' => if p c then drop_while p s' else s
  end.

Fixpoint all_chars (p : ascii -> bool) (s : string) : bool :=
  match s with
  | EmptyString => true
  | String c s' => p c && all_chars p s'
  end.

(** [s.trim()] *)
Fixpoint trimEnd (s : string) : string :=
  match s with
  | EmptyString => EmptyString
  | String c s' =>
    let t := trimEnd s' in
    if is_space c && (t =? "")%string then EmptyString else String c t
  end.

Definition trim (s : string) : string := trimEnd (drop_while is_space s).

(** [s.replace(pat, '')] for a literal [pat]: the first occurrence goes. *)
Fixpoint remove_first (pat s : string) : string :=
  if String.prefix pat s then
    substring (String.length pat) (String.length s - String.length pat) s
  else
    match s with
    | EmptyString => EmptyString
    | String c s' => String c (remove_first pat s')
    end.

(** [s.match(/\/problems\/([^/]+)/)]: the capture of the leftmost match. *)
Fixpoint match_problems (s : string) : option string :=
  match s with
  | EmptyString => None
  | String _ s' =>
    if String.prefix "/problems/" s then
      let slug :=
        take_while (fun c => negb (Ascii.eqb c "/"))
          (substring 10 (String.length s - 10) s) in
      if truthy_str slug then Some slug else match_problems s'
    else match_problems s'
  end.

(** The last character of a string, as a string. *)
Fixpoint last_char (s : string) : string :=
  match s with
  | EmptyString => EmptyString
  | String c EmptyString => String c EmptyString
  | String _ s' => last_char s'
  end.

(** [s.match(/^\d+\.\s+(.+)$/)]: the capture.  After the digits and the dot,
    [\s+] takes the whole run of white space when something follows it; when
    nothing follows, it gives its last character back to [(.+)]. *)
Definition match_numbered_title (s : string) : option string :=
  let digits := take_while Watcher.is_digit s in
  if truthy_str digits then
    match drop_while Watcher.is_digit s with
    | String "."%char rest =>
      let spaces := take_while is_space rest in
      let tail := drop_while is_space rest in
      if truthy_str spaces then
        if truthy_str tail then
          if all_chars (fun c => negb (is_line_end c)) tail then Some tail
          else None
        else
          if (2 <=? String.length spaces)%nat
             && all_chars (fun c => negb (is_line_end c)) (last_char spaces)
          then Some (last_char spaces)
          else None
      else None
    | _ => None
    end
  else None.

(** What the extraction reads from the document, and when: the path of the
    URL, the title, the text of the header element, the text of the
    language button, whether the editor container is there at the [i]-th
    look, what the editor runtime exposes at the [i]-th look, and whether
    the extension runtime is available. *)
Record Model := mkModel {
  getValue : option string
}.

Record Editor := mkEditor {
  getModel : option (option Model)
}.

Record MonacoEditor := mkMonacoEditor {
  getModels : option (list Model);
  getEditors : option (list Editor)
}.

Record Document := mkDocument {
  pathname : string;
  title : string;
  header_text : option string;
  language_button_text : option string;
  container_at : nat -> bool;
  monaco_at : nat -> option (option MonacoEditor);
  chrome_runtime : bool
}.

Record ProblemDetails := mkProblemDetails {
  problemId : string;
  problemName : string;
  submissionId : option string
}.

Definition extractProblemDetails (doc : Document) : ProblemDetails :=
  let problemId :=
    match match_problems (pathname doc) with
    | Some slug => slug
    | None => ""
    end in
  let submissionId := Watcher.match_submissions (pathname doc) in
  let title := trim (remove_first " - LeetCode" (title doc)) in
  let problemName :=
    if truthy_str title then
      match match_numbered_title title with
      | Some rest => rest
      | None => title
      end
    else "" in
  let problemName :=
    if truthy_str problemName then problemName
    else
      match header_text doc with
      | Some text => if truthy_str text then trim text else problemName
      | None => problemName
      end in
  {| problemId := problemId;
     problemName := problemName;
     submissionId := submissionId |}.

(** How a timed wait ends: with a value after some looks, or timed out; the
    count is the number of looks made. *)
Inductive Wait (A : Type) : Type :=
| Resolved (a : A) (looks : nat)
| TimedOut (looks : nat)
| NoFuel.
Arguments Resolved {A} a looks.
Arguments TimedOut {A} looks.
Arguments NoFuel {A}.

(** The [check] closure of both waits: look; when the thing is not there,
    add the interval of 100 ms to [elapsed] and either give up or look again
    after the interval.  [i] counts the looks made before this one. *)
Fixpoint check {A} (fuel : nat) (look : nat -> option A) (timeout elapsed : Z)
  (i : nat) : Wait A :=
  match fuel with
  | O => NoFuel
  | S fuel' =>
    match look i with
    | Some a => Resolved a (S i)
    | None =>
      let elapsed := elapsed + 100 in
      if elapsed >=? timeout then TimedOut (S i)
      else check fuel' look timeout elapsed (S i)
    end
  end.

(** Looks enough for any wait with this timeout. *)
Definition enough_fuel (timeout : Z) : nat := S (Z.to_nat (timeout / 100)).

Definition container_look (doc : Document) (i : nat) : option unit :=
  if container_at doc i then Some tt else None.

Definition waitForEditorContainer (doc : Document) (timeout : Z) : Wait unit :=
  check (enough_fuel timeout) (container_look doc) timeout 0 0.

(** One look at [window.monaco]. *)
Definition monaco_look (doc : Document) (i : nat) : option Model :=
  match monaco_at doc i with
  | Some (Some editor) =>
    let models := match getModels editor with Some l => l | None => [] end in
    let editors := match getEditors editor with Some l => l | None => [] end in
    let from_editors :=
      match editors with
      | ed :: _ =>
        match getModel ed with
        | Some (Some model) =>
          match getValue model with
          | Some _ => Some model
          | None => None
          end
        | _ => None
        end
      | [] => None
      end in
    match models with
    | model :: _ =>
      match getValue model with
      | Some _ => Some model
      | None => from_editors
      end
    | [] => from_editors
    end
  | _ => None
  end.

Definition waitForMonacoEditor (doc : Document) (timeout : Z) : Wait Model :=
  check (enough_fuel timeout) (monaco_look doc) timeout 0 0.

Definition determineLanguage (doc : Document) : string :=
  match language_button_text doc with
  | Some text =>
    let buttonText := trim text in
    if truthy_str buttonText then
      let word := take_while is_word buttonText in
      if truthy_str word then
        let symbols := take_while is_label_symbol (drop_while is_word buttonText) in
        let language := toLowerCase (word ++ symbols) in
        if (language =? "c#")%string then "csharp"
        else if (language =? "c++")%string then "cpp"
        else language
      else toLowerCase buttonText
    else "unknown"
  | None => "unknown"
  end.

Definition CONTAINER_TIMEOUT : string :=
  "Timed out waiting for editor container to appear.".

Definition MONACO_TIMEOUT : string := "Timed out waiting for Monaco editor.".

Definition EXTRACT_FAILED : string := "Failed to extract code from editor: ".

(** [getSolutionCode], with the default timeouts of 10000 ms. *)
Definition getSolutionCode (doc : Document) : Res (string * string) :=
  match waitForEditorContainer doc 10000 with
  | Resolved _ _ =>
    match waitForMonacoEditor doc 10000 with
    | Resolved model _ =>
      match getValue model with
      | Some code => Ok (code, determineLanguage doc)
      | None => Err (EXTRACT_FAILED ++ "model.getValue is not a function")
      end
    | TimedOut _ => Err (EXTRACT_FAILED ++ MONACO_TIMEOUT)
    | NoFuel => OutOfFuel
    end
  | TimedOut _ => Err (EXTRACT_FAILED ++ CONTAINER_TIMEOUT)
  | NoFuel => OutOfFuel
  end.

(** [processSuccessfulSubmission]: the [data] of the message it sends to the
    background script, if it sends one. *)
Definition processSuccessfulSubmission (doc : Document) : option SolutionData :=
  let details := extractProblemDetails doc in
  if negb (truthy_str (problemId details)) then None
  else
    match getSolutionCode doc with
    | Ok (code, language) =>
      if chrome_runtime doc then
        Some (saveSolutionToGitHub (problemId details) (problemName details)
                language code)
      else None
    | _ => None
    end.

End Content.

(** The number of looks a wait makes before it times out: one, and then one
    per started interval of 100 ms. *)
Definition looks_before (timeout : Z) : nat :=
  Z.to_nat (Z.max 1 ((timeout + 99) / 100)).

(** A document in which the editor container never appears. *)
Definition doc_without_editor : Content.Document :=
  {| Content.pathname := "/problems/two-sum/";
     Content.title := "1. Two Sum - LeetCode";
     Content.header_text := None;
     Content.language_button_text := Some "Python3";
     Content.container_at := fun _ => false;
     Content.monaco_at := fun _ =>
       Some (Some (Content.mkMonacoEditor
                     (Some [Content.mkModel (Some "x=1")]) None));
     Content.chrome_runtime := true |}.

(** A document whose editor container is there at the fourth look and whose
    editor runtime exposes a model at the third. *)
Definition doc_with_editor : Content.Document :=
  {| Content.pathname := "/problems/two-sum/";
     Content.title := "1. Two Sum - LeetCode";
     Content.header_text := None;
     Content.language_button_text := Some "Python3";
     Content.container_at := fun i => (3 <=? i)%nat;
     Content.monaco_at := fun i =>
       if (2 <=? i)%nat
       then Some (Some (Content.mkMonacoEditor
                          (Some [Content.mkModel (Some "x=1")]) None))
       else None;
     Content.chrome_runtime := true |}.

(** No character of [s] is a slash. *)
Definition no_slash (s : string) : bool :=
  Content.all_chars (fun c => negb (Ascii.eqb c "/")) s.

(** ** Further notions for the submission watcher *)

(** The node is, or contains, a result element whose text has [Accepted]. *)
Definition accepted_node (node : Watcher.Node) : bool :=
  match node with
  | Watcher.Element (Some text) => Watcher.includes text "Accepted"
  | _ => false
  end.

(** The record is a [childList] record that adds such a node. *)
Definition accepted_mutation (mutation : Watcher.MutationRecord) : bool :=
  (Watcher.type mutation =? "childList")%string
  && existsb accepted_node (Watcher.addedNodes mutation).

(** The watcher after it has processed submission [id] from state [st]. *)
Definition after_processing (id : option string) (st : Watcher.State)
  : Watcher.State :=
  {| Watcher.lastProcessedSubmissionId := id;
     Watcher.isWaitingForSubmissionResult := false;
     Watcher.processed := (Watcher.processed st ++ [id])%list |}.

(** The event is not a click on a submit control. *)
Definition not_submit_click (ev : Watcher.Event) : Prop :=
  match ev with
  | Watcher.Click target => Watcher.is_submit_click target = false
  | _ => True
  end.

(** Every mutation event of the run is on a page whose URL carries the
    submission number [s]. *)
Definition url_derives (s : string) (ev : Watcher.Event) : Prop :=
  match ev with
  | Watcher.Mutations page _ =>
    Watcher.match_submissions (Watcher.pathname page) = Some s
  | _ => True
  end.

(** The page of submission 555 with a stale [data-submission-id]. *)
Definition page_555_stale_attribute : Watcher.Page :=
  {| Watcher.pathname := "/problems/two-sum/submissions/555/";
     Watcher.data_submission_id := Some "554" |}.

(** The number of accepted result elements that the [childList] records of
    a delivery add. *)
Definition count_accepted (mutations : list Watcher.MutationRecord) : nat :=
  list_sum
    (map (fun mutation =>
            if (Watcher.type mutation =? "childList")%string
            then length (filter accepted_node (Watcher.addedNodes mutation))
            else 0%nat)
       mutations).

(** The watcher after it has processed [n] detections with identifier [id]
    from state [st]. *)
Definition after_processing_n (id : option string) (n : nat) (st : Watcher.State)
  : Watcher.State :=
  match n with
  | O => st
  | S _ =>
    {| Watcher.lastProcessedSubmissionId := id;
       Watcher.isWaitingForSubmissionResult := false;
       Watcher.processed := (Watcher.processed st ++ repeat id n)%list |}
  end.

(** No identifier, or an empty one. *)
Definition missing_identifier (id : option string) : bool :=
  match id with
  | Some s => negb (truthy_str s)
  | None => true
  end.

(** ** Further code of github-api.ts *)

Definition extensions : list (string * string) :=
  [("javascript", "js"); ("typescript", "ts"); ("python", "py");
   ("python3", "py"); ("java", "java"); ("c++", "cpp"); ("c", "c");
   ("csharp", "cs"); ("ruby", "rb"); ("swift", "swift"); ("kotlin", "kt");
   ("go", "go"); ("rust", "rs"); ("scala", "scala"); ("php", "php")].

(** [extensions[language.toLowerCase()] || 'txt'], on the keys the object
    literal lists (see [inherited_name]). *)
Definition getFileExtension (language : string) : string :=
  match lookup (toLowerCase language) extensions with
  | Some ext => or_str ext "txt"
  | None => "txt"
  end.

(** [s.replace(/\s+/g, '_')]: every run of white space becomes one
    underscore; [in_run] tells that the previous character was white
    space. *)
Fixpoint replace_spaces (in_run : bool) (s : string) : string :=
  match s with
  | EmptyString => EmptyString
  | String c s' =>
    if Content.is_space c then
      if in_run then replace_spaces true s'
      else String "_" (replace_spaces true s')
    else String c (replace_spaces false s')
  end.

(** [s.replace(/[^\w-]/g, '')] *)
Fixpoint remove_special (s : string) : string :=
  match s with
  | EmptyString => EmptyString
  | String c s' =>
    if Content.is_word c || Ascii.eqb c "-" then String c (remove_special s')
    else remove_special s'
  end.

Definition formatFileName (name : string) : string :=
  remove_special (replace_spaces false (toLowerCase name)).

(** A lower-case letter, a digit, an underscore or a hyphen. *)
Definition is_file_char (c : ascii) : bool :=
  let n := nat_of_ascii c in
  (((48 <=? n) && (n <=? 57)) || ((97 <=? n) && (n <=? 122))
   || (n =? 95) || (n =? 45))%nat.

(** A character of the ASCII range. *)
Definition is_ascii (c : ascii) : bool := (nat_of_ascii c <? 128)%nat.

Definition not_upper (c : ascii) : bool :=
  let n := nat_of_ascii c in negb ((65 <=? n) && (n <=? 90))%nat.

(** ** Popup.tsx: the two handlers that configure the repository target *)

(** [s.split(sep)] for a one-character separator. *)
Fixpoint split_on (sep : ascii) (s : string) : list string :=
  match s with
  | EmptyString => [EmptyString]
  | String c s' =>
    if Ascii.eqb c sep then EmptyString :: split_on sep s'
    else
      match split_on sep s' with
      | part :: parts => String c part :: parts
      | [] => [String c EmptyString]
      end
  end.

(** [handleRepositoryChange]: the message it sends for the selected
    [fullName], if any.  [const [owner, repo] = fullName.split('/')]; a
    missing second part is [undefined], which the empty string stands for
    (both are falsy wherever the target is read). *)
Definition handleRepositoryChange (fullName : string) (repoConfig : RepoConfig)
  : option Message :=
  if negb (truthy_str fullName) then None
  else
    let parts := split_on "/" fullName in
    let owner := nth 0 parts "" in
    let repo := nth 1 parts "" in
    Some (SaveRepoConfig
            {| owner := owner;
               repo := repo;
               branch := or_str (branch repoConfig) "main";
               path := or_str (path repoConfig) "leetcode-solutions" |}).

(** [handlePathChange]: the message it sends when the input loses focus with
    [value] in it, if any. *)
Definition handlePathChange (value : string) (repoConfig : RepoConfig)
  : option Message :=
  let p := Content.trim value in
  if (p =? path repoConfig)%string then None
  else Some (UpdateRepoPath p).

(** The popup's message, if any, handled by the background script. *)
Definition deliver (message : option Message) : M unit :=
  match message with
  | Some m => onMessage m ;;; ret tt
  | None => ret tt
  end.

(** The position of a character in a string, counted from [i]. *)
Fixpoint index_from (i : N) (c : ascii) (s : string) : option N :=
  match s with
  | EmptyString => None
  | String c' s' => if Ascii.eqb c' c then Some i else index_from (i + 1) c s'
  end.

(** The text of the language button is ASCII (or there is no button). *)
Definition ascii_button (doc : Content.Document) : bool :=
  match Content.language_button_text doc with
  | Some text => Content.all_chars is_ascii text
  | None => true
  end.

(** All the text that the content script reads from the page is ASCII: the
    path of the URL, the title, the header (if there is one) and the text of
    the language button (if there is one).  On such text [trim],
    [toLowerCase] and the classes [\s], [\w] and [\d] are what the
    definitions above say. *)
Definition ascii_document (doc : Content.Document) : bool :=
  Content.all_chars is_ascii (Content.pathname doc)
  && Content.all_chars is_ascii (Content.title doc)
  && match Content.header_text doc with
     | Some text => Content.all_chars is_ascii text
     | None => true
     end
  && ascii_button doc.

(** What [handleFetchRepositories] answers on an answer of the repository
    list endpoint. *)
Definition repositories_response (o : Fetch (list RepoEntry)) : Response :=
  match o with
  | NetThrow why => failure why
  | Resp status b =>
    if status_ok status then
      match b with
      | Json l => [("success", VBool true); ("repositories", VRepos l)]
      | NotJson why => failure why
      end
    else failure ("Failed to fetch repositories: " ++ show_Z status)
  end.

(** The repository list endpoint answers with status [status]. *)
Definition env_repos (status : Z) (l : list RepoEntry) : Env :=
  {| now := 0;
     store_fault := fun _ => None;
     device_code_resp := NetThrow "Failed to fetch";
     token_resp := fun _ => NetThrow "Failed to fetch";
     validate_resp := NetThrow "Failed to fetch";
     user_resp := NetThrow "Failed to fetch";
     repos_resp := Resp status (Json l);
     put_resp := NetThrow "Failed to fetch" |}.

(** What [check-device-flow] answers when a flow is active. *)
Definition in_progress_response (d : DeviceCodeInfo) : Response :=
  [("inProgress", VBool true);
   ("deviceCode", VStr (user_code d));
   ("verificationUrl", VStr (verification_uri d))].

(** * Properties *)

Lemma reliable_env_at t : reliable (env_at t).
Proof. intro n. reflexivity. Qed.

Lemma storage_op_reliable {A} (f : World -> A * World) e w :
  reliable e ->
  storage_op f e w = (Ok (fst (f (bump_storageOps w))), snd (f (bump_storageOps w))).
Proof.
  intro R. unfold storage_op. rewrite R.
  destruct (f (bump_storageOps w)); reflexivity.
Qed.

Lemma truthy_str_true s : truthy_str s = true <-> s <> "".
Proof.
  unfold truthy_str. rewrite negb_true_iff.
  split; intro H.
  - intro E. subst s. discriminate.
  - destruct (String.eqb_spec s ""); congruence.
Qed.

(** ** Lazy expiry of the device-flow session *)

(** A session whose [expires_at] has passed but whose [expires_in] is
    positive is not cleared: [isActive] gives it a new [expires_at] and
    answers [true]. *)
Lemma isActive_refreshes_expired e w info :
  reliable e ->
  deviceCode w = Some info ->
  githubDeviceCodeStorage.expires_after info (now e) = false ->
  0 < expires_in info ->
  fst (githubDeviceCodeStorage.isActive e w) = Ok true /\
  deviceCode (snd (githubDeviceCodeStorage.isActive e w))
    = Some (with_expires_at info (now e + expires_in info * 1000)).
Proof.
  intros R D X P.
  unfold githubDeviceCodeStorage.isActive, deviceCodeStorage_get,
    deviceCodeStorage_set, bind, Date_now.
  rewrite storage_op_reliable by assumption. cbn [fst snd].
  cbn [deviceCode bump_storageOps]. rewrite D, X.
  assert (T : truthy_num (expires_in info) = true).
  { unfold truthy_num. apply negb_true_iff. apply Z.eqb_neq. lia. }
  rewrite T.
  assert (G : (now e + expires_in info * 1000 >? now e) = true).
  { apply Z.gtb_lt. lia. }
  rewrite G.
  rewrite storage_op_reliable by assumption. cbn. auto.
Qed.

(** Without a usable [expires_in] the expired session is cleared. *)
Lemma isActive_clears_expired e w info :
  reliable e ->
  deviceCode w = Some info ->
  githubDeviceCodeStorage.expires_after info (now e) = false ->
  expires_in info <= 0 ->
  fst (githubDeviceCodeStorage.isActive e w) = Ok false /\
  deviceCode (snd (githubDeviceCodeStorage.isActive e w)) = None.
Proof.
  intros R D X P.
  unfold githubDeviceCodeStorage.isActive, deviceCodeStorage_get,
    deviceCodeStorage_set, bind, Date_now.
  rewrite storage_op_reliable by assumption. cbn [fst snd].
  cbn [deviceCode bump_storageOps]. rewrite D, X.
  destruct (truthy_num (expires_in info)).
  - assert (G : (now e + expires_in info * 1000 >? now e) = false).
    { rewrite Z.gtb_ltb. apply Z.ltb_ge. lia. }
    rewrite G. rewrite storage_op_reliable by assumption. cbn. auto.
  - rewrite storage_op_reliable by assumption. cbn. auto.
Qed.

(** C1, at the failing input: the session stored with [expires_at = 1000]
    and [expires_in = 900] is expired at time 2000, yet the active-flow check
    answers [true] and leaves the session in the store with a new
    [expires_at] of 902000, where the claim has it answer [false] and clear
    the store. *)
Theorem isActive_stale_session_kept :
  let w := set_deviceCode (Some stale_session) initial_world in
  expires_at stale_session = Some 1000 /\
  1000 <= now (env_at 2000) /\
  fst (githubDeviceCodeStorage.isActive (env_at 2000) w) = Ok true /\
  deviceCode (snd (githubDeviceCodeStorage.isActive (env_at 2000) w))
    = Some (with_expires_at stale_session 902000).
Proof.
  cbv zeta. repeat split.
  - cbn. lia.
Qed.

(** ** The repository target *)

(** C10: [updatePath p] writes [p] to the path field of the stored target
    and leaves its owner, repo and branch as they were (and, should the
    storage reject the write, the whole target); the handler of
    [update-repo-path] does the same. *)
Theorem updatePath_frame (p : string) (e : Env) (w : World) :
  let w1 := snd (githubRepoStorage.updatePath p e w) in
  let w2 := snd (handleUpdateRepoPath p e w) in
  (owner (repoConfig w1) = owner (repoConfig w) /\
   repo (repoConfig w1) = repo (repoConfig w) /\
   branch (repoConfig w1) = branch (repoConfig w) /\
   path (repoConfig w1)
     = match fst (githubRepoStorage.updatePath p e w) with
       | Ok _ => p
       | _ => path (repoConfig w)
       end) /\
  (store_fault e (storageOps w) = None /\ path (repoConfig w1) = p \/
   store_fault e (storageOps w) <> None /\ repoConfig w1 = repoConfig w) /\
  repoConfig w2 = repoConfig w1.
Proof.
  cbv zeta.
  unfold handleUpdateRepoPath, try_catch, bind, sendResponse,
    githubRepoStorage.updatePath, repoConfigStorage_update, storage_op.
  destruct (store_fault e (storageOps w)) as [msg|]; cbn.
  - repeat split; auto. right. split; [discriminate | reflexivity].
  - repeat split; auto.
Qed.

(** ** The session query *)

(** C9: with a working store, [isAuthenticated] answers [false] for an
    absent credential and issues no network call; for a present credential
    it issues the one request to the identity endpoint and answers [true]
    exactly when that endpoint answers with status 200. *)
Theorem isAuthenticated_iff_remote_200 (e : Env) (w : World) :
  reliable e ->
  fst (isAuthenticated e w)
    = Ok (truthy_str (authToken w) && answers_200 (validate_resp e)) /\
  requests (snd (isAuthenticated e w))
    = (requests w ++
       (if truthy_str (authToken w) then [user_request (authToken w)] else []))%list.
Proof.
  intro R.
  unfold isAuthenticated, githubAuthStorage.get, authTokenStorage_get, bind.
  rewrite storage_op_reliable by assumption.
  cbn [fst snd authToken bump_storageOps].
  destruct (truthy_str (authToken w)); cbn [negb andb].
  - unfold validateGithubToken, try_catch, bind, fetch, ret.
    destruct (validate_resp e) as [why | status b]; cbn; auto.
  - cbn. rewrite app_nil_r. auto.
Qed.

Lemma isAuthenticated_iff_remote_200_witness :
  (fst (isAuthenticated (env_identity 0 200) (set_authToken "tok" initial_world))
     = Ok true /\
   requests (snd (isAuthenticated (env_identity 0 200)
                    (set_authToken "tok" initial_world)))
     = [user_request "tok"]) /\
  (fst (isAuthenticated (env_identity 0 401) (set_authToken "tok" initial_world))
     = Ok false /\
   requests (snd (isAuthenticated (env_identity 0 401)
                    (set_authToken "tok" initial_world)))
     = [user_request "tok"]) /\
  (fst (isAuthenticated (env_identity 0 200) initial_world) = Ok false /\
   requests (snd (isAuthenticated (env_identity 0 200) initial_world)) = []).
Proof.
  split; [|split].
  - exact (isAuthenticated_iff_remote_200 (env_identity 0 200)
             (set_authToken "tok" initial_world) (fun _ => eq_refl)).
  - exact (isAuthenticated_iff_remote_200 (env_identity 0 401)
             (set_authToken "tok" initial_world) (fun _ => eq_refl)).
  - exact (isAuthenticated_iff_remote_200 (env_identity 0 200)
             initial_world (fun _ => eq_refl)).
Defined.

(** ** The commit publisher *)

Lemma languageToExtension_truthy key ext :
  lookup key languageToExtension = Some ext -> truthy_str ext = true.
Proof.
  unfold languageToExtension. cbn [lookup].
  repeat match goal with
         | |- (if ?c then _ else _) = _ -> _ =>
           destruct c; [intro H; injection H as <-; reflexivity|]
         end.
  discriminate.
Qed.

Lemma extensionFor_table language :
  extension_or_txt (Some (extensionFor language)) = table_extension language.
Proof.
  unfold extensionFor, table_extension, extension_or_txt, or_str.
  destruct (lookup (toLowerCase language) languageToExtension) as [ext|] eqn:L.
  - rewrite (languageToExtension_truthy _ _ L).
    rewrite (languageToExtension_truthy _ _ L). reflexivity.
  - reflexivity.
Qed.

Lemma filePathOf_prefix repoConfig fileName :
  filePathOf repoConfig fileName
    = normalized_prefix (path repoConfig) ++ fileName.
Proof.
  unfold filePathOf, normalized_prefix, truthy_str.
  destruct (path repoConfig =? "")%string; cbn [negb]; [reflexivity|].
  destruct (endsWith (path repoConfig) "/"); reflexivity.
Qed.

(** What [commitSolutionToGithub] asks of the network, with a working
    store. *)
Lemma commit_requests data e w :
  reliable e ->
  requests (snd (commitSolutionToGithub data e w))
    = (requests w ++
       (if configured w
        then [commit_request (authToken w) (repoConfig w) data (now e)]
        else []))%list /\
  (configured w = false ->
   fst (commitSolutionToGithub data e w) = Err MISSING_CONFIG).
Proof.
  intro R.
  unfold commitSolutionToGithub, try_catch, bind, githubAuthStorage.get,
    githubRepoStorage.get, authTokenStorage_get, repoConfigStorage_get.
  rewrite storage_op_reliable by assumption.
  cbn [fst snd authToken bump_storageOps].
  rewrite storage_op_reliable by assumption.
  cbn [fst snd authToken repoConfig bump_storageOps].
  unfold configured.
  destruct (truthy_str (authToken w)); cbn [negb andb orb];
    [|cbn; rewrite app_nil_r; auto].
  destruct (truthy_str (owner (repoConfig w))); cbn [negb andb orb];
    [|cbn; rewrite app_nil_r; auto].
  destruct (truthy_str (repo (repoConfig w))); cbn [negb andb orb];
    [|cbn; rewrite app_nil_r; auto].
  split; [|discriminate].
  unfold Date_now, fetch.
  destruct (put_resp e) as [why | status [p | why]]; cbn [fst snd];
    try reflexivity;
    destruct (status_ok status); reflexivity.
Qed.

Lemma commit_no_request_unconfigured data e w :
  configured w = false ->
  requests (snd (commitSolutionToGithub data e w)) = requests w.
Proof.
  intro C.
  unfold commitSolutionToGithub, try_catch, bind, githubAuthStorage.get,
    githubRepoStorage.get, authTokenStorage_get, repoConfigStorage_get,
    storage_op.
  destruct (store_fault e (storageOps w)); [reflexivity|].
  cbn [fst snd authToken storageOps bump_storageOps].
  destruct (store_fault e (S (storageOps w))); [reflexivity|].
  cbn [fst snd authToken repoConfig bump_storageOps].
  unfold configured in C.
  destruct (truthy_str (authToken w)); cbn [negb andb orb]; [|reflexivity].
  destruct (truthy_str (owner (repoConfig w))); cbn [negb andb orb];
    [|reflexivity].
  destruct (truthy_str (repo (repoConfig w))); cbn [negb andb orb];
    [discriminate C|reflexivity].
Qed.

(** C5, as the code has it: [commitSolutionToGithub] issues no network call
    when the stored credential, the owner or the repo is empty, and then
    fails with the missing-configuration error; when all three are present
    it issues exactly one request, a PUT. *)
Theorem commit_one_PUT_iff_configured (data : SolutionData) (e : Env) (w : World) :
  (configured w = false ->
   requests (snd (commitSolutionToGithub data e w)) = requests w) /\
  (reliable e ->
   if configured w
   then exists q,
       requests (snd (commitSolutionToGithub data e w)) = (requests w ++ [q])%list
       /\ method q = "PUT"
   else fst (commitSolutionToGithub data e w) = Err MISSING_CONFIG).
Proof.
  split.
  - apply commit_no_request_unconfigured.
  - intro R. destruct (commit_requests data e w R) as [Q F].
    destruct (configured w).
    + eexists. split; [exact Q | reflexivity].
    + apply F. reflexivity.
Qed.

Lemma commit_one_PUT_iff_configured_witness :
  requests (snd (commitSolutionToGithub scenario_solution (env_at 1000)
                   (set_authToken "tok" initial_world))) = [] /\
  exists q,
    requests (snd (commitSolutionToGithub scenario_solution (env_at 1000)
                     (scenario_world "tok"))) = [q]
    /\ method q = "PUT".
Proof.
  split.
  - exact (proj1 (commit_one_PUT_iff_configured scenario_solution (env_at 1000)
                    (set_authToken "tok" initial_world)) eq_refl).
  - exact (proj2 (commit_one_PUT_iff_configured scenario_solution (env_at 1000)
                    (scenario_world "tok")) (reliable_env_at 1000)).
Defined.

(** C5 as stated fails: owner and repo are both present, the stored
    credential is empty, and no PUT is issued. *)
Lemma commit_no_PUT_without_credential :
  owner (repoConfig (scenario_world "")) <> "" /\
  repo (repoConfig (scenario_world "")) <> "" /\
  requests (snd (commitSolutionToGithub scenario_solution (env_at 1000)
                   (scenario_world ""))) = [] /\
  fst (commitSolutionToGithub scenario_solution (env_at 1000) (scenario_world ""))
    = Err MISSING_CONFIG.
Proof.
  repeat split; discriminate.
Qed.

(** C4: the scenario's publish issues one PUT to
    [sol/two-sum_1000.py] with the base64 text of [x=1]; in general the
    destination is the normalized path prefix followed by
    [{problem_id}_{timestamp}.{extension}], the extension being the table's
    entry for the lower-cased language, [txt] when it has none. *)
Theorem publish_destination :
  requests (snd (commitSolutionToGithub scenario_solution (env_at 1000)
                   (scenario_world "tok")))
    = [ {| method := "PUT";
           url := "https://api.github.com/repos/u/r/contents/sol/two-sum_1000.py";
           authorization := Some "Bearer tok";
           body := [("message", "Solution for two-sum: Two Sum (python)");
                    ("content", "eD0x");
                    ("branch", "main")] |} ] /\
  forall (e : Env) (w : World) (pid pname lang src : string),
    reliable e ->
    configured w = true ->
    inherited_name (toLowerCase lang) = false ->
    exists q,
      requests (snd (commitSolutionToGithub
                       (saveSolutionToGitHub pid pname lang src) e w))
        = (requests w ++ [q])%list /\
      method q = "PUT" /\
      url q = "https://api.github.com/repos/" ++ owner (repoConfig w) ++ "/"
                ++ repo (repoConfig w) ++ "/contents/"
                ++ normalized_prefix (path (repoConfig w))
                ++ pid ++ "_" ++ show_Z (now e) ++ "." ++ table_extension lang /\
      lookup "content" (body q) = Some (btoa src).
Proof.
  split; [reflexivity|].
  intros e w pid pname lang src R C _.
  destruct (commit_requests (saveSolutionToGitHub pid pname lang src) e w R)
    as [Q _].
  rewrite C in Q. eexists. split; [exact Q|].
  split; [reflexivity|]. split; [|reflexivity].
  cbn [url commit_request]. rewrite filePathOf_prefix.
  unfold fileNameOf. cbn [problemId extension saveSolutionToGitHub].
  rewrite extensionFor_table. reflexivity.
Qed.

Lemma publish_destination_witness :
  exists q,
    requests (snd (commitSolutionToGithub
                     (saveSolutionToGitHub "lru-cache" "LRU Cache" "C++" "int x;")
                     (env_at 1700000000000) (scenario_world "tok")))
      = (requests (scenario_world "tok") ++ [q])%list /\
    method q = "PUT" /\
    url q = "https://api.github.com/repos/" ++ "u" ++ "/" ++ "r" ++ "/contents/"
              ++ normalized_prefix "sol"
              ++ "lru-cache" ++ "_" ++ show_Z 1700000000000 ++ "."
              ++ table_extension "C++" /\
    lookup "content" (body q) = Some (btoa "int x;").
Proof.
  exact (proj2 publish_destination (env_at 1700000000000) (scenario_world "tok")
           "lru-cache" "LRU Cache" "C++" "int x;"
           (reliable_env_at 1700000000000) eq_refl eq_refl).
Defined.

(** ** The polling loop *)

Lemma poll_iteration_retried a dc iv e w :
  retried (token_resp e a) = true ->
  poll_iteration a dc iv e w
    = (Ok Continue, add_sleep (iv * 1000) (add_request (token_request dc) w)).
Proof.
  unfold retried, poll_iteration, try_catch, bind, fetch, sleep, ret, throw,
    has_token.
  destruct (token_resp e a) as [why | status [data | why]];
    try discriminate; destruct (status_ok status); cbn [negb];
    try discriminate; try reflexivity.
  unfold json, ret, throw.
  destruct (access_token data) as [t|].
  - destruct (truthy_str t); cbn [negb andb]; [discriminate|].
    intros ->. reflexivity.
  - cbn [negb andb]. intros ->. reflexivity.
Qed.

Lemma poll_iteration_final a dc iv e w :
  retried (token_resp e a) = false ->
  poll_iteration a dc iv e w
    = (match final_answer (token_resp e a) with
       | Ok t => Ok (Return t)
       | Err msg => Err msg
       | OutOfFuel => OutOfFuel
       end, add_request (token_request dc) w).
Proof.
  unfold retried, final_answer, poll_iteration, try_catch, bind, fetch, sleep,
    ret, throw, has_token.
  destruct (token_resp e a) as [why | status [data | why]];
    try reflexivity; destruct (status_ok status); cbn [negb];
    try discriminate; try reflexivity.
  unfold json, ret, throw.
  destruct (access_token data) as [t|].
  - destruct (truthy_str t); cbn [negb andb]; [reflexivity|].
    intros ->. reflexivity.
  - cbn [negb andb]. intros ->. reflexivity.
Qed.

Lemma final_answer_in_fuel o : final_answer o <> OutOfFuel.
Proof.
  destruct o as [why | status [data | why]]; cbn; try discriminate.
  destruct (has_token data); discriminate.
Qed.

Lemma poll_loop_step fuel attempts dc iv e w :
  (attempts < maxAttempts)%nat ->
  poll_loop (S fuel) attempts dc iv e w
    = match poll_iteration (S attempts) dc iv e w with
      | (Ok (Return t), w1) => (Ok t, w1)
      | (Ok Continue, w1) => poll_loop fuel (S attempts) dc iv e w1
      | (Err msg, w1) => (Err msg, w1)
      | (OutOfFuel, w1) => (OutOfFuel, w1)
      end.
Proof.
  intro L. apply Nat.ltb_lt in L.
  cbn [poll_loop]. rewrite L. unfold bind.
  destruct (poll_iteration (S attempts) dc iv e w) as [[[t|]|msg|] w1];
    reflexivity.
Qed.

Lemma poll_loop_exhausted fuel dc iv e w :
  poll_loop fuel maxAttempts dc iv e w = (Err AUTH_TIMEOUT, w).
Proof. destruct fuel; reflexivity. Qed.

Lemma repeat_snoc {A} (x : A) (l : list A) n :
  ((l ++ [x]) ++ repeat x n = l ++ repeat x (S n))%list.
Proof. rewrite <- app_assoc. reflexivity. Qed.

Lemma poll_loop_bounded fuel : forall attempts dc iv e w,
  (attempts + fuel = maxAttempts)%nat ->
  fst (poll_loop fuel attempts dc iv e w) <> OutOfFuel /\
  exists n m, (n <= fuel)%nat /\ (m <= n)%nat /\
    requests (snd (poll_loop fuel attempts dc iv e w))
      = (requests w ++ repeat (token_request dc) n)%list /\
    sleeps (snd (poll_loop fuel attempts dc iv e w))
      = (sleeps w ++ repeat (iv * 1000) m)%list.
Proof.
  induction fuel as [|fuel IH]; intros attempts dc iv e w E.
  - rewrite Nat.add_0_r in E. subst attempts. rewrite poll_loop_exhausted.
    split; [discriminate|]. exists 0%nat, 0%nat. cbn.
    rewrite !app_nil_r. auto.
  - assert (L : (attempts < maxAttempts)%nat) by lia.
    rewrite (poll_loop_step _ _ _ _ _ _ L).
    destruct (retried (token_resp e (S attempts))) eqn:Rt.
    + rewrite (poll_iteration_retried _ _ _ _ _ Rt).
      destruct (IH (S attempts) dc iv e
                  (add_sleep (iv * 1000) (add_request (token_request dc) w)))
        as [F [n [m [Hn [Hm [Hr Hs]]]]]]; [lia|].
      split; [exact F|]. exists (S n), (S m).
      rewrite Hr, Hs. cbn [requests sleeps add_sleep add_request].
      rewrite !repeat_snoc. repeat split; lia.
    + rewrite (poll_iteration_final _ _ _ _ _ Rt).
      pose proof (final_answer_in_fuel (token_resp e (S attempts))) as F.
      destruct (final_answer (token_resp e (S attempts))) as [t|msg|];
        [| |congruence];
        (split; [discriminate|]); exists 1%nat, 0%nat; cbn;
        rewrite app_nil_r; repeat split; lia.
Qed.

Lemma poll_loop_all_retried fuel : forall attempts dc iv e w,
  (attempts + fuel = maxAttempts)%nat ->
  (forall j, (attempts < j <= maxAttempts)%nat -> retried (token_resp e j) = true) ->
  fst (poll_loop fuel attempts dc iv e w) = Err AUTH_TIMEOUT /\
  requests (snd (poll_loop fuel attempts dc iv e w))
    = (requests w ++ repeat (token_request dc) fuel)%list /\
  sleeps (snd (poll_loop fuel attempts dc iv e w))
    = (sleeps w ++ repeat (iv * 1000) fuel)%list.
Proof.
  induction fuel as [|fuel IH]; intros attempts dc iv e w E A.
  - rewrite Nat.add_0_r in E. subst attempts. rewrite poll_loop_exhausted.
    cbn. rewrite !app_nil_r. auto.
  - assert (L : (attempts < maxAttempts)%nat) by lia.
    rewrite (poll_loop_step _ _ _ _ _ _ L).
    rewrite poll_iteration_retried by (apply A; lia).
    destruct (IH (S attempts) dc iv e
                (add_sleep (iv * 1000) (add_request (token_request dc) w)))
      as [F [Hr Hs]]; [lia | intros j Hj; apply A; lia |].
    rewrite F, Hr, Hs. cbn [requests sleeps add_sleep add_request].
    rewrite !repeat_snoc. auto.
Qed.

Lemma poll_loop_first_final k : forall fuel attempts dc iv e w,
  (attempts + fuel = maxAttempts)%nat ->
  (k < fuel)%nat ->
  (forall j, (attempts < j <= attempts + k)%nat -> retried (token_resp e j) = true) ->
  retried (token_resp e (S (attempts + k))) = false ->
  fst (poll_loop fuel attempts dc iv e w)
    = final_answer (token_resp e (S (attempts + k))) /\
  requests (snd (poll_loop fuel attempts dc iv e w))
    = (requests w ++ repeat (token_request dc) (S k))%list /\
  sleeps (snd (poll_loop fuel attempts dc iv e w))
    = (sleeps w ++ repeat (iv * 1000) k)%list.
Proof.
  induction k as [|k IH]; intros fuel attempts dc iv e w E K A T;
    (destruct fuel as [|fuel]; [lia|]);
    assert (L : (attempts < maxAttempts)%nat) by lia;
    rewrite (poll_loop_step _ _ _ _ _ _ L).
  - rewrite Nat.add_0_r in *.
    rewrite (poll_iteration_final _ _ _ _ _ T).
    pose proof (final_answer_in_fuel (token_resp e (S attempts))) as F.
    destruct (final_answer (token_resp e (S attempts))) as [t|msg|];
      [| |congruence]; cbn; rewrite app_nil_r; auto.
  - rewrite poll_iteration_retried by (apply A; lia).
    replace (S (attempts + S k)) with (S (S attempts + k)) in * by lia.
    destruct (IH fuel (S attempts) dc iv e
                (add_sleep (iv * 1000) (add_request (token_request dc) w)))
      as [F [Hr Hs]]; [lia | lia | intros j Hj; apply A; lia | exact T |].
    rewrite F, Hr, Hs. cbn [requests sleeps add_sleep add_request].
    rewrite !repeat_snoc. auto.
Qed.

Lemma total_ms_repeat x n : total_ms (repeat x n) = Z.of_nat n * x.
Proof.
  induction n as [|n IH]; [reflexivity|].
  cbn [repeat total_ms fold_right]. fold (total_ms (repeat x n)).
  rewrite IH. lia.
Qed.

(** C6: the poll always ends, after at most 60 requests and at most as many
    sleeps of [interval] seconds each (so it sleeps [m * interval] seconds
    in all, for some [m <= 60]); it ends at the first answer that is
    not retried, with the token if the answer carries one and with an error
    otherwise; when all 60 answers are retried it fails with the
    authentication-timeout error. *)
Theorem poll_terminates_within_cap (dc : string) (iv : Z) (e : Env) (w : World) :
  (fst (pollForAccessToken dc iv e w) <> OutOfFuel /\
   exists n m, (n <= 60)%nat /\ (m <= n)%nat /\
     requests (snd (pollForAccessToken dc iv e w))
       = (requests w ++ repeat (token_request dc) n)%list /\
     sleeps (snd (pollForAccessToken dc iv e w))
       = (sleeps w ++ repeat (iv * 1000) m)%list /\
     total_ms (repeat (iv * 1000) m) = Z.of_nat m * (iv * 1000)) /\
  (forall k,
     (k < 60)%nat ->
     (forall j, (0 < j <= k)%nat -> retried (token_resp e j) = true) ->
     retried (token_resp e (S k)) = false ->
     fst (pollForAccessToken dc iv e w) = final_answer (token_resp e (S k)) /\
     requests (snd (pollForAccessToken dc iv e w))
       = (requests w ++ repeat (token_request dc) (S k))%list /\
     sleeps (snd (pollForAccessToken dc iv e w))
       = (sleeps w ++ repeat (iv * 1000) k)%list) /\
  ((forall j, (0 < j <= 60)%nat -> retried (token_resp e j) = true) ->
   fst (pollForAccessToken dc iv e w) = Err AUTH_TIMEOUT /\
   requests (snd (pollForAccessToken dc iv e w))
     = (requests w ++ repeat (token_request dc) 60)%list /\
   sleeps (snd (pollForAccessToken dc iv e w))
     = (sleeps w ++ repeat (iv * 1000) 60)%list).
Proof.
  unfold pollForAccessToken. repeat split.
  - apply poll_loop_bounded. reflexivity.
  - destruct (poll_loop_bounded maxAttempts 0 dc iv e w eq_refl)
      as [_ [n [m [Hn [Hm [Hr Hs]]]]]].
    exists n, m. repeat split; try assumption.
    apply total_ms_repeat.
  - apply (poll_loop_first_final k maxAttempts 0 dc iv e w); auto.
  - apply (poll_loop_first_final k maxAttempts 0 dc iv e w); auto.
  - apply (poll_loop_first_final k maxAttempts 0 dc iv e w); auto.
  - apply (poll_loop_all_retried maxAttempts 0 dc iv e w); auto.
  - apply (poll_loop_all_retried maxAttempts 0 dc iv e w); auto.
  - apply (poll_loop_all_retried maxAttempts 0 dc iv e w); auto.
Qed.

Lemma poll_terminates_within_cap_witness :
  (fst (pollForAccessToken "D1" 5 env_pending_twice initial_world) = Ok "tok" /\
   requests (snd (pollForAccessToken "D1" 5 env_pending_twice initial_world))
     = [token_request "D1"; token_request "D1"; token_request "D1"] /\
   sleeps (snd (pollForAccessToken "D1" 5 env_pending_twice initial_world))
     = [5000; 5000]) /\
  (fst (pollForAccessToken "D1" 5
          (env_token (Resp 200 (Json (mkTokenData None (Some "authorization_pending")))))
          initial_world) = Err AUTH_TIMEOUT /\
   requests (snd (pollForAccessToken "D1" 5
                    (env_token (Resp 200 (Json (mkTokenData None
                                                  (Some "authorization_pending")))))
                    initial_world)) = repeat (token_request "D1") 60 /\
   sleeps (snd (pollForAccessToken "D1" 5
                  (env_token (Resp 200 (Json (mkTokenData None
                                                (Some "authorization_pending")))))
                  initial_world)) = repeat 5000 60).
Proof.
  split.
  - refine (proj1 (proj2 (poll_terminates_within_cap "D1" 5 env_pending_twice
                            initial_world)) 2%nat _ _ _).
    + lia.
    + intros j Hj.
      destruct j as [|[|[|j]]]; [lia | reflexivity | reflexivity | lia].
    + reflexivity.
  - refine (proj2 (proj2 (poll_terminates_within_cap "D1" 5
                            (env_token (Resp 200 (Json (mkTokenData None
                                         (Some "authorization_pending")))))
                            initial_world)) _).
    intros j Hj. reflexivity.
Defined.

(** C2, as the code has it: a transport failure ends the poll at once, with
    that failure, after no further sleep and no further request (the [catch]
    block rethrows); what is retried after a sleep, up to the cap of 60
    iterations, is a response with a non-success status. *)
Theorem poll_transport_failure_terminal (dc : string) (iv : Z) (e : Env) (w : World) :
  (forall k why,
     (k < 60)%nat ->
     (forall j, (0 < j <= k)%nat -> retried (token_resp e j) = true) ->
     token_resp e (S k) = NetThrow why ->
     fst (pollForAccessToken dc iv e w) = Err why /\
     requests (snd (pollForAccessToken dc iv e w))
       = (requests w ++ repeat (token_request dc) (S k))%list /\
     sleeps (snd (pollForAccessToken dc iv e w))
       = (sleeps w ++ repeat (iv * 1000) k)%list) /\
  ((forall j, (0 < j <= 60)%nat ->
      exists status b,
        token_resp e j = Resp status b /\ status_ok status = false) ->
   fst (pollForAccessToken dc iv e w) = Err AUTH_TIMEOUT /\
   requests (snd (pollForAccessToken dc iv e w))
     = (requests w ++ repeat (token_request dc) 60)%list /\
   sleeps (snd (pollForAccessToken dc iv e w))
     = (sleeps w ++ repeat (iv * 1000) 60)%list).
Proof.
  split.
  - intros k why K A T.
    assert (Rt : retried (token_resp e (S k)) = false) by (rewrite T; reflexivity).
    destruct (poll_loop_first_final k maxAttempts 0 dc iv e w eq_refl K A Rt)
      as [F [Hr Hs]].
    unfold pollForAccessToken. rewrite F, Hr, Hs.
    cbn [Nat.add]. rewrite T. auto.
  - intro A. unfold pollForAccessToken.
    apply (poll_loop_all_retried maxAttempts 0 dc iv e w eq_refl).
    intros j Hj. destruct (A j Hj) as [status [b [T S]]].
    rewrite T. unfold retried. rewrite S. reflexivity.
Qed.

Lemma poll_transport_failure_terminal_witness :
  (fst (pollForAccessToken "D1" 5 (env_token (NetThrow "Failed to fetch"))
          initial_world) = Err "Failed to fetch" /\
   requests (snd (pollForAccessToken "D1" 5 (env_token (NetThrow "Failed to fetch"))
                    initial_world)) = [token_request "D1"] /\
   sleeps (snd (pollForAccessToken "D1" 5 (env_token (NetThrow "Failed to fetch"))
                  initial_world)) = []) /\
  (fst (pollForAccessToken "D1" 5 (env_token (Resp 503 (NotJson "Unexpected token")))
          initial_world) = Err AUTH_TIMEOUT /\
   requests (snd (pollForAccessToken "D1" 5
                    (env_token (Resp 503 (NotJson "Unexpected token")))
                    initial_world)) = repeat (token_request "D1") 60 /\
   sleeps (snd (pollForAccessToken "D1" 5
                  (env_token (Resp 503 (NotJson "Unexpected token")))
                  initial_world)) = repeat 5000 60).
Proof.
  split.
  - refine (proj1 (poll_transport_failure_terminal "D1" 5
                     (env_token (NetThrow "Failed to fetch")) initial_world)
              0%nat "Failed to fetch" _ _ _).
    + lia.
    + intros j Hj. lia.
    + reflexivity.
  - refine (proj2 (poll_transport_failure_terminal "D1" 5
                     (env_token (Resp 503 (NotJson "Unexpected token")))
                     initial_world) _).
    intros j Hj. exists 503, (NotJson "Unexpected token").
    split; reflexivity.
Defined.

(** C2 as stated fails: the first token request fails in transport, and the
    poll ends there with that failure, having slept and retried nothing. *)
Lemma poll_transport_failure_not_retried :
  fst (pollForAccessToken "D1" 5 (env_token (NetThrow "Failed to fetch"))
         initial_world) = Err "Failed to fetch" /\
  requests (snd (pollForAccessToken "D1" 5 (env_token (NetThrow "Failed to fetch"))
                   initial_world)) = [token_request "D1"] /\
  sleeps (snd (pollForAccessToken "D1" 5 (env_token (NetThrow "Failed to fetch"))
                 initial_world)) = [].
Proof. repeat split. Qed.

(** The spec's scenario: the poll receives [authorization_pending] twice,
    then the token [tok]; the credential becomes [tok] and the session is
    cleared. *)
Example loginBackground_scenario :
  let w := snd (loginBackground ("D1", 5) env_pending_twice world_in_flow) in
  authToken w = "tok" /\ deviceCode w = None /\ sleeps w = [5000; 5000].
Proof. repeat split. Qed.

(** ** Single flight of the device flow *)

Lemma isActive_live e w d x :
  reliable e ->
  deviceCode w = Some d ->
  expires_at d = Some x ->
  0 <= now e < x ->
  githubDeviceCodeStorage.isActive e w = (Ok true, bump_storageOps w).
Proof.
  intros R D X T.
  unfold githubDeviceCodeStorage.isActive, deviceCodeStorage_get, bind, Date_now.
  rewrite storage_op_reliable by assumption.
  cbn [fst snd deviceCode bump_storageOps]. rewrite D.
  unfold githubDeviceCodeStorage.expires_after. rewrite X.
  assert (A : truthy_num x && (x >? now e) = true).
  { apply andb_true_iff. split.
    - unfold truthy_num. apply negb_true_iff. apply Z.eqb_neq. lia.
    - apply Z.gtb_lt. lia. }
  rewrite A. reflexivity.
Qed.

Lemma handleGithubLogin_existing e w d x :
  reliable e ->
  deviceCode w = Some d ->
  expires_at d = Some x ->
  0 <= now e < x ->
  handleGithubLogin e w
    = (Ok tt, add_response (existing_session_response d)
                (bump_storageOps (bump_storageOps w))).
Proof.
  intros R D X T.
  unfold handleGithubLogin, try_catch, bind.
  rewrite (isActive_live e w d x R D X T).
  unfold githubDeviceCodeStorage.get, deviceCodeStorage_get.
  rewrite storage_op_reliable by assumption.
  cbn [fst snd deviceCode bump_storageOps]. rewrite D. reflexivity.
Qed.

Lemma handleGithubLogin_starts e w status data :
  reliable e ->
  deviceCode w = None ->
  device_code_resp e = Resp status (Json data) ->
  status_ok status = true ->
  handleGithubLogin e w
    = (Ok tt,
       add_spawned (device_code data, interval data)
         (add_response (new_flow_response data)
            (set_deviceCode
               (Some (with_expires_at data (now e + expires_in data * 1000)))
               (bump_storageOps
                  (add_request device_code_request (bump_storageOps w)))))).
Proof.
  intros R D A S.
  unfold handleGithubLogin, githubDeviceCodeStorage.isActive, try_catch, bind,
    deviceCodeStorage_get.
  rewrite storage_op_reliable by assumption.
  cbn [fst snd deviceCode bump_storageOps]. rewrite D.
  unfold ret, startDeviceFlow, bind, fetch. rewrite A, S. cbn [negb json].
  unfold ret, Date_now, githubDeviceCodeStorage.set, deviceCodeStorage_set.
  rewrite storage_op_reliable by assumption. reflexivity.
Qed.

(** ** The command surface *)

Lemma quiet_ret {A} (a : A) : quiet (ret a).
Proof. intros e w. split; [discriminate | reflexivity]. Qed.

Lemma quiet_throw {A} msg : quiet (@throw A msg).
Proof. intros e w. split; [discriminate | reflexivity]. Qed.

Lemma quiet_Date_now : quiet Date_now.
Proof. intros e w. split; [discriminate | reflexivity]. Qed.

Lemma quiet_tabs_create u : quiet (tabs_create u).
Proof. intros e w. split; [discriminate | reflexivity]. Qed.

Lemma quiet_json {A} (b : Parsed A) : quiet (json b).
Proof. destruct b; [apply quiet_ret | apply quiet_throw]. Qed.

Lemma quiet_fetch {A} r (answer : Env -> Fetch A) : quiet (fetch r answer).
Proof.
  intros e w. unfold fetch.
  destruct (answer e); split; try discriminate; reflexivity.
Qed.

Lemma quiet_storage_op {A} (f : World -> A * World) :
  (forall w, responses (snd (f w)) = responses w) ->
  quiet (storage_op f).
Proof.
  intros H e w. unfold storage_op.
  destruct (store_fault e (storageOps w)).
  - split; [discriminate | reflexivity].
  - specialize (H (bump_storageOps w)).
    destruct (f (bump_storageOps w)). split; [discriminate | exact H].
Qed.

Lemma quiet_bind {A B} (m : M A) (k : A -> M B) :
  quiet m -> (forall a, quiet (k a)) -> quiet (bind m k).
Proof.
  intros Hm Hk e w. unfold bind.
  destruct (Hm e w) as [F R].
  destruct (m e w) as [[a|msg|] w1]; cbn [fst snd] in *.
  - destruct (Hk a e w1) as [F' R']. rewrite R' , R. auto.
  - split; [discriminate | exact R].
  - congruence.
Qed.

Lemma quiet_try_catch {A} (m : M A) (h : string -> M A) :
  quiet m -> (forall msg, quiet (h msg)) -> quiet (try_catch m h).
Proof.
  intros Hm Hh e w. unfold try_catch.
  destruct (Hm e w) as [F R].
  destruct (m e w) as [[a|msg|] w1]; cbn [fst snd] in *.
  - split; [discriminate | exact R].
  - destruct (Hh msg e w1) as [F' R']. rewrite R', R. auto.
  - congruence.
Qed.

Ltac quiet_step :=
  first
    [ apply quiet_ret | apply quiet_throw | apply quiet_Date_now
    | apply quiet_tabs_create | apply quiet_json | apply quiet_fetch
    | apply quiet_storage_op; intro; reflexivity
    | apply quiet_bind; [|intro]
    | apply quiet_try_catch; [|intro]
    | match goal with
      | |- quiet (if ?c then _ else _) => destruct c
      | |- quiet (match ?x with _ => _ end) => destruct x
      end ].

Ltac quiet_auto := repeat quiet_step.





Lemma quiet_commitSolutionToGithub data : quiet (commitSolutionToGithub data).
Proof.
  unfold commitSolutionToGithub, githubAuthStorage.get, githubRepoStorage.get,
    authTokenStorage_get, repoConfigStorage_get. quiet_auto.
Qed.

























(** ** The submission watcher *)

Section SameIdentifier.

Variable s : string.
Hypothesis s_not_empty : s <> "".

Lemma fold_left_at_most_one {B} (Q : B -> Prop)
  (f : Watcher.State -> B -> Watcher.State) :
  (forall st b, Q b -> suppressed s st (f st b)) ->
  (forall st b, Q b -> at_most_one s st (f st b)) ->
  forall l st,
    Forall Q l ->
    suppressed s st (fold_left f l st) /\ at_most_one s st (fold_left f l st).
Proof.
  intros Hs Ha. induction l as [|b l IH]; intros st F; cbn [fold_left].
  - split; [intro H; auto | left; auto].
  - inversion F as [|b' l' Qb F']; subst.
    destruct (IH (f st b) F') as [IHs IHa]. split.
    + intro L. destruct (Hs st b Qb L) as [L1 P1].
      destruct (IHs L1) as [L2 P2]. rewrite P2. auto.
    + destruct (Ha st b Qb) as [[L1 P1] | [L1 P1]].
      * destruct IHa as [[L2 P2] | [L2 P2]].
        -- left. rewrite L2, P2. auto.
        -- right. rewrite L2, P2, P1. auto.
      * destruct (IHs L1) as [L2 P2]. right. rewrite L2, P2. auto.
Qed.

Lemma Forall_True {B} (l : list B) : Forall (fun _ => True) l.
Proof. induction l; constructor; auto. Qed.

Lemma onAddedNode_suppressed page st node :
  Watcher.extractSubmissionIdFromPage page = Some s ->
  suppressed s st (Watcher.onAddedNode page st node).
Proof.
  intros X L. unfold Watcher.onAddedNode.
  destruct node as [|[text|]]; auto.
  destruct (Watcher.includes text "Accepted"); auto.
  rewrite X, L. unfold Watcher.already_processed.
  rewrite String.eqb_refl.
  apply truthy_str_true in s_not_empty. rewrite s_not_empty. auto.
Qed.

Lemma onAddedNode_at_most_one page st node :
  Watcher.extractSubmissionIdFromPage page = Some s ->
  at_most_one s st (Watcher.onAddedNode page st node).
Proof.
  intro X. unfold Watcher.onAddedNode.
  destruct node as [|[text|]]; try (left; auto; fail).
  destruct (Watcher.includes text "Accepted"); [|left; auto].
  rewrite X.
  destruct (Watcher.already_processed (Some s)
              (Watcher.lastProcessedSubmissionId st)); [left; auto|].
  right. auto.
Qed.

Lemma onMutation_once page st mutation :
  Watcher.extractSubmissionIdFromPage page = Some s ->
  suppressed s st (Watcher.onMutation page st mutation) /\
  at_most_one s st (Watcher.onMutation page st mutation).
Proof.
  intro X. unfold Watcher.onMutation.
  destruct (negb (Watcher.type mutation =? "childList")%string).
  - split; [intro; auto | left; auto].
  - apply (fold_left_at_most_one (fun _ => True)); intros.
    + apply onAddedNode_suppressed; assumption.
    + apply onAddedNode_at_most_one; assumption.
    + apply Forall_True.
Qed.

Lemma step_once st ev :
  Watcher.derives (Some s) ev ->
  suppressed s st (Watcher.step st ev) /\ at_most_one s st (Watcher.step st ev).
Proof.
  intro D. destruct ev as [target| |page mutations]; cbn [Watcher.step].
  - destruct (Watcher.is_submit_click target);
      (split; [intro; auto | left; auto]).
  - split; [intro; auto | left; auto].
  - cbn in D. unfold Watcher.resultObserver.
    destruct (negb (Watcher.isWaitingForSubmissionResult st)).
    + split; [intro; auto | left; auto].
    + apply (fold_left_at_most_one (fun _ => True));
        [intros; apply onMutation_once; assumption
        |intros; apply onMutation_once; assumption
        |apply Forall_True].
Qed.

Lemma run_once evs st :
  Forall (Watcher.derives (Some s)) evs ->
  at_most_one s st (Watcher.run evs st).
Proof.
  intro F. unfold Watcher.run.
  apply (fold_left_at_most_one (Watcher.derives (Some s))); try assumption;
    intros; apply step_once; assumption.
Qed.

End SameIdentifier.

(** C7, as the code has it: two mutation events whose result elements
    derive the same submission identifier lead to at most one call of
    [processSuccessfulSubmission], provided that identifier is a non-empty
    string and every mutation event delivered between the two derives that
    same identifier.  The watcher's state before them is arbitrary, and so
    are the clicks and timeouts between them.  The second condition is
    needed because the watcher remembers only the last identifier it
    processed. *)
Theorem same_identifier_processed_once (s : string) (st : Watcher.State)
  (page1 page2 : Watcher.Page) (mutations1 mutations2 : list Watcher.MutationRecord)
  (between : list Watcher.Event) :
  s <> "" ->
  Watcher.extractSubmissionIdFromPage page1 = Some s ->
  Watcher.extractSubmissionIdFromPage page2 = Some s ->
  Forall (Watcher.derives (Some s)) between ->
  let st' :=
    Watcher.run (Watcher.Mutations page1 mutations1
                   :: between ++ [Watcher.Mutations page2 mutations2])%list st in
  (length (Watcher.processed st') <= length (Watcher.processed st) + 1)%nat /\
  (Watcher.processed st' = Watcher.processed st \/
   Watcher.processed st' = (Watcher.processed st ++ [Some s])%list).
Proof.
  intros N X1 X2 F st'.
  assert (A : at_most_one s st st').
  { apply run_once; [exact N|].
    constructor; [exact X1|].
    apply Forall_app. split; [exact F|].
    constructor; [exact X2 | constructor]. }
  destruct A as [[_ P] | [_ P]]; rewrite P.
  - split; [lia | left; reflexivity].
  - split; [rewrite length_app; cbn; lia | right; reflexivity].
Qed.

Lemma same_identifier_processed_once_witness :
  let st' :=
    Watcher.run [Watcher.Mutations page_555 [accepted_record];
                 submit_click;
                 Watcher.Mutations page_555 [accepted_record; accepted_record]]
      armed_watcher in
  (length (Watcher.processed st') <= 0 + 1)%nat /\
  (Watcher.processed st' = [] \/ Watcher.processed st' = [Some "555"]).
Proof.
  refine (same_identifier_processed_once "555" armed_watcher page_555 page_555
            [accepted_record] [accepted_record; accepted_record] [submit_click]
            _ eq_refl eq_refl _).
  - discriminate.
  - repeat constructor.
Defined.

(** C7 as stated fails in two ways.  When the identifier the events derive
    is empty or none, two mutation records that each add an accepted result
    element are both processed, and so are two events with a submit click
    between them.  And when another submission is processed between the two
    events, the remembered identifier is overwritten: submission 555 is
    accepted, then 556 after a submit click, then the page of 555 delivers
    an accepted result again after a submit click, and 555 is processed a
    second time. *)
Lemma same_missing_identifier_processed_twice :
  Watcher.extractSubmissionIdFromPage page_555 = Some "555" /\
  Watcher.extractSubmissionIdFromPage page_556 = Some "556" /\
  Watcher.processed
    (Watcher.run [Watcher.Mutations page_555 [accepted_record];
                  submit_click;
                  Watcher.Mutations page_556 [accepted_record];
                  submit_click;
                  Watcher.Mutations page_555 [accepted_record]]
       armed_watcher)
    = [Some "555"; Some "556"; Some "555"] /\
  Watcher.extractSubmissionIdFromPage page_with_empty_id = Some "" /\
  Watcher.processed
    (Watcher.run [Watcher.Mutations page_with_empty_id
                    [accepted_record; accepted_record]] armed_watcher)
    = [Some ""; Some ""] /\
  Watcher.processed
    (Watcher.run [Watcher.Mutations page_with_empty_id [accepted_record];
                  submit_click;
                  Watcher.Mutations page_with_empty_id [accepted_record]]
       armed_watcher)
    = [Some ""; Some ""] /\
  Watcher.extractSubmissionIdFromPage page_without_id = None /\
  Watcher.processed
    (Watcher.run [Watcher.Mutations page_without_id
                    [accepted_record; accepted_record]] armed_watcher)
    = [None; None].
Proof. repeat split. Qed.

(** * Further properties *)

(** ** The poll and the store *)

Lemma same_store_refl w : same_store w w.
Proof. repeat split. Qed.

Lemma poll_loop_frame fuel : forall attempts dc iv e w,
  (attempts + fuel = maxAttempts)%nat ->
  same_store w (snd (poll_loop fuel attempts dc iv e w)).
Proof.
  induction fuel as [|fuel IH]; intros attempts dc iv e w E.
  - rewrite Nat.add_0_r in E. subst attempts. rewrite poll_loop_exhausted.
    apply same_store_refl.
  - assert (L : (attempts < maxAttempts)%nat) by lia.
    rewrite (poll_loop_step _ _ _ _ _ _ L).
    destruct (retried (token_resp e (S attempts))) eqn:Rt.
    + rewrite (poll_iteration_retried _ _ _ _ _ Rt).
      exact (IH (S attempts) dc iv e
               (add_sleep (iv * 1000) (add_request (token_request dc) w))
               ltac:(lia)).
    + rewrite (poll_iteration_final _ _ _ _ _ Rt).
      destruct (final_answer (token_resp e (S attempts))) as [t|msg|];
        repeat split.
Qed.

Lemma poll_frame (dc : string) (iv : Z) (e : Env) (w : World) :
  same_store w (snd (pollForAccessToken dc iv e w)) /\
  Forall (fun q => q = token_request dc)
    (skipn (length (requests w)) (requests (snd (pollForAccessToken dc iv e w)))) /\
  Forall (fun ms => ms = iv * 1000)
    (skipn (length (sleeps w)) (sleeps (snd (pollForAccessToken dc iv e w)))).
Proof.
  unfold pollForAccessToken. split.
  - apply poll_loop_frame. reflexivity.
  - destruct (poll_loop_bounded maxAttempts 0 dc iv e w eq_refl)
      as [_ [n [m [_ [_ [Hr Hs]]]]]].
    rewrite Hr, Hs.
    rewrite !skipn_app, !skipn_all, !Nat.sub_diag. cbn [skipn app].
    split; apply Forall_forall; intros x Hx; apply repeat_spec in Hx; exact Hx.
Qed.

(** X1: the poll never reads or writes the store, answers no message and
    opens no tab; all it does is send requests for this device code to the
    token endpoint, and sleep for the interval. *)
Theorem pollForAccessToken_frame (dc : string) (iv : Z) (e : Env) (w : World) :
  same_store w (snd (pollForAccessToken dc iv e w)) /\
  Forall (fun q => q = token_request dc)
    (skipn (length (requests w)) (requests (snd (pollForAccessToken dc iv e w)))) /\
  Forall (fun ms => ms = iv * 1000)
    (skipn (length (sleeps w)) (sleeps (snd (pollForAccessToken dc iv e w)))).
Proof. apply poll_frame. Qed.

Lemma loginBackground_spec (dc : string) (iv : Z) (e : Env) (w : World) :
  reliable e ->
  fst (loginBackground (dc, iv) e w) = Ok tt /\
  deviceCode (snd (loginBackground (dc, iv) e w)) = None /\
  authToken (snd (loginBackground (dc, iv) e w))
    = match fst (pollForAccessToken dc iv e w) with
      | Ok token => token
      | _ => authToken w
      end /\
  repoConfig (snd (loginBackground (dc, iv) e w)) = repoConfig w.
Proof.
  intro R.
  destruct (poll_frame dc iv e w) as [[A [C _]] _].
  pose proof (proj1 (poll_loop_bounded maxAttempts 0 dc iv e w eq_refl)) as F.
  fold (pollForAccessToken dc iv) in F.
  unfold loginBackground, try_catch, bind, detached,
    githubAuthStorage.set, githubDeviceCodeStorage.clear,
    authTokenStorage_set, deviceCodeStorage_set.
  cbn [fst snd].
  destruct (pollForAccessToken dc iv e w) as [[token|msg|] w1];
    cbn [fst snd] in *; [| |congruence].
  - rewrite !storage_op_reliable by assumption. cbn. auto.
  - rewrite !storage_op_reliable by assumption. cbn. auto.
Qed.

(** X2: with a working store the background task of a login always ends
    with the session cleared; the credential becomes the token the poll
    obtained, and stays what it was when the poll failed or timed out. *)
Theorem loginBackground_outcome (dc : string) (iv : Z) (e : Env) (w : World) :
  reliable e ->
  fst (loginBackground (dc, iv) e w) = Ok tt /\
  deviceCode (snd (loginBackground (dc, iv) e w)) = None /\
  authToken (snd (loginBackground (dc, iv) e w))
    = match fst (pollForAccessToken dc iv e w) with
      | Ok token => token
      | _ => authToken w
      end /\
  repoConfig (snd (loginBackground (dc, iv) e w)) = repoConfig w.
Proof. apply loginBackground_spec. Qed.

Lemma loginBackground_outcome_witness :
  fst (loginBackground ("D1", 5) env_pending_twice world_in_flow) = Ok tt /\
  deviceCode (snd (loginBackground ("D1", 5) env_pending_twice world_in_flow))
    = None /\
  authToken (snd (loginBackground ("D1", 5) env_pending_twice world_in_flow))
    = "tok" /\
  repoConfig (snd (loginBackground ("D1", 5) env_pending_twice world_in_flow))
    = default_repoConfig.
Proof.
  exact (loginBackground_outcome "D1" 5 env_pending_twice world_in_flow
           (fun _ => eq_refl)).
Defined.

(** ** Cancel, logout and failed logins *)

Lemma handleCancelDeviceFlow_reliable e w :
  reliable e ->
  handleCancelDeviceFlow e w
    = (Ok tt, add_response [("success", VBool true)]
                (set_deviceCode None (bump_storageOps w))).
Proof.
  intro R.
  unfold handleCancelDeviceFlow, try_catch, bind,
    githubDeviceCodeStorage.clear, deviceCodeStorage_set.
  rewrite storage_op_reliable by assumption. reflexivity.
Qed.

(** X3: cancelling clears whatever session is stored, so the next login
    request starts a new flow: it asks the device-code endpoint, stores the
    new session, and leaves a second poll running beside the one of the
    cancelled flow. *)
Theorem cancel_reenables_login (e1 e2 : Env) (w : World) (status : Z)
  (data : DeviceCodeInfo) :
  reliable e1 ->
  reliable e2 ->
  device_code_resp e2 = Resp status (Json data) ->
  status_ok status = true ->
  let w1 := snd (handleCancelDeviceFlow e1 w) in
  let w2 := snd (handleGithubLogin e2 w1) in
  deviceCode w1 = None /\
  requests w2 = (requests w ++ [device_code_request])%list /\
  deviceCode w2 = Some (with_expires_at data (now e2 + expires_in data * 1000)) /\
  spawned w2 = (spawned w ++ [(device_code data, interval data)])%list /\
  responses w2
    = (responses w ++ [[("success", VBool true)]; new_flow_response data])%list.
Proof.
  intros R1 R2 A S w1 w2. subst w2 w1.
  rewrite (handleCancelDeviceFlow_reliable e1 w R1). cbn [snd].
  rewrite (handleGithubLogin_starts e2
             (add_response [("success", VBool true)]
                (set_deviceCode None (bump_storageOps w)))
             status data R2 eq_refl A S).
  cbn. rewrite <- app_assoc. auto.
Qed.

Lemma cancel_reenables_login_witness :
  let w1 := snd (handleCancelDeviceFlow (env_at 2000) world_in_flow) in
  let w2 := snd (handleGithubLogin (env_grant 3000) w1) in
  deviceCode w1 = None /\
  requests w2 = [device_code_request] /\
  deviceCode w2 = Some (with_expires_at sample_device_data 903000) /\
  spawned w2 = [("D1", 5)] /\
  responses w2
    = [[("success", VBool true)]; new_flow_response sample_device_data].
Proof.
  exact (cancel_reenables_login (env_at 2000) (env_grant 3000) world_in_flow 200
           sample_device_data (fun _ => eq_refl) (fun _ => eq_refl)
           eq_refl eq_refl).
Defined.

(** X4: cancelling does not stop the poll: when the poll of a cancelled
    flow later obtains a token, the background task stores it as the
    credential all the same. *)
Theorem cancelled_flow_still_authenticates (e1 e2 : Env) (w : World)
  (dc token : string) (iv : Z) :
  reliable e1 ->
  reliable e2 ->
  fst (pollForAccessToken dc iv e2 (snd (handleCancelDeviceFlow e1 w))) = Ok token ->
  deviceCode (snd (handleCancelDeviceFlow e1 w)) = None /\
  authToken (snd (loginBackground (dc, iv) e2 (snd (handleCancelDeviceFlow e1 w))))
    = token.
Proof.
  intros R1 R2 P.
  destruct (loginBackground_spec dc iv e2 (snd (handleCancelDeviceFlow e1 w)) R2)
    as [_ [_ [A _]]].
  rewrite A, P. split; [|reflexivity].
  rewrite (handleCancelDeviceFlow_reliable e1 w R1). reflexivity.
Qed.

Lemma cancelled_flow_still_authenticates_witness :
  deviceCode (snd (handleCancelDeviceFlow (env_at 2000) world_in_flow)) = None /\
  authToken (snd (loginBackground ("D1", 5) env_pending_twice
                    (snd (handleCancelDeviceFlow (env_at 2000) world_in_flow))))
    = "tok".
Proof.
  exact (cancelled_flow_still_authenticates (env_at 2000) env_pending_twice
           world_in_flow "D1" "tok" 5 (fun _ => eq_refl) (fun _ => eq_refl)
           eq_refl).
Defined.

Lemma handleLogout_reliable e w :
  reliable e ->
  handleLogout e w
    = (Ok tt, add_response [("success", VBool true)]
                (set_authToken "" (bump_storageOps w))).
Proof.
  intro R.
  unfold handleLogout, try_catch, bind, signOut, githubAuthStorage.clear,
    authTokenStorage_set.
  rewrite storage_op_reliable by assumption. reflexivity.
Qed.

(** X5: after a logout the stored credential is empty, the repository
    target and the device-flow session are as before, and until the next
    login every operation that needs the credential fails without a network
    call: [isAuthenticated] answers [false], [commitSolutionToGithub] fails
    with the missing-configuration error and [fetchUserRepositories] with
    the not-authenticated error. *)
Theorem logout_locks_out (e0 e : Env) (w : World) (data : SolutionData) :
  reliable e0 ->
  reliable e ->
  let w1 := snd (handleLogout e0 w) in
  authToken w1 = "" /\
  repoConfig w1 = repoConfig w /\
  deviceCode w1 = deviceCode w /\
  (fst (isAuthenticated e w1) = Ok false /\
   requests (snd (isAuthenticated e w1)) = requests w) /\
  (fst (commitSolutionToGithub data e w1) = Err MISSING_CONFIG /\
   requests (snd (commitSolutionToGithub data e w1)) = requests w) /\
  (fst (fetchUserRepositories e w1) = Err "Not authenticated with GitHub" /\
   requests (snd (fetchUserRepositories e w1)) = requests w).
Proof.
  intros R0 R w1. subst w1.
  rewrite (handleLogout_reliable e0 w R0). cbn [snd].
  repeat split.
  - unfold isAuthenticated, githubAuthStorage.get, authTokenStorage_get, bind.
    rewrite storage_op_reliable by assumption. reflexivity.
  - unfold isAuthenticated, githubAuthStorage.get, authTokenStorage_get, bind.
    rewrite storage_op_reliable by assumption. reflexivity.
  - apply (commit_requests data e _ R). reflexivity.
  - rewrite (proj1 (commit_requests data e _ R)). cbn. apply app_nil_r.
  - unfold fetchUserRepositories, githubAuthStorage.get, authTokenStorage_get,
      bind.
    rewrite storage_op_reliable by assumption. reflexivity.
  - unfold fetchUserRepositories, githubAuthStorage.get, authTokenStorage_get,
      bind.
    rewrite storage_op_reliable by assumption. reflexivity.
Qed.

Lemma logout_locks_out_witness :
  let w1 := snd (handleLogout (env_at 0) (scenario_world "tok")) in
  authToken w1 = "" /\
  repoConfig w1 = scenario_target /\
  deviceCode w1 = None /\
  (fst (isAuthenticated env_logged_in w1) = Ok false /\
   requests (snd (isAuthenticated env_logged_in w1)) = []) /\
  (fst (commitSolutionToGithub scenario_solution env_logged_in w1)
     = Err MISSING_CONFIG /\
   requests (snd (commitSolutionToGithub scenario_solution env_logged_in w1)) = []) /\
  (fst (fetchUserRepositories env_logged_in w1)
     = Err "Not authenticated with GitHub" /\
   requests (snd (fetchUserRepositories env_logged_in w1)) = []).
Proof.
  exact (logout_locks_out (env_at 0) env_logged_in (scenario_world "tok")
           scenario_solution (fun _ => eq_refl) (fun _ => eq_refl)).
Defined.

(** X6: when the device-code endpoint grants nothing (transport failure,
    non-success status, or a body that is not JSON), a login request from
    an empty store answers [{success: false, error}] with the error's
    message, stores no session and starts no poll. *)
Theorem login_failure_leaves_no_session (e : Env) (w : World) (msg : string) :
  reliable e ->
  deviceCode w = None ->
  device_flow_error (device_code_resp e) = Some msg ->
  let w' := snd (handleGithubLogin e w) in
  responses w' = (responses w ++ [failure msg])%list /\
  deviceCode w' = None /\
  spawned w' = spawned w /\
  requests w' = (requests w ++ [device_code_request])%list.
Proof.
  intros R D X w'. subst w'.
  unfold handleGithubLogin, githubDeviceCodeStorage.isActive, try_catch, bind,
    deviceCodeStorage_get.
  rewrite storage_op_reliable by assumption.
  cbn [fst snd deviceCode bump_storageOps]. rewrite D.
  unfold ret, startDeviceFlow, bind, fetch. unfold device_flow_error in X.
  destruct (device_code_resp e) as [why | status [data | why]].
  - injection X as <-. cbn. rewrite D. auto.
  - destruct (status_ok status); [discriminate|]. injection X as <-.
    cbn. rewrite D. auto.
  - destruct (status_ok status); injection X as <-; cbn; rewrite D; auto.
Qed.

Lemma login_failure_leaves_no_session_witness :
  let w' := snd (handleGithubLogin (env_at 0) initial_world) in
  responses w' = [failure "Failed to fetch"] /\
  deviceCode w' = None /\
  spawned w' = [] /\
  requests w' = [device_code_request].
Proof.
  exact (login_failure_leaves_no_session (env_at 0) initial_world
           "Failed to fetch" (fun _ => eq_refl) eq_refl eq_refl).
Defined.

(** ** Authentication status *)

Lemma isAuthenticated_spec_reliable e w :
  reliable e ->
  fst (isAuthenticated e w)
    = Ok (truthy_str (authToken w) && answers_200 (validate_resp e)) /\
  snd (isAuthenticated e w)
    = (if truthy_str (authToken w)
       then add_request (user_request (authToken w)) (bump_storageOps w)
       else bump_storageOps w).
Proof.
  intro R.
  unfold isAuthenticated, githubAuthStorage.get, authTokenStorage_get, bind.
  rewrite storage_op_reliable by assumption.
  cbn [fst snd authToken bump_storageOps].
  destruct (truthy_str (authToken w)); cbn [negb andb]; [|auto].
  unfold validateGithubToken, try_catch, bind, fetch, ret.
  destruct (validate_resp e) as [why | status b]; cbn; auto.
Qed.

(** X7: [check-auth-status] reports [isLoggedIn: true] exactly when a
    credential is stored, the identity endpoint answers the validation
    request with status 200 and answers the second request with a user; the
    response then carries that user, and carries no user otherwise. *)
Theorem checkAuthStatus_logged_in_iff (e : Env) (w : World) :
  reliable e ->
  exists resp,
    responses (snd (handleCheckAuthStatus e w)) = (responses w ++ [resp])%list /\
    field "isLoggedIn" resp
      = Some (VBool (truthy_str (authToken w) && answers_200 (validate_resp e)
                     && is_some (user_of (user_resp e)))) /\
    field "user" resp
      = (if truthy_str (authToken w) && answers_200 (validate_resp e)
         then option_map VUser (user_of (user_resp e))
         else None).
Proof.
  intro R.
  unfold handleCheckAuthStatus, try_catch, bind.
  destruct (isAuthenticated_spec_reliable e w R) as [F W].
  destruct (isAuthenticated e w) as [r w1]. cbn [fst snd] in *. subst r w1.
  destruct (truthy_str (authToken w)) eqn:T; cbn [andb];
    [|eexists; split; [reflexivity | split; reflexivity]].
  destruct (answers_200 (validate_resp e)) eqn:B; cbn [andb].
  - unfold githubAuthStorage.get, authTokenStorage_get.
    rewrite storage_op_reliable by assumption. cbn [fst snd].
    unfold getGithubUserInfo, bind, fetch, user_of.
    destruct (user_resp e) as [why | status [u | why]].
    + eexists. split; [reflexivity | split; reflexivity].
    + destruct (status_ok status);
        eexists; (split; [reflexivity | split; reflexivity]).
    + destruct (status_ok status);
        eexists; (split; [reflexivity | split; reflexivity]).
  - eexists. split; [reflexivity | split; reflexivity].
Qed.

Lemma checkAuthStatus_logged_in_iff_witness :
  exists resp,
    responses (snd (handleCheckAuthStatus env_logged_in
                      (set_authToken "tok" initial_world))) = [resp] /\
    field "isLoggedIn" resp = Some (VBool true) /\
    field "user" resp = Some (VUser sample_user).
Proof.
  exact (checkAuthStatus_logged_in_iff env_logged_in
           (set_authToken "tok" initial_world) (fun _ => eq_refl)).
Defined.

(** X8: whenever the remote check [isAuthenticated] answers [true], the
    local check [githubAuthStorage.isAuthenticated] answers [true] as well;
    the converse fails for a stored token that the remote service rejects. *)
Theorem remote_authenticated_implies_local (e : Env) (w : World) :
  (fst (isAuthenticated e w) = Ok true ->
   fst (githubAuthStorage_isAuthenticated e w) = Ok true) /\
  fst (githubAuthStorage_isAuthenticated (env_identity 0 401)
         (set_authToken "tok" initial_world)) = Ok true /\
  fst (isAuthenticated (env_identity 0 401) (set_authToken "tok" initial_world))
    = Ok false.
Proof.
  split; [|split; reflexivity].
  unfold isAuthenticated, githubAuthStorage_isAuthenticated,
    githubAuthStorage.get, authTokenStorage_get, bind, storage_op.
  destruct (store_fault e (storageOps w)); [discriminate|].
  cbn [fst snd authToken bump_storageOps].
  destruct (truthy_str (authToken w)); cbn [negb]; [reflexivity|discriminate].
Qed.

Lemma remote_authenticated_implies_local_witness :
  fst (githubAuthStorage_isAuthenticated (env_identity 0 200)
         (set_authToken "tok" initial_world)) = Ok true.
Proof.
  exact (proj1 (remote_authenticated_implies_local (env_identity 0 200)
                  (set_authToken "tok" initial_world)) eq_refl).
Defined.

(** ** The repository target *)

(** X9: a repository target saved with [save-repo-config] is read back
    unchanged; it counts as configured exactly when its owner and repo are
    not empty; a following [update-repo-path] changes its path and nothing
    else. *)
Theorem saveRepoConfig_roundtrip (config : RepoConfig) (p : string)
  (e1 e2 e3 : Env) (w : World) :
  reliable e1 ->
  reliable e2 ->
  reliable e3 ->
  let w1 := snd (handleSaveRepoConfig config e1 w) in
  let w2 := snd (handleUpdateRepoPath p e3 w1) in
  fst (githubRepoStorage.get e2 w1) = Ok config /\
  fst (githubRepoStorage.isConfigured e2 w1)
    = Ok (truthy_str (owner config) && truthy_str (repo config)) /\
  fst (githubRepoStorage.get e2 w2) = Ok (with_path config p) /\
  authToken w2 = authToken w /\
  deviceCode w2 = deviceCode w.
Proof.
  intros R1 R2 R3 w1 w2. subst w2 w1.
  unfold handleSaveRepoConfig, handleUpdateRepoPath, try_catch, bind,
    githubRepoStorage.set, githubRepoStorage.updatePath,
    githubRepoStorage.get, githubRepoStorage.isConfigured,
    repoConfigStorage_set, repoConfigStorage_update, repoConfigStorage_get.
  repeat (rewrite storage_op_reliable by assumption; cbn [fst snd]).
  unfold bind. rewrite storage_op_reliable by assumption.
  cbn. auto.
Qed.

Lemma saveRepoConfig_roundtrip_witness :
  let w1 := snd (handleSaveRepoConfig scenario_target (env_at 0) initial_world) in
  let w2 := snd (handleUpdateRepoPath "leetcode/py" (env_at 2) w1) in
  fst (githubRepoStorage.get (env_at 1) w1) = Ok scenario_target /\
  fst (githubRepoStorage.isConfigured (env_at 1) w1) = Ok true /\
  fst (githubRepoStorage.get (env_at 1) w2)
    = Ok (with_path scenario_target "leetcode/py") /\
  authToken w2 = "" /\
  deviceCode w2 = None.
Proof.
  exact (saveRepoConfig_roundtrip scenario_target "leetcode/py"
           (env_at 0) (env_at 1) (env_at 2) initial_world
           (fun _ => eq_refl) (fun _ => eq_refl) (fun _ => eq_refl)).
Defined.

(** ** Sessions stored with an expiry *)

(** X10: a session stored by [setWithExpiration] at time [t] is reported
    active, and left as stored, at every time before
    [t + expires_in * 1000]. *)
Theorem setWithExpiration_then_isActive (info : DeviceCodeInfo) (e1 e2 : Env)
  (w : World) :
  reliable e1 ->
  reliable e2 ->
  0 <= now e2 < now e1 + expires_in info * 1000 ->
  let w1 := snd (githubDeviceCodeStorage.setWithExpiration info e1 w) in
  fst (githubDeviceCodeStorage.isActive e2 w1) = Ok true /\
  deviceCode (snd (githubDeviceCodeStorage.isActive e2 w1))
    = Some (with_expires_at info (now e1 + expires_in info * 1000)).
Proof.
  intros R1 R2 T w1. subst w1.
  unfold githubDeviceCodeStorage.setWithExpiration, bind, Date_now,
    deviceCodeStorage_set.
  rewrite storage_op_reliable by assumption. cbn [fst snd].
  match goal with
  | |- context [githubDeviceCodeStorage.isActive e2 ?w1] =>
    rewrite (isActive_live e2 w1
               (with_expires_at info (now e1 + expires_in info * 1000))
               (now e1 + expires_in info * 1000) R2 eq_refl eq_refl T)
  end.
  split; reflexivity.
Qed.

Lemma setWithExpiration_then_isActive_witness :
  let w1 := snd (githubDeviceCodeStorage.setWithExpiration sample_device_data
                   (env_at 1000) initial_world) in
  fst (githubDeviceCodeStorage.isActive (env_at 900999) w1) = Ok true /\
  deviceCode (snd (githubDeviceCodeStorage.isActive (env_at 900999) w1))
    = Some (with_expires_at sample_device_data 901000).
Proof.
  refine (setWithExpiration_then_isActive sample_device_data (env_at 1000)
            (env_at 900999) initial_world (fun _ => eq_refl) (fun _ => eq_refl) _).
  cbn. lia.
Defined.

(** ** Outcome of a commit *)

(** X11: with a working store and a complete configuration,
    [commitSolutionToGithub] returns the body of a success answer as it is
    and fails on a non-success answer with [GitHub API error: ] followed by
    the remote message; [submit-leetcode-solution] answers
    [{success: true, result}] in the first case and [{success: false, error}]
    with that message otherwise. *)
Theorem commit_outcome_surfaced (data : SolutionData) (e : Env) (w : World) :
  reliable e ->
  configured w = true ->
  fst (commitSolutionToGithub data e w) = commit_outcome (put_resp e) /\
  responses (snd (handleSubmitLeetCodeSolution data e w))
    = (responses w ++
       [match commit_outcome (put_resp e) with
        | Ok p => [("success", VBool true); ("result", VJson p)]
        | Err msg => failure msg
        | OutOfFuel => []
        end])%list.
Proof.
  intros R C.
  assert (X : commitSolutionToGithub data e w
              = (commit_outcome (put_resp e),
                 add_request (commit_request (authToken w) (repoConfig w) data (now e))
                   (bump_storageOps (bump_storageOps w)))).
  { unfold commitSolutionToGithub, try_catch, bind, githubAuthStorage.get,
      githubRepoStorage.get, authTokenStorage_get, repoConfigStorage_get.
    rewrite storage_op_reliable by assumption.
    cbn [fst snd authToken bump_storageOps].
    rewrite storage_op_reliable by assumption.
    cbn [fst snd authToken repoConfig bump_storageOps].
    unfold configured in C.
    apply andb_true_iff in C. destruct C as [C C3].
    apply andb_true_iff in C. destruct C as [C1 C2].
    rewrite C1, C2, C3. cbn [negb orb].
    unfold Date_now, fetch, commit_outcome.
    destruct (put_resp e) as [why | status [p | why]]; cbn [fst snd];
      try reflexivity; destruct (status_ok status); reflexivity. }
  split; [rewrite X; reflexivity|].
  unfold handleSubmitLeetCodeSolution, try_catch, bind. rewrite X.
  pose proof (quiet_commitSolutionToGithub data e w) as [F _].
  rewrite X in F. cbn [fst] in F.
  destruct (commit_outcome (put_resp e)) as [p|msg|]; [| |congruence];
    reflexivity.
Qed.

Lemma commit_outcome_surfaced_witness :
  fst (commitSolutionToGithub scenario_solution env_logged_in (scenario_world "tok"))
    = Ok (mkCommitPayload None "{}") /\
  responses (snd (handleSubmitLeetCodeSolution scenario_solution env_logged_in
                    (scenario_world "tok")))
    = [[("success", VBool true); ("result", VJson (mkCommitPayload None "{}"))]].
Proof.
  exact (commit_outcome_surfaced scenario_solution env_logged_in
           (scenario_world "tok") (fun _ => eq_refl) eq_refl).
Defined.

(** ** The timed waits of the content script *)

Lemma check_resolves {A} (look : nat -> option A) (timeout : Z) (a : A) k :
  forall fuel i,
    (k < fuel)%nat ->
    (forall j, (j < k)%nat -> look (i + j)%nat = None) ->
    look (i + k)%nat = Some a ->
    (forall j, (1 <= j <= k)%nat -> 100 * Z.of_nat (i + j) < timeout) ->
    Content.check fuel look timeout (100 * Z.of_nat i) i = Content.Resolved a (S (i + k)).
Proof.
  induction k as [|k IH]; intros fuel i F N Hit T;
    (destruct fuel as [|fuel]; [lia|]); cbn [Content.check].
  - rewrite Nat.add_0_r in Hit. rewrite Hit. rewrite Nat.add_0_r. reflexivity.
  - pose proof (N 0%nat ltac:(lia)) as N0. rewrite Nat.add_0_r in N0.
    rewrite N0.
    assert (E : (100 * Z.of_nat i + 100 >=? timeout) = false).
    { rewrite Z.geb_leb. apply Z.leb_gt. specialize (T 1%nat). lia. }
    rewrite E.
    replace (100 * Z.of_nat i + 100) with (100 * Z.of_nat (S i)) by lia.
    replace (i + S k)%nat with (S i + k)%nat by lia.
    apply IH.
    + lia.
    + intros j Hj. replace (S i + j)%nat with (i + S j)%nat by lia.
      apply N. lia.
    + replace (S i + k)%nat with (i + S k)%nat by lia. exact Hit.
    + intros j Hj. replace (S i + j)%nat with (i + S j)%nat by lia.
      apply T. lia.
Qed.

Lemma check_times_out {A} (look : nat -> option A) (timeout : Z) fuel :
  forall i,
    timeout <= 100 * Z.of_nat (i + fuel) ->
    (0 < fuel)%nat ->
    (forall j, (i <= j)%nat -> j = i \/ 100 * Z.of_nat j < timeout ->
               look j = None) ->
    exists n,
      Content.check fuel look timeout (100 * Z.of_nat i) i = Content.TimedOut n /\
      (i < n)%nat /\ timeout <= 100 * Z.of_nat n /\
      (n = S i \/ 100 * Z.of_nat (n - 1) < timeout).
Proof.
  induction fuel as [|fuel IH]; intros i F P N; [lia|].
  cbn [Content.check]. rewrite (N i) by auto.
  destruct (100 * Z.of_nat i + 100 >=? timeout) eqn:E.
  - exists (S i). apply Z.geb_le in E. repeat split; lia.
  - rewrite Z.geb_leb in E. apply Z.leb_gt in E.
    replace (100 * Z.of_nat i + 100) with (100 * Z.of_nat (S i)) by lia.
    destruct (IH (S i)) as [n [C [L [U V]]]].
    + lia.
    + lia.
    + intros j Hj [-> | Hj']; apply N; try lia.
    + exists n. split; [exact C|]. split; [lia|]. split; [exact U|].
      right. destruct V as [-> | V]; [|exact V].
      replace (S (S i) - 1)%nat with (S i) by lia. lia.
Qed.

Lemma looks_before_unique timeout n :
  (0 < n)%nat ->
  timeout <= 100 * Z.of_nat n ->
  (n = 1%nat \/ 100 * Z.of_nat (n - 1) < timeout) ->
  n = looks_before timeout.
Proof.
  intros P U V. unfold looks_before.
  pose proof (Z.div_mod (timeout + 99) 100 ltac:(lia)) as D.
  pose proof (Z.mod_pos_bound (timeout + 99) 100 ltac:(lia)) as B.
  destruct V as [-> | V].
  - assert ((timeout + 99) / 100 <= 1) by lia.
    rewrite Z.max_l by lia. reflexivity.
  - assert (Z.of_nat n = (timeout + 99) / 100).
    { replace (Z.of_nat (n - 1)) with (Z.of_nat n - 1) in V by lia. lia. }
    rewrite Z.max_r by lia. lia.
Qed.

Lemma enough_fuel_covers timeout :
  timeout <= 100 * Z.of_nat (0 + Content.enough_fuel timeout).
Proof.
  unfold Content.enough_fuel. cbn [Nat.add].
  pose proof (Z.div_mod timeout 100 ltac:(lia)) as D.
  pose proof (Z.mod_pos_bound timeout 100 ltac:(lia)) as B.
  destruct (Z.le_gt_cases 0 (timeout / 100)).
  - rewrite Nat2Z.inj_succ, Z2Nat.id by assumption. lia.
  - rewrite Nat2Z.inj_succ. lia.
Qed.

Lemma wait_resolves {A} (look : nat -> option A) (timeout : Z) (a : A) k :
  (forall j, (j < k)%nat -> look j = None) ->
  look k = Some a ->
  k = 0%nat \/ 100 * Z.of_nat k < timeout ->
  Content.check (Content.enough_fuel timeout) look timeout 0 0
    = Content.Resolved a (S k).
Proof.
  intros N Hit T.
  apply (check_resolves look timeout a k (Content.enough_fuel timeout) 0%nat).
  - unfold Content.enough_fuel. destruct T as [-> | T]; [lia|].
    pose proof (Z.div_mod timeout 100 ltac:(lia)) as D.
    pose proof (Z.mod_pos_bound timeout 100 ltac:(lia)) as B.
    assert (Z.of_nat k <= timeout / 100) by lia.
    lia.
  - exact N.
  - exact Hit.
  - intros j Hj. cbn [Nat.add]. destruct T as [-> | T]; lia.
Qed.

Lemma wait_times_out {A} (look : nat -> option A) (timeout : Z) :
  (forall j, (j < looks_before timeout)%nat -> look j = None) ->
  Content.check (Content.enough_fuel timeout) look timeout 0 0
    = Content.TimedOut (looks_before timeout).
Proof.
  intro N.
  assert (L : forall j, j = 0%nat \/ 100 * Z.of_nat j < timeout ->
                        (j < looks_before timeout)%nat).
  { intros j Hj. unfold looks_before.
    pose proof (Z.div_mod (timeout + 99) 100 ltac:(lia)) as D.
    pose proof (Z.mod_pos_bound (timeout + 99) 100 ltac:(lia)) as B.
    destruct Hj as [-> | Hj]; lia. }
  destruct (check_times_out look timeout (Content.enough_fuel timeout) 0%nat)
    as [n [C [P [U V]]]].
  - apply enough_fuel_covers.
  - unfold Content.enough_fuel. lia.
  - intros j _ Hj. apply N. apply L. exact Hj.
  - change (100 * Z.of_nat 0) with 0 in C. rewrite C. f_equal.
    apply looks_before_unique; assumption.
Qed.

(** X12: each of the two timed waits resolves at the first look that finds
    what it waits for, provided that look is made before the timeout (the
    first look is made at once, look [k] after [k * 100] ms); and when no
    look made before the timeout finds it, the wait is rejected after
    [max 1 (ceil (timeout / 100))] looks.  It never looks more often. *)
Theorem timed_waits_bounded (doc : Content.Document) (timeout : Z) :
  (forall k,
     (forall j, (j < k)%nat -> Content.container_at doc j = false) ->
     Content.container_at doc k = true ->
     k = 0%nat \/ 100 * Z.of_nat k < timeout ->
     Content.waitForEditorContainer doc timeout = Content.Resolved tt (S k)) /\
  ((forall j, (j < looks_before timeout)%nat -> Content.container_at doc j = false) ->
   Content.waitForEditorContainer doc timeout
     = Content.TimedOut (looks_before timeout)) /\
  (forall k model,
     (forall j, (j < k)%nat -> Content.monaco_look doc j = None) ->
     Content.monaco_look doc k = Some model ->
     k = 0%nat \/ 100 * Z.of_nat k < timeout ->
     Content.waitForMonacoEditor doc timeout = Content.Resolved model (S k)) /\
  ((forall j, (j < looks_before timeout)%nat -> Content.monaco_look doc j = None) ->
   Content.waitForMonacoEditor doc timeout
     = Content.TimedOut (looks_before timeout)).
Proof.
  unfold Content.waitForEditorContainer, Content.waitForMonacoEditor.
  repeat split.
  - intros k N Hit T. apply wait_resolves; try assumption.
    + intros j Hj. unfold Content.container_look. rewrite (N j Hj). reflexivity.
    + unfold Content.container_look. rewrite Hit. reflexivity.
  - intro N. apply wait_times_out.
    intros j Hj. unfold Content.container_look. rewrite (N j Hj). reflexivity.
  - intros k model N Hit T. apply wait_resolves; assumption.
  - intro N. apply wait_times_out. exact N.
Qed.

Lemma timed_waits_bounded_witness :
  Content.waitForEditorContainer doc_with_editor 10000 = Content.Resolved tt 4 /\
  Content.waitForEditorContainer doc_without_editor 250 = Content.TimedOut 3 /\
  Content.waitForMonacoEditor doc_with_editor 10000
    = Content.Resolved (Content.mkModel (Some "x=1")) 3 /\
  Content.waitForMonacoEditor doc_with_editor 150 = Content.TimedOut 2.
Proof.
  split; [|split; [|split]].
  - refine (proj1 (timed_waits_bounded doc_with_editor 10000) 3%nat _ eq_refl _).
    + intros j Hj. destruct j as [|[|[|j]]]; [reflexivity..|lia].
    + right. lia.
  - refine (proj1 (proj2 (timed_waits_bounded doc_without_editor 250)) _).
    intros j _. reflexivity.
  - refine (proj1 (proj2 (proj2 (timed_waits_bounded doc_with_editor 10000)))
              2%nat (Content.mkModel (Some "x=1")) _ eq_refl _).
    + intros j Hj. destruct j as [|[|j]]; [reflexivity..|lia].
    + right. lia.
  - refine (proj2 (proj2 (proj2 (timed_waits_bounded doc_with_editor 150))) _).
    intros j Hj. change (looks_before 150) with 2%nat in Hj.
    destruct j as [|[|j]]; [reflexivity..|lia].
Defined.

(** ** From a detected submission to the message *)

Lemma all_chars_take_while p s :
  Content.all_chars p (Content.take_while p s) = true.
Proof.
  induction s as [|c s IH]; [reflexivity|].
  cbn [Content.take_while]. destruct (p c) eqn:E; [|reflexivity].
  cbn [Content.all_chars]. rewrite E, IH. reflexivity.
Qed.

Lemma all_chars_app p a b :
  Content.all_chars p (a ++ b)
    = Content.all_chars p a && Content.all_chars p b.
Proof.
  induction a as [|c a IH]; [reflexivity|].
  cbn [append Content.all_chars]. rewrite IH. apply andb_assoc.
Qed.

Lemma match_problems_slug s slug :
  Content.match_problems s = Some slug ->
  truthy_str slug = true /\ no_slash slug = true.
Proof.
  induction s as [|c s IH]; [discriminate|].
  cbn [Content.match_problems].
  destruct (String.prefix "/problems/" (String c s)); [|exact IH].
  match goal with
  | |- context [Content.take_while ?p ?t] =>
    pose proof (all_chars_take_while p t) as A;
    destruct (truthy_str (Content.take_while p t)) eqn:T
  end; [|exact IH].
  intro H. injection H as <-. split; [exact T | exact A].
Qed.

Lemma getSolutionCode_no_container doc :
  (forall j, (j < 100)%nat -> Content.container_at doc j = false) ->
  Content.getSolutionCode doc
    = Err (Content.EXTRACT_FAILED ++ Content.CONTAINER_TIMEOUT).
Proof.
  intro N. unfold Content.getSolutionCode, Content.waitForEditorContainer.
  rewrite wait_times_out; [reflexivity|].
  intros j Hj. unfold Content.container_look.
  rewrite (N j Hj). reflexivity.
Qed.

(** X13: when the editor container does not appear within the 10 seconds of
    the wait, [getSolutionCode] fails with the container timeout (whatever
    the editor runtime exposes, it is never looked at), and
    [processSuccessfulSubmission] sends no message to the background
    script. *)
Theorem no_container_no_message (doc : Content.Document) :
  (forall j, (j < 100)%nat -> Content.container_at doc j = false) ->
  Content.getSolutionCode doc
    = Err "Failed to extract code from editor: Timed out waiting for editor container to appear."
  /\ Content.processSuccessfulSubmission doc = None.
Proof.
  intro N. pose proof (getSolutionCode_no_container doc N) as G.
  split; [exact G|].
  unfold Content.processSuccessfulSubmission. rewrite G.
  destruct (negb (truthy_str
                    (Content.problemId (Content.extractProblemDetails doc))));
    reflexivity.
Qed.

Lemma no_container_no_message_witness :
  Content.getSolutionCode doc_without_editor
    = Err "Failed to extract code from editor: Timed out waiting for editor container to appear."
  /\ Content.processSuccessfulSubmission doc_without_editor = None.
Proof.
  exact (no_container_no_message doc_without_editor (fun _ _ => eq_refl)).
Defined.

Lemma processSuccessfulSubmission_sends doc pid k m model src :
  Content.match_problems (Content.pathname doc) = Some pid ->
  (forall j, (j < k)%nat -> Content.container_at doc j = false) ->
  Content.container_at doc k = true ->
  (k < 100)%nat ->
  (forall j, (j < m)%nat -> Content.monaco_look doc j = None) ->
  Content.monaco_look doc m = Some model ->
  (m < 100)%nat ->
  Content.getValue model = Some src ->
  Content.chrome_runtime doc = true ->
  Content.processSuccessfulSubmission doc
    = Some {| problemId := pid;
              problemName := Content.problemName (Content.extractProblemDetails doc);
              language := Content.determineLanguage doc;
              extension := Some (extensionFor (Content.determineLanguage doc));
              code := src |}.
Proof.
  intros P NC C K NM Mo Mb V R.
  unfold Content.processSuccessfulSubmission.
  assert (I : Content.problemId (Content.extractProblemDetails doc) = pid).
  { unfold Content.extractProblemDetails. cbn [Content.problemId].
    rewrite P. reflexivity. }
  rewrite I. rewrite (proj1 (match_problems_slug _ _ P)). cbn [negb].
  unfold Content.getSolutionCode, Content.waitForEditorContainer,
    Content.waitForMonacoEditor.
  rewrite (wait_resolves (Content.container_look doc) 10000 tt k).
  - rewrite (wait_resolves (Content.monaco_look doc) 10000 model m);
      try assumption; [|right; lia].
    rewrite V, R. reflexivity.
  - intros j Hj. unfold Content.container_look. rewrite (NC j Hj). reflexivity.
  - unfold Content.container_look. rewrite C. reflexivity.
  - right. lia.
Qed.

(** X14: on a page whose text is ASCII and whose language label is not a
    property name that every object inherits, when the URL names a problem,
    the editor container appears at one of the first 100 looks, the editor
    runtime then exposes a readable model at one of its first 100 looks and
    the extension runtime is available, [processSuccessfulSubmission] sends
    exactly the message built from the problem slug of the URL, the name from
    the title, the model's text, the language of the language button and
    that language's extension. *)
Theorem extraction_pipeline (doc : Content.Document) (pid : string) (k m : nat)
  (model : Content.Model) (src : string) :
  ascii_document doc = true ->
  inherited_name (toLowerCase (Content.determineLanguage doc)) = false ->
  Content.match_problems (Content.pathname doc) = Some pid ->
  (forall j, (j < k)%nat -> Content.container_at doc j = false) ->
  Content.container_at doc k = true ->
  (k < 100)%nat ->
  (forall j, (j < m)%nat -> Content.monaco_look doc j = None) ->
  Content.monaco_look doc m = Some model ->
  (m < 100)%nat ->
  Content.getValue model = Some src ->
  Content.chrome_runtime doc = true ->
  Content.processSuccessfulSubmission doc
    = Some {| problemId := pid;
              problemName := Content.problemName (Content.extractProblemDetails doc);
              language := Content.determineLanguage doc;
              extension := Some (extensionFor (Content.determineLanguage doc));
              code := src |}.
Proof. intros _ _. apply processSuccessfulSubmission_sends. Qed.

Lemma extraction_pipeline_witness :
  Content.processSuccessfulSubmission doc_with_editor
    = Some {| problemId := "two-sum";
              problemName := "Two Sum";
              language := "python3";
              extension := Some "py";
              code := "x=1" |}.
Proof.
  refine (extraction_pipeline doc_with_editor "two-sum" 3 2
            (Content.mkModel (Some "x=1")) "x=1" eq_refl eq_refl
            eq_refl _ eq_refl _ _ eq_refl _ eq_refl eq_refl).
  - intros j Hj. destruct j as [|[|[|j]]]; [reflexivity..|lia].
  - lia.
  - intros j Hj. destruct j as [|[|j]]; [reflexivity..|lia].
  - lia.
Defined.

Lemma string_of_uint_no_slash d :
  no_slash (NilEmpty.string_of_uint d) = true.
Proof. induction d; cbn; auto. Qed.

Lemma show_Z_no_slash t : no_slash (show_Z t) = true.
Proof.
  unfold show_Z, NilZero.string_of_int, NilZero.string_of_uint.
  destruct (Z.to_int t) as [d|d].
  - destruct d; try reflexivity;
      apply (string_of_uint_no_slash (_ d)).
  - assert (C : forall s, no_slash s = true -> no_slash (String "-" s) = true)
      by (intros s H; exact H).
    apply C.
    destruct d; try reflexivity;
      apply (string_of_uint_no_slash (_ d)).
Qed.

Lemma languageToExtension_no_slash key ext :
  lookup key languageToExtension = Some ext -> no_slash ext = true.
Proof.
  unfold languageToExtension. cbn [lookup].
  repeat match goal with
         | |- (if ?c then _ else _) = _ -> _ =>
           destruct c; [intro H; injection H as <-; reflexivity|]
         end.
  discriminate.
Qed.

Lemma table_extension_no_slash language :
  no_slash (table_extension language) = true.
Proof.
  unfold table_extension.
  destruct (lookup (toLowerCase language) languageToExtension) as [ext|] eqn:L.
  - exact (languageToExtension_no_slash _ _ L).
  - reflexivity.
Qed.

(** X15: the file of a submission that [processSuccessfulSubmission] sends
    lies directly in the configured directory: its path is the normalized
    prefix followed by a file name without any slash, whatever the page,
    the language label and the time. *)
Theorem submission_file_is_flat (doc : Content.Document) (data : SolutionData)
  (repoConfig : RepoConfig) (t : Z) :
  Content.processSuccessfulSubmission doc = Some data ->
  filePathOf repoConfig (fileNameOf data t)
    = normalized_prefix (path repoConfig) ++ fileNameOf data t /\
  no_slash (fileNameOf data t) = true.
Proof.
  intro H. split; [apply filePathOf_prefix|].
  unfold Content.processSuccessfulSubmission in H.
  destruct (truthy_str (Content.problemId (Content.extractProblemDetails doc)))
    eqn:T; cbn [negb] in H; [|discriminate].
  destruct (Content.getSolutionCode doc) as [[src lang]|msg|]; try discriminate.
  destruct (Content.chrome_runtime doc); [|discriminate].
  injection H as <-.
  unfold fileNameOf. cbn [problemId extension saveSolutionToGitHub].
  rewrite extensionFor_table.
  unfold no_slash. rewrite !all_chars_app.
  fold (no_slash (show_Z t)). fold (no_slash (table_extension lang)).
  rewrite show_Z_no_slash, table_extension_no_slash.
  unfold Content.extractProblemDetails in *. cbn [Content.problemId] in *.
  destruct (Content.match_problems (Content.pathname doc)) as [slug|] eqn:P;
    [|discriminate].
  destruct (match_problems_slug _ _ P) as [_ S]. unfold no_slash in S.
  rewrite S. reflexivity.
Qed.

Lemma submission_file_is_flat_witness :
  filePathOf scenario_target
    (fileNameOf (saveSolutionToGitHub "two-sum" "Two Sum" "python3" "x=1") 1000)
    = normalized_prefix "sol"
        ++ fileNameOf (saveSolutionToGitHub "two-sum" "Two Sum" "python3" "x=1") 1000
  /\ no_slash (fileNameOf (saveSolutionToGitHub "two-sum" "Two Sum" "python3" "x=1")
                 1000) = true.
Proof.
  refine (submission_file_is_flat doc_with_editor
            (saveSolutionToGitHub "two-sum" "Two Sum" "python3" "x=1")
            scenario_target 1000 _).
  reflexivity.
Defined.

(** ** More on the submission watcher *)

Lemma take_digits_all t :
  Content.all_chars Watcher.is_digit (Watcher.take_digits t) = true.
Proof.
  induction t as [|c t IH]; [reflexivity|].
  cbn [Watcher.take_digits]. destruct (Watcher.is_digit c) eqn:D; [|reflexivity].
  cbn [Content.all_chars]. rewrite D, IH. reflexivity.
Qed.

Lemma match_submissions_digits s : forall d,
  Watcher.match_submissions s = Some d ->
  truthy_str d = true /\ Content.all_chars Watcher.is_digit d = true.
Proof.
  induction s as [|c s IH]; intro d; [discriminate|].
  cbn [Watcher.match_submissions].
  destruct (String.prefix "/submissions/" (String c s)); [|apply IH].
  match goal with
  | |- context [Watcher.take_digits ?t] =>
    pose proof (take_digits_all t) as A;
    destruct (truthy_str (Watcher.take_digits t)) eqn:T; [|apply IH]
  end.
  intro H. injection H as <-. split; [exact T | exact A].
Qed.

(** X16: an identifier that comes from the URL is a non-empty run of
    digits and wins over the [data-submission-id] attribute; so of any run
    of clicks, timeouts and mutation events on pages whose URL carries that
    submission number, at most one detection is processed. *)
Theorem url_identifier_processed_once (page : Watcher.Page) (s : string)
  (evs : list Watcher.Event) (st : Watcher.State) :
  Watcher.match_submissions (Watcher.pathname page) = Some s ->
  Forall (url_derives s) evs ->
  Watcher.extractSubmissionIdFromPage page = Some s /\
  s <> "" /\
  Content.all_chars Watcher.is_digit s = true /\
  (Watcher.processed (Watcher.run evs st) = Watcher.processed st \/
   Watcher.processed (Watcher.run evs st) = (Watcher.processed st ++ [Some s])%list).
Proof.
  intros X F.
  destruct (match_submissions_digits _ _ X) as [T A].
  assert (N : s <> "") by (apply truthy_str_true; exact T).
  split; [unfold Watcher.extractSubmissionIdFromPage; rewrite X; reflexivity|].
  split; [exact N|]. split; [exact A|].
  assert (D : Forall (Watcher.derives (Some s)) evs).
  { eapply Forall_impl; [|exact F].
    intros ev Hev. destruct ev as [target| |p m]; cbn in *; auto.
    unfold Watcher.extractSubmissionIdFromPage. rewrite Hev. reflexivity. }
  destruct (run_once s N evs st D) as [[_ P] | [_ P]]; auto.
Qed.

Lemma url_identifier_processed_once_witness :
  Watcher.extractSubmissionIdFromPage page_555_stale_attribute = Some "555" /\
  "555" <> "" /\
  Content.all_chars Watcher.is_digit "555" = true /\
  (Watcher.processed
     (Watcher.run [Watcher.Mutations page_555 [accepted_record; accepted_record];
                   submit_click;
                   Watcher.Mutations page_555_stale_attribute [accepted_record]]
        armed_watcher) = [] \/
   Watcher.processed
     (Watcher.run [Watcher.Mutations page_555 [accepted_record; accepted_record];
                   submit_click;
                   Watcher.Mutations page_555_stale_attribute [accepted_record]]
        armed_watcher) = [Some "555"]).
Proof.
  refine (url_identifier_processed_once page_555_stale_attribute "555"
            [Watcher.Mutations page_555 [accepted_record; accepted_record];
             submit_click;
             Watcher.Mutations page_555_stale_attribute [accepted_record]]
            armed_watcher eq_refl _).
  repeat constructor.
Defined.

Lemma resultObserver_unarmed page mutations st :
  Watcher.isWaitingForSubmissionResult st = false ->
  Watcher.resultObserver page mutations st = st.
Proof.
  intro W. unfold Watcher.resultObserver. rewrite W. reflexivity.
Qed.

(** X17: a watcher that is not armed processes nothing: from a state whose
    waiting flag is off, a run of mutation events, timeouts and clicks that
    are not on a submit control leaves the watcher exactly as it was,
    whatever the pages show. *)
Theorem unarmed_watcher_ignores (evs : list Watcher.Event) (st : Watcher.State) :
  Watcher.isWaitingForSubmissionResult st = false ->
  Forall not_submit_click evs ->
  Watcher.run evs st = st.
Proof.
  intros W F. revert st W.
  induction evs as [|ev evs IH]; intros st W; [reflexivity|].
  inversion F as [|ev' evs' N F']; subst.
  unfold Watcher.run. cbn [fold_left]. fold (Watcher.run evs (Watcher.step st ev)).
  assert (E : Watcher.step st ev = st).
  { destruct ev as [target| |page mutations]; cbn [Watcher.step].
    - cbn in N. rewrite N. reflexivity.
    - destruct st as [l w p]. cbn in W. subst w. reflexivity.
    - apply resultObserver_unarmed. exact W. }
  rewrite E. apply IH; assumption.
Qed.

Lemma unarmed_watcher_ignores_witness :
  Watcher.run [Watcher.Mutations page_555 [accepted_record];
               Watcher.FlagTimeout;
               Watcher.Mutations page_without_id [accepted_record; accepted_record]]
    (Watcher.set_waiting false armed_watcher)
    = Watcher.set_waiting false armed_watcher.
Proof.
  refine (unarmed_watcher_ignores
            [Watcher.Mutations page_555 [accepted_record];
             Watcher.FlagTimeout;
             Watcher.Mutations page_without_id [accepted_record; accepted_record]]
            (Watcher.set_waiting false armed_watcher) eq_refl _).
  repeat constructor.
Defined.

Section FreshIdentifier.

Variable s : string.
Variable page : Watcher.Page.
Hypothesis s_not_empty : s <> "".
Hypothesis page_derives : Watcher.extractSubmissionIdFromPage page = Some s.

Lemma onAddedNode_done st node :
  Watcher.lastProcessedSubmissionId st = Some s ->
  Watcher.onAddedNode page st node = st.
Proof.
  intro L. unfold Watcher.onAddedNode.
  destruct node as [|[text|]]; try reflexivity.
  destruct (Watcher.includes text "Accepted"); [|reflexivity].
  rewrite page_derives, L. unfold Watcher.already_processed.
  rewrite String.eqb_refl.
  apply truthy_str_true in s_not_empty. rewrite s_not_empty. reflexivity.
Qed.

Lemma fold_nodes_done nodes : forall st,
  Watcher.lastProcessedSubmissionId st = Some s ->
  fold_left (Watcher.onAddedNode page) nodes st = st.
Proof.
  induction nodes as [|node nodes IH]; intros st L; [reflexivity|].
  cbn [fold_left]. rewrite (onAddedNode_done st node L). apply IH. exact L.
Qed.

Lemma fold_nodes_fresh nodes : forall st,
  Watcher.lastProcessedSubmissionId st <> Some s ->
  fold_left (Watcher.onAddedNode page) nodes st
    = if existsb accepted_node nodes then after_processing (Some s) st else st.
Proof.
  induction nodes as [|node nodes IH]; intros st L; [reflexivity|].
  cbn [fold_left existsb].
  destruct (accepted_node node) eqn:A; cbn [orb].
  - assert (E : Watcher.onAddedNode page st node = after_processing (Some s) st).
    { unfold Watcher.onAddedNode. destruct node as [|[text|]]; try discriminate.
      cbn in A. rewrite A, page_derives.
      unfold Watcher.already_processed.
      destruct (Watcher.lastProcessedSubmissionId st) as [l|] eqn:Last;
        [|reflexivity].
      destruct (String.eqb_spec s l) as [->|Ne]; [congruence|].
      rewrite andb_false_r. reflexivity. }
    rewrite E. apply fold_nodes_done. reflexivity.
  - assert (E : Watcher.onAddedNode page st node = st).
    { unfold Watcher.onAddedNode. destruct node as [|[text|]]; try reflexivity.
      cbn in A. rewrite A. reflexivity. }
    rewrite E. apply IH. exact L.
Qed.

Lemma fold_mutations_done mutations : forall st,
  Watcher.lastProcessedSubmissionId st = Some s ->
  fold_left (Watcher.onMutation page) mutations st = st.
Proof.
  induction mutations as [|mutation mutations IH]; intros st L; [reflexivity|].
  cbn [fold_left]. unfold Watcher.onMutation at 2.
  destruct (negb (Watcher.type mutation =? "childList")%string).
  - apply IH. exact L.
  - rewrite (fold_nodes_done _ st L). apply IH. exact L.
Qed.

Lemma fold_mutations_fresh mutations : forall st,
  Watcher.lastProcessedSubmissionId st <> Some s ->
  fold_left (Watcher.onMutation page) mutations st
    = if existsb accepted_mutation mutations
      then after_processing (Some s) st else st.
Proof.
  induction mutations as [|mutation mutations IH]; intros st L; [reflexivity|].
  cbn [fold_left existsb]. unfold Watcher.onMutation at 2.
  unfold accepted_mutation at 1.
  destruct (Watcher.type mutation =? "childList")%string; cbn [negb andb orb].
  - rewrite (fold_nodes_fresh _ st L).
    destruct (existsb accepted_node (Watcher.addedNodes mutation)); cbn [orb].
    + apply fold_mutations_done. reflexivity.
    + apply IH. exact L.
  - apply IH. exact L.
Qed.

End FreshIdentifier.

(** X18: one delivery of mutation records to the observer, on a page that
    derives a non-empty identifier other than the last processed one, is
    processed exactly once and disarms the watcher when the watcher is armed
    and some [childList] record adds an accepted result element; otherwise
    it changes nothing. *)
Theorem new_success_processed_exactly_once (s : string) (page : Watcher.Page)
  (mutations : list Watcher.MutationRecord) (st : Watcher.State) :
  s <> "" ->
  Watcher.extractSubmissionIdFromPage page = Some s ->
  Watcher.lastProcessedSubmissionId st <> Some s ->
  Watcher.resultObserver page mutations st
    = if Watcher.isWaitingForSubmissionResult st
         && existsb accepted_mutation mutations
      then after_processing (Some s) st
      else st.
Proof.
  intros N X L. unfold Watcher.resultObserver.
  destruct (Watcher.isWaitingForSubmissionResult st); cbn [negb andb];
    [|reflexivity].
  apply fold_mutations_fresh; assumption.
Qed.

Lemma new_success_processed_exactly_once_witness :
  Watcher.resultObserver page_555
    [Watcher.mkMutationRecord "attributes" [Watcher.Element (Some "Accepted")];
     Watcher.mkMutationRecord "childList"
       [Watcher.NotElement; Watcher.Element (Some "Wrong Answer");
        Watcher.Element (Some "Accepted"); Watcher.Element (Some "Accepted")];
     accepted_record]
    armed_watcher
  = after_processing (Some "555") armed_watcher.
Proof.
  refine (new_success_processed_exactly_once "555" page_555 _ armed_watcher
            _ eq_refl _); discriminate.
Defined.

Lemma after_processing_n_step id n st :
  after_processing_n id n (after_processing id st) = after_processing_n id (S n) st.
Proof.
  destruct n as [|n].
  - reflexivity.
  - unfold after_processing_n, after_processing. cbn [Watcher.processed].
    rewrite repeat_snoc. reflexivity.
Qed.

Lemma onAddedNode_missing page st node :
  missing_identifier (Watcher.extractSubmissionIdFromPage page) = true ->
  Watcher.onAddedNode page st node
    = if accepted_node node
      then after_processing (Watcher.extractSubmissionIdFromPage page) st
      else st.
Proof.
  intro M. unfold Watcher.onAddedNode, accepted_node.
  destruct node as [|[text|]]; try reflexivity.
  destruct (Watcher.includes text "Accepted"); [|reflexivity].
  destruct (Watcher.extractSubmissionIdFromPage page) as [id|]; [|reflexivity].
  cbn in M. apply negb_true_iff in M.
  unfold Watcher.already_processed.
  destruct (Watcher.lastProcessedSubmissionId st); rewrite ?M; reflexivity.
Qed.

Lemma fold_nodes_missing page nodes : forall st,
  missing_identifier (Watcher.extractSubmissionIdFromPage page) = true ->
  fold_left (Watcher.onAddedNode page) nodes st
    = after_processing_n (Watcher.extractSubmissionIdFromPage page)
        (length (filter accepted_node nodes)) st.
Proof.
  induction nodes as [|node nodes IH]; intros st M; [reflexivity|].
  cbn [fold_left filter]. rewrite (onAddedNode_missing page st node M).
  destruct (accepted_node node).
  - rewrite (IH _ M). cbn [length]. apply after_processing_n_step.
  - apply IH. exact M.
Qed.

Lemma after_processing_n_add id n m st :
  after_processing_n id m (after_processing_n id n st)
    = after_processing_n id (n + m) st.
Proof.
  destruct n as [|n]; [reflexivity|].
  destruct m as [|m].
  - rewrite Nat.add_0_r. reflexivity.
  - unfold after_processing_n. cbn [Nat.add Watcher.processed].
    rewrite <- app_assoc.
    change (id :: repeat id n) with (repeat id (S n)).
    change (id :: repeat id m) with (repeat id (S m)).
    rewrite <- repeat_app. cbn [Nat.add]. reflexivity.
Qed.

Lemma fold_mutations_missing page mutations : forall st,
  missing_identifier (Watcher.extractSubmissionIdFromPage page) = true ->
  fold_left (Watcher.onMutation page) mutations st
    = after_processing_n (Watcher.extractSubmissionIdFromPage page)
        (count_accepted mutations) st.
Proof.
  induction mutations as [|mutation mutations IH]; intros st M; [reflexivity|].
  cbn [fold_left]. rewrite (IH _ M).
  unfold count_accepted. cbn [map list_sum]. fold (count_accepted mutations).
  unfold Watcher.onMutation.
  destruct (Watcher.type mutation =? "childList")%string; cbn [negb].
  - rewrite (fold_nodes_missing page _ st M). apply after_processing_n_add.
  - reflexivity.
Qed.

(** X19: on a page that derives no identifier, or an empty one, nothing is
    suppressed: one delivery to an armed watcher processes every accepted
    result element that its [childList] records add, although the first of
    them has already switched the waiting flag off. *)
Theorem missing_identifier_processed_per_node (page : Watcher.Page)
  (mutations : list Watcher.MutationRecord) (st : Watcher.State) :
  missing_identifier (Watcher.extractSubmissionIdFromPage page) = true ->
  Watcher.isWaitingForSubmissionResult st = true ->
  Watcher.resultObserver page mutations st
    = after_processing_n (Watcher.extractSubmissionIdFromPage page)
        (count_accepted mutations) st.
Proof.
  intros M W. unfold Watcher.resultObserver. rewrite W. cbn [negb].
  apply fold_mutations_missing. exact M.
Qed.

Lemma missing_identifier_processed_per_node_witness :
  Watcher.processed
    (Watcher.resultObserver page_without_id
       [accepted_record;
        Watcher.mkMutationRecord "childList"
          [Watcher.Element (Some "Accepted"); Watcher.Element (Some "Accepted")]]
       armed_watcher)
  = [None; None; None].
Proof.
  exact (f_equal Watcher.processed
           (missing_identifier_processed_per_node page_without_id
              [accepted_record;
               Watcher.mkMutationRecord "childList"
                 [Watcher.Element (Some "Accepted");
                  Watcher.Element (Some "Accepted")]]
              armed_watcher eq_refl eq_refl)).
Defined.

(** ** Paths and file names in github-api.ts *)

Lemma endsWith_slash_appended p : endsWith (p ++ "/") "/" = true.
Proof.
  unfold endsWith.
  assert (L : String.length (p ++ "/") = S (String.length p)).
  { induction p as [|c p IH]; [reflexivity|]. cbn. rewrite IH. reflexivity. }
  rewrite L. clear L. cbn [String.length Nat.leb Nat.sub andb].
  rewrite Nat.sub_0_r.
  assert (E : substring (String.length p) 1 (p ++ "/") = "/").
  { induction p as [|c p IH]; [reflexivity|]. cbn. exact IH. }
  rewrite E. reflexivity.
Qed.

(** X20: a path prefix configured with and without its trailing slash
    names the same destination: for a non-empty prefix [p] that does not end
    in a slash, the commit requests with prefix [p] and with prefix [p/] are
    the same. *)
Theorem trailing_slash_is_optional (config : RepoConfig) (p token : string)
  (data : SolutionData) (t : Z) :
  p <> "" ->
  endsWith p "/" = false ->
  commit_request token (with_path config (p ++ "/")) data t
    = commit_request token (with_path config p) data t.
Proof.
  intros N E. unfold commit_request, filePathOf. cbn [path with_path owner repo branch].
  rewrite endsWith_slash_appended, E.
  apply truthy_str_true in N. rewrite N.
  assert (T : truthy_str (p ++ "/") = true).
  { apply truthy_str_true. destruct p; discriminate. }
  rewrite T. reflexivity.
Qed.

Lemma trailing_slash_is_optional_witness :
  commit_request "tok" (with_path scenario_target ("sol" ++ "/")) scenario_solution 1000
    = commit_request "tok" (with_path scenario_target "sol") scenario_solution 1000.
Proof.
  refine (trailing_slash_is_optional scenario_target "sol" "tok"
            scenario_solution 1000 _ eq_refl).
  discriminate.
Defined.

(** X21: the extension table of the background script never contradicts
    the one of the content script: for every language,
    [getFileExtension] gives either the extension that
    [saveSolutionToGitHub] picks, or its default [txt]. *)
Theorem getFileExtension_agrees (language : string) :
  inherited_name (toLowerCase language) = false ->
  getFileExtension language = extensionFor language \/
  getFileExtension language = "txt".
Proof.
  intros _. unfold getFileExtension, extensionFor, extensions, languageToExtension.
  generalize (toLowerCase language) as key. intro key.
  cbn [lookup].
  repeat match goal with
         | |- context [(?k =? key)%string] =>
           destruct (String.eqb_spec k key) as [<-|?];
           [first [left; reflexivity | right; reflexivity]|]
         end.
  left. reflexivity.
Qed.

Lemma getFileExtension_agrees_witness :
  getFileExtension "C++" = extensionFor "C++" \/ getFileExtension "C++" = "txt".
Proof. exact (getFileExtension_agrees "C++" eq_refl). Defined.

Lemma lower_ascii_not_upper c : not_upper (lower_ascii c) = true.
Proof. destruct c as [[] [] [] [] [] [] [] []]; reflexivity. Qed.

Lemma kept_is_file_char c :
  not_upper c = true ->
  Content.is_word c || Ascii.eqb c "-" = true ->
  is_file_char c = true.
Proof.
  destruct c as [[] [] [] [] [] [] [] []]; vm_compute; intros; congruence.
Qed.

Lemma file_char_fixed c :
  is_file_char c = true ->
  lower_ascii c = c /\ Content.is_space c = false /\
  Content.is_word c || Ascii.eqb c "-" = true.
Proof.
  destruct c as [[] [] [] [] [] [] [] []]; vm_compute; intro H;
    try discriminate H; repeat split.
Qed.

Lemma toLowerCase_not_upper s : Content.all_chars not_upper (toLowerCase s) = true.
Proof.
  induction s as [|c s IH]; [reflexivity|].
  cbn [toLowerCase Content.all_chars]. rewrite lower_ascii_not_upper, IH.
  reflexivity.
Qed.

Lemma replace_spaces_not_upper s : forall in_run,
  Content.all_chars not_upper s = true ->
  Content.all_chars not_upper (replace_spaces in_run s) = true.
Proof.
  induction s as [|c s IH]; intros in_run H; [reflexivity|].
  cbn [Content.all_chars] in H. apply andb_true_iff in H. destruct H as [Hc Hs].
  cbn [replace_spaces].
  destruct (Content.is_space c); [destruct in_run|];
    cbn [Content.all_chars]; rewrite ?Hc, ?IH by assumption; auto.
Qed.

Lemma remove_special_file_chars s :
  Content.all_chars not_upper s = true ->
  Content.all_chars is_file_char (remove_special s) = true.
Proof.
  induction s as [|c s IH]; intro H; [reflexivity|].
  cbn [Content.all_chars] in H. apply andb_true_iff in H. destruct H as [Hc Hs].
  cbn [remove_special].
  destruct (Content.is_word c || Ascii.eqb c "-") eqn:K; [|auto].
  cbn [Content.all_chars]. rewrite (kept_is_file_char c Hc K), (IH Hs).
  reflexivity.
Qed.

Lemma formatFileName_fixed s :
  Content.all_chars is_file_char s = true -> formatFileName s = s.
Proof.
  intro H. unfold formatFileName.
  assert (L : toLowerCase s = s).
  { induction s as [|c s IH]; [reflexivity|].
    cbn [Content.all_chars] in H. apply andb_true_iff in H. destruct H as [Hc Hs].
    cbn [toLowerCase]. rewrite (proj1 (file_char_fixed c Hc)), (IH Hs).
    reflexivity. }
  rewrite L.
  assert (R : forall in_run, replace_spaces in_run s = s).
  { clear L. induction s as [|c s IH]; intro in_run; [reflexivity|].
    cbn [Content.all_chars] in H. apply andb_true_iff in H. destruct H as [Hc Hs].
    cbn [replace_spaces].
    rewrite (proj1 (proj2 (file_char_fixed c Hc))), (IH Hs). reflexivity. }
  rewrite R. clear L R.
  induction s as [|c s IH]; [reflexivity|].
  cbn [Content.all_chars] in H. apply andb_true_iff in H. destruct H as [Hc Hs].
  cbn [remove_special].
  rewrite (proj2 (proj2 (file_char_fixed c Hc))), (IH Hs). reflexivity.
Qed.

(** X22: for an ASCII name, [formatFileName] gives a string of lower-case
    letters, digits, underscores and hyphens only, and formatting it again
    changes nothing. *)
Theorem formatFileName_safe_and_idempotent (name : string) :
  Content.all_chars is_ascii name = true ->
  Content.all_chars is_file_char (formatFileName name) = true /\
  formatFileName (formatFileName name) = formatFileName name.
Proof.
  intros _.
  assert (F : Content.all_chars is_file_char (formatFileName name) = true).
  { unfold formatFileName. apply remove_special_file_chars.
    apply replace_spaces_not_upper. apply toLowerCase_not_upper. }
  split; [exact F | apply formatFileName_fixed; exact F].
Qed.

Lemma formatFileName_safe_and_idempotent_witness :
  Content.all_chars is_file_char (formatFileName "Two  Sum (II) - Input_Array!") = true /\
  formatFileName (formatFileName "Two  Sum (II) - Input_Array!")
    = formatFileName "Two  Sum (II) - Input_Array!".
Proof.
  exact (formatFileName_safe_and_idempotent "Two  Sum (II) - Input_Array!" eq_refl).
Defined.

(** ** Configuring the repository target from the popup *)

Lemma split_on_no_sep s :
  no_slash s = true -> split_on "/" s = [s].
Proof.
  induction s as [|c s IH]; intro H; [reflexivity|].
  unfold no_slash in H. cbn [Content.all_chars] in H.
  apply andb_true_iff in H. destruct H as [Hc Hs].
  apply negb_true_iff in Hc.
  cbn [split_on]. rewrite Hc. rewrite (IH Hs). reflexivity.
Qed.

Lemma split_on_pair o r :
  no_slash o = true -> no_slash r = true ->
  split_on "/" (o ++ "/" ++ r) = [o; r].
Proof.
  intros Ho Hr. induction o as [|c o IH].
  - cbn. rewrite (split_on_no_sep r Hr). reflexivity.
  - unfold no_slash in Ho. cbn [Content.all_chars] in Ho.
    apply andb_true_iff in Ho. destruct Ho as [Hc Ho].
    apply negb_true_iff in Hc.
    cbn [append split_on]. rewrite Hc.
    change (String.append o (String "/" r)) with (o ++ "/" ++ r).
    rewrite (IH Ho). reflexivity.
Qed.

(** X23: selecting the repository [owner/repo] in the popup (neither part
    empty nor containing a slash) makes the background script store that
    owner and repo, with the stored branch and path kept, or defaulted to
    [main] and [leetcode-solutions] when empty; the target then counts as
    configured. *)
Theorem repository_change_configures (o r : string) (e e' : Env) (w : World) :
  reliable e ->
  reliable e' ->
  o <> "" -> r <> "" ->
  no_slash o = true -> no_slash r = true ->
  let w' := snd (deliver (handleRepositoryChange (o ++ "/" ++ r) (repoConfig w)) e w) in
  repoConfig w'
    = {| owner := o; repo := r;
         branch := or_str (branch (repoConfig w)) "main";
         path := or_str (path (repoConfig w)) "leetcode-solutions" |} /\
  fst (githubRepoStorage.isConfigured e' w') = Ok true /\
  authToken w' = authToken w.
Proof.
  intros R R' No Nr So Sr w'. subst w'.
  unfold handleRepositoryChange.
  assert (T : truthy_str (o ++ "/" ++ r) = true).
  { apply truthy_str_true. destruct o; discriminate. }
  rewrite T. cbn [negb]. rewrite (split_on_pair o r So Sr). cbn [nth].
  unfold deliver, onMessage, handleSaveRepoConfig, try_catch, bind,
    githubRepoStorage.set, repoConfigStorage_set.
  rewrite storage_op_reliable by assumption. cbn [fst snd].
  unfold githubRepoStorage.isConfigured, bind, repoConfigStorage_get.
  rewrite storage_op_reliable by assumption. cbn.
  apply truthy_str_true in No. apply truthy_str_true in Nr.
  rewrite No, Nr. auto.
Qed.

Lemma repository_change_configures_witness :
  let w' := snd (deliver (handleRepositoryChange ("octocat" ++ "/" ++ "hello-world")
                            (repoConfig initial_world)) (env_at 0) initial_world) in
  repoConfig w'
    = {| owner := "octocat"; repo := "hello-world";
         branch := "main"; path := "leetcode-solutions" |} /\
  fst (githubRepoStorage.isConfigured (env_at 1) w') = Ok true /\
  authToken w' = "".
Proof.
  refine (repository_change_configures "octocat" "hello-world" (env_at 0) (env_at 1)
            initial_world (fun _ => eq_refl) (fun _ => eq_refl) _ _ eq_refl eq_refl);
    discriminate.
Defined.

(** X24: when the path input of the popup loses focus, the stored path
    ends up being the trimmed text of the input, whether or not a message
    had to be sent; owner, repo and branch stay as they are. *)
Theorem path_change_stores_trimmed (value : string) (e : Env) (w : World) :
  reliable e ->
  Content.all_chars is_ascii value = true ->
  let w' := snd (deliver (handlePathChange value (repoConfig w)) e w) in
  repoConfig w' = with_path (repoConfig w) (Content.trim value).
Proof.
  intros R _ w'. subst w'. unfold handlePathChange.
  destruct (String.eqb_spec (Content.trim value) (path (repoConfig w))) as [E|N].
  - cbn. rewrite E. destruct (repoConfig w); reflexivity.
  - unfold deliver, onMessage, handleUpdateRepoPath, try_catch, bind,
      githubRepoStorage.updatePath, repoConfigStorage_update.
    rewrite storage_op_reliable by assumption. reflexivity.
Qed.

Lemma path_change_stores_trimmed_witness :
  repoConfig (snd (deliver (handlePathChange "  solutions/leetcode "
                              (repoConfig initial_world)) (env_at 0) initial_world))
    = with_path default_repoConfig "solutions/leetcode".
Proof.
  exact (path_change_stores_trimmed "  solutions/leetcode " (env_at 0)
           initial_world (fun _ => eq_refl) eq_refl).
Defined.

(** ** The base64 text of a solution *)

Lemma b64_index n :
  (n < 64)%N -> index_from 0 (b64_char n) b64_alphabet = Some n.
Proof.
  intro H.
  assert (A : forallb (fun k =>
                match index_from 0 (b64_char (N.of_nat k)) b64_alphabet with
                | Some m => (m =? N.of_nat k)%N
                | None => false
                end) (seq 0 64) = true) by (vm_compute; reflexivity).
  rewrite forallb_forall in A.
  specialize (A (N.to_nat n)). rewrite N2Nat.id in A.
  assert (I : In (N.to_nat n) (seq 0 64)) by (apply in_seq; lia).
  specialize (A I).
  destruct (index_from 0 (b64_char n) b64_alphabet) as [m|]; [|discriminate].
  apply N.eqb_eq in A. congruence.
Qed.

Lemma b64_char_inj n m :
  (n < 64)%N -> (m < 64)%N -> b64_char n = b64_char m -> n = m.
Proof.
  intros Hn Hm E. pose proof (b64_index n Hn) as In.
  rewrite E, (b64_index m Hm) in In. congruence.
Qed.

Lemma b64_char_not_pad n : (n < 64)%N -> b64_char n <> "="%char.
Proof.
  intros Hn E. pose proof (b64_index n Hn) as In.
  rewrite E in In. discriminate In.
Qed.

Ltac byte_facts a :=
  pose proof (N.div_mod a 4 ltac:(lia));
  pose proof (N.mod_lt a 4 ltac:(lia));
  pose proof (N.div_mod a 16 ltac:(lia));
  pose proof (N.mod_lt a 16 ltac:(lia));
  pose proof (N.div_mod a 64 ltac:(lia));
  pose proof (N.mod_lt a 64 ltac:(lia)).

Ltac name_parts :=
  repeat match goal with
         | |- context [(?a / ?k)%N] =>
           let q := fresh "q" in set (q := (a / k)%N) in *; clearbody q
         | |- context [(?a mod ?k)%N] =>
           let r := fresh "r" in set (r := (a mod k)%N) in *; clearbody r
         | H : context [(?a / ?k)%N] |- _ =>
           let q := fresh "q" in set (q := (a / k)%N) in *; clearbody q
         | H : context [(?a mod ?k)%N] |- _ =>
           let r := fresh "r" in set (r := (a mod k)%N) in *; clearbody r
         end.

Ltac bytes_lia :=
  repeat match goal with
         | H : (?a < 256)%N |- _ => byte_facts a; revert H
         end;
  intros; name_parts; lia.

Ltac sextets :=
  repeat match goal with
         | H : b64_char ?x = b64_char ?y |- _ =>
           apply b64_char_inj in H; [| bytes_lia | bytes_lia]
         end.

Lemma btoa_bytes_injective n : forall l1 l2,
  (length l1 <= n)%nat ->
  Forall (fun b => (b < 256)%N) l1 ->
  Forall (fun b => (b < 256)%N) l2 ->
  btoa_bytes l1 = btoa_bytes l2 ->
  l1 = l2.
Proof.
  induction n as [|n IH]; intros l1 l2 L B1 B2 E.
  - destruct l1; [|cbn in L; lia].
    destruct l2 as [|a [|b [|c rest]]]; [reflexivity|discriminate..].
  - destruct l1 as [|a1 [|b1 [|c1 rest1]]];
      destruct l2 as [|a2 [|b2 [|c2 rest2]]];
      try reflexivity; try discriminate E;
      cbn [btoa_bytes] in E;
      repeat match goal with
             | H : Forall _ (_ :: _) |- _ => inversion H; clear H; subst
             end;
      injection E; clear E; intros.
    all: try match goal with
             | H : "="%char = b64_char ?x |- _ =>
               exfalso; apply (b64_char_not_pad x); [|symmetry; exact H]
             | H : b64_char ?x = "="%char |- _ =>
               exfalso; apply (b64_char_not_pad x); [|exact H]
             end.
    all: try (match goal with |- (_ < 64)%N => idtac end; bytes_lia).
    + sextets. assert (a1 = a2) by bytes_lia. subst. reflexivity.
    + sextets. assert (a1 = a2) by bytes_lia. assert (b1 = b2) by bytes_lia.
      subst. reflexivity.
    + sextets. assert (a1 = a2) by bytes_lia. assert (b1 = b2) by bytes_lia.
      assert (c1 = c2) by bytes_lia. subst. do 3 f_equal.
      apply IH; try assumption. cbn in L. lia.
Qed.

Lemma list_ascii_of_string_inj s1 s2 :
  list_ascii_of_string s1 = list_ascii_of_string s2 -> s1 = s2.
Proof.
  intro H. rewrite <- (string_of_list_ascii_of_string s1),
             <- (string_of_list_ascii_of_string s2), H. reflexivity.
Qed.

Lemma map_N_of_ascii_inj l1 : forall l2,
  map N_of_ascii l1 = map N_of_ascii l2 -> l1 = l2.
Proof.
  induction l1 as [|a l1 IH]; intros [|b l2] H; try discriminate; [reflexivity|].
  cbn in H. injection H as Hab Hl.
  f_equal; [|apply IH; exact Hl].
  rewrite <- (ascii_N_embedding a), <- (ascii_N_embedding b), Hab. reflexivity.
Qed.

Lemma bytes_bounded l : Forall (fun b => (b < 256)%N) (map N_of_ascii l).
Proof.
  induction l as [|a l IH]; constructor; [apply N_ascii_bounded | exact IH].
Qed.

(** X25: the base64 text loses nothing: two solutions whose [content]
    fields are equal are the same text. *)
Theorem btoa_injective (s1 s2 : string) : btoa s1 = btoa s2 -> s1 = s2.
Proof.
  unfold btoa. intro E.
  apply list_ascii_of_string_inj. apply map_N_of_ascii_inj.
  apply (btoa_bytes_injective (length (map N_of_ascii (list_ascii_of_string s1))));
    [lia | apply bytes_bounded | apply bytes_bounded | exact E].
Qed.

Lemma btoa_injective_witness : "x=1" = "x=1".
Proof. exact (btoa_injective "x=1" "x=1" eq_refl). Defined.

(** ** The language label *)

Lemma lower_ascii_idem c : lower_ascii (lower_ascii c) = lower_ascii c.
Proof. destruct c as [[] [] [] [] [] [] [] []]; reflexivity. Qed.

Lemma toLowerCase_idem s : toLowerCase (toLowerCase s) = toLowerCase s.
Proof.
  induction s as [|c s IH]; [reflexivity|].
  cbn [toLowerCase]. rewrite lower_ascii_idem, IH. reflexivity.
Qed.

Lemma toLowerCase_truthy s : truthy_str (toLowerCase s) = truthy_str s.
Proof. destruct s; reflexivity. Qed.

Lemma append_truthy a b : truthy_str a = true -> truthy_str (a ++ b) = true.
Proof. destruct a; [discriminate | reflexivity]. Qed.

(** X26: the language label that [determineLanguage] reads off an ASCII
    language button is never empty and is in lower case, so the lower-casing
    of [saveSolutionToGitHub] leaves it as it is. *)
Theorem determineLanguage_label (doc : Content.Document) :
  ascii_button doc = true ->
  Content.determineLanguage doc <> "" /\
  toLowerCase (Content.determineLanguage doc) = Content.determineLanguage doc.
Proof.
  intros _. unfold Content.determineLanguage.
  destruct (Content.language_button_text doc) as [text|];
    [|split; [discriminate | reflexivity]].
  destruct (truthy_str (Content.trim text)) eqn:T;
    [|split; [discriminate | reflexivity]].
  destruct (truthy_str (Content.take_while Content.is_word (Content.trim text)))
    eqn:W.
  - match goal with
    | |- context [toLowerCase ?l] =>
      pose proof (append_truthy _ (Content.take_while Content.is_label_symbol
                                     (Content.drop_while Content.is_word
                                        (Content.trim text))) W) as A;
      rewrite <- (toLowerCase_truthy l) in A;
      destruct ((toLowerCase l =? "c#")%string);
        [split; [discriminate | reflexivity]|];
      destruct ((toLowerCase l =? "c++")%string);
        [split; [discriminate | reflexivity]|];
      split; [apply truthy_str_true; exact A | apply toLowerCase_idem]
    end.
  - rewrite <- toLowerCase_truthy in T.
    split; [apply truthy_str_true; exact T | apply toLowerCase_idem].
Qed.

Lemma determineLanguage_label_witness :
  Content.determineLanguage doc_with_editor <> "" /\
  toLowerCase (Content.determineLanguage doc_with_editor)
    = Content.determineLanguage doc_with_editor.
Proof. exact (determineLanguage_label doc_with_editor eq_refl). Defined.

(** ** The repository list *)

(** X27: with a working store and a stored credential,
    [fetch-github-repos] issues one GET with that credential as bearer and
    answers with the repositories when the endpoint answers with success,
    and with [{success: false, error}] otherwise, the error of a
    non-success status being [Failed to fetch repositories: ] followed by
    the status. *)
Theorem fetch_repositories_outcome (e : Env) (w : World) :
  reliable e ->
  authToken w <> "" ->
  requests (snd (handleFetchRepositories e w))
    = (requests w ++ [repos_request (authToken w)])%list /\
  responses (snd (handleFetchRepositories e w))
    = (responses w ++ [repositories_response (repos_resp e)])%list.
Proof.
  intros R T. apply truthy_str_true in T.
  unfold handleFetchRepositories, try_catch, bind, githubAuthStorage.get,
    authTokenStorage_get.
  rewrite storage_op_reliable by assumption.
  cbn [fst snd authToken bump_storageOps]. rewrite T. cbn [negb].
  unfold fetchUserRepositories, bind, githubAuthStorage.get, authTokenStorage_get.
  rewrite storage_op_reliable by assumption.
  cbn [fst snd authToken bump_storageOps]. rewrite T. cbn [negb].
  unfold fetch, repositories_response.
  destruct (repos_resp e) as [why | status [l | why]].
  - split; reflexivity.
  - destruct (status_ok status); cbn; [|split; reflexivity].
    rewrite map_ext with (g := fun r => r) by (intros []; reflexivity).
    rewrite map_id. split; reflexivity.
  - destruct (status_ok status); split; reflexivity.
Qed.

Lemma fetch_repositories_outcome_witness :
  requests (snd (handleFetchRepositories (env_repos 403 [])
                   (set_authToken "tok" initial_world)))
    = [repos_request "tok"] /\
  responses (snd (handleFetchRepositories (env_repos 403 [])
                    (set_authToken "tok" initial_world)))
    = [failure "Failed to fetch repositories: 403"].
Proof.
  refine (fetch_repositories_outcome (env_repos 403 [])
            (set_authToken "tok" initial_world) (fun _ => eq_refl) _).
  discriminate.
Defined.

(** ** Status of the device flow *)

Lemma isActive_true_session e w :
  reliable e ->
  fst (githubDeviceCodeStorage.isActive e w) = Ok true ->
  exists d, deviceCode (snd (githubDeviceCodeStorage.isActive e w)) = Some d /\
            requests (snd (githubDeviceCodeStorage.isActive e w)) = requests w /\
            responses (snd (githubDeviceCodeStorage.isActive e w)) = responses w /\
            spawned (snd (githubDeviceCodeStorage.isActive e w)) = spawned w.
Proof.
  intros R.
  unfold githubDeviceCodeStorage.isActive, deviceCodeStorage_get,
    deviceCodeStorage_set, bind, Date_now.
  rewrite storage_op_reliable by assumption.
  cbn [fst snd deviceCode bump_storageOps].
  destruct (deviceCode w) as [info|] eqn:D; [|discriminate].
  destruct (githubDeviceCodeStorage.expires_after info (now e)).
  - intros _. exists info. cbn. rewrite D. auto.
  - destruct (truthy_num (expires_in info)).
    + destruct (now e + expires_in info * 1000 >? now e).
      * rewrite storage_op_reliable by assumption. intros _.
        eexists. cbn. auto.
      * rewrite storage_op_reliable by assumption. discriminate.
    + rewrite storage_op_reliable by assumption. discriminate.
Qed.

(** X28: the status the popup polls and the login request agree: with a
    working store, whenever the active-flow check answers [true],
    [check-device-flow] reports the flow in progress and [github-login]
    answers [alreadyInProgress], both with the user code and verification
    URI of the stored session, and the login starts nothing. *)
Theorem status_and_login_agree (e : Env) (w : World) :
  reliable e ->
  fst (githubDeviceCodeStorage.isActive e w) = Ok true ->
  exists d,
    deviceCode (snd (githubDeviceCodeStorage.isActive e w)) = Some d /\
    responses (snd (handleCheckDeviceFlow e w))
      = (responses w ++ [in_progress_response d])%list /\
    responses (snd (handleGithubLogin e w))
      = (responses w ++ [existing_session_response d])%list /\
    requests (snd (handleGithubLogin e w)) = requests w /\
    spawned (snd (handleGithubLogin e w)) = spawned w.
Proof.
  intros R A.
  destruct (isActive_true_session e w R A) as [d [D [Q [P S]]]].
  exists d. split; [exact D|].
  unfold handleCheckDeviceFlow, handleGithubLogin, try_catch, bind.
  destruct (githubDeviceCodeStorage.isActive e w) as [r w1].
  cbn [fst snd] in *. subst r.
  unfold githubDeviceCodeStorage.get, deviceCodeStorage_get.
  rewrite storage_op_reliable by assumption.
  cbn [fst snd deviceCode bump_storageOps]. rewrite D.
  cbn. rewrite P, Q, S. auto.
Qed.

Lemma status_and_login_agree_witness :
  exists d,
    deviceCode (snd (githubDeviceCodeStorage.isActive (env_at 2000) world_in_flow))
      = Some d /\
    responses (snd (handleCheckDeviceFlow (env_at 2000) world_in_flow))
      = [in_progress_response d] /\
    responses (snd (handleGithubLogin (env_at 2000) world_in_flow))
      = [existing_session_response d] /\
    requests (snd (handleGithubLogin (env_at 2000) world_in_flow)) = [] /\
    spawned (snd (handleGithubLogin (env_at 2000) world_in_flow)) = [].
Proof.
  exact (status_and_login_agree (env_at 2000) world_in_flow (fun _ => eq_refl)
           eq_refl).
Defined.

(** X29: [open-verification-page] does not ask whether the flow is still
    active: with a working store it opens one tab at the verification URI
    of whatever session is stored, expired or not, and leaves the store as
    it is; only without a stored URI does it answer with an error and open
    nothing. *)
Theorem open_verification_page_ignores_expiry (e : Env) (w : World)
  (d : DeviceCodeInfo) :
  reliable e ->
  deviceCode w = Some d ->
  verification_uri d <> "" ->
  tabs (snd (handleOpenVerificationPage e w))
    = (tabs w ++ [verification_uri d])%list /\
  responses (snd (handleOpenVerificationPage e w))
    = (responses w ++ [[("success", VBool true)]])%list /\
  deviceCode (snd (handleOpenVerificationPage e w)) = Some d.
Proof.
  intros R D U. apply truthy_str_true in U.
  unfold handleOpenVerificationPage, try_catch, bind,
    githubDeviceCodeStorage.get, deviceCodeStorage_get.
  rewrite storage_op_reliable by assumption.
  cbn [fst snd deviceCode bump_storageOps]. rewrite D, U. cbn. auto.
Qed.

Lemma open_verification_page_ignores_expiry_witness :
  tabs (snd (handleOpenVerificationPage (env_at 2000)
               (set_deviceCode (Some stale_session) initial_world)))
    = ["https://example/activate"] /\
  responses (snd (handleOpenVerificationPage (env_at 2000)
                    (set_deviceCode (Some stale_session) initial_world)))
    = [[("success", VBool true)]] /\
  deviceCode (snd (handleOpenVerificationPage (env_at 2000)
                     (set_deviceCode (Some stale_session) initial_world)))
    = Some stale_session.
Proof.
  refine (open_verification_page_ignores_expiry (env_at 2000)
            (set_deviceCode (Some stale_session) initial_world) stale_session
            (fun _ => eq_refl) eq_refl _).
  discriminate.
Defined.

(** ** Single flight of the device flow, with the poll running beside it *)

Lemma loginBackground_log dc iv e w :
  reliable e ->
  deviceCode (snd (loginBackground (dc, iv) e w)) = None /\
  spawned (snd (loginBackground (dc, iv) e w)) = spawned w /\
  responses (snd (loginBackground (dc, iv) e w)) = responses w /\
  exists n,
    requests (snd (loginBackground (dc, iv) e w))
      = (requests w ++ repeat (token_request dc) n)%list.
Proof.
  intro R.
  destruct (poll_frame dc iv e w) as [[_ [_ [_ [_ [P [_ S]]]]]] _].
  destruct (poll_loop_bounded maxAttempts 0 dc iv e w eq_refl)
    as [F [n [m [_ [_ [Hr _]]]]]].
  fold (pollForAccessToken dc iv) in F, Hr.
  unfold loginBackground, try_catch, bind, detached,
    githubAuthStorage.set, githubDeviceCodeStorage.clear,
    authTokenStorage_set, deviceCodeStorage_set.
  cbn [fst snd].
  destruct (pollForAccessToken dc iv e w) as [[token|msg|] w1];
    cbn [fst snd] in *; [| |congruence];
    rewrite !storage_op_reliable by assumption; cbn;
    rewrite P, S, Hr; eauto.
Qed.

Lemma flows_started_app w l :
  length (filter (fun q => (url q =? DEVICE_CODE_URL)%string)
            (requests w ++ l))
    = (flows_started w
       + length (filter (fun q => (url q =? DEVICE_CODE_URL)%string) l))%nat.
Proof. unfold flows_started. rewrite filter_app, length_app. reflexivity. Qed.

Lemma token_requests_start_no_flow dc n :
  filter (fun q => (url q =? DEVICE_CODE_URL)%string)
    (repeat (token_request dc) n) = [].
Proof. induction n as [|n IH]; [reflexivity | exact IH]. Qed.

(** A run in which every login request finds a session: nothing is started,
    and every request is answered with the session [d] that was there at the
    beginning. *)
Lemma flow_run_existing d evs : forall s,
  deviceCode (fst s) = Some d \/ deviceCode (fst s) = None ->
  logins_find_session evs s ->
  flows_started (fst (flow_run evs s)) = flows_started (fst s) /\
  spawned (fst (flow_run evs s)) = spawned (fst s) /\
  responses (fst (flow_run evs s))
    = (responses (fst s)
       ++ repeat (existing_session_response d) (login_count evs))%list /\
  (deviceCode (fst (flow_run evs s)) = Some d \/
   deviceCode (fst (flow_run evs s)) = None).
Proof.
  induction evs as [|ev evs IH]; intros [w k] D H.
  - cbn. rewrite app_nil_r. auto.
  - destruct H as [Hev Hrest]. unfold flow_run. cbn [fold_left].
    fold (flow_run evs (flow_step (w, k) ev)).
    destruct ev as [e|e].
    + destruct Hev as [R [d' [x [D' [X T]]]]]. cbn [fst] in *.
      destruct D as [D|D]; [|congruence].
      assert (d' = d) by congruence. subst d'.
      cbn [flow_step fst snd] in *.
      rewrite (handleGithubLogin_existing e w d x R D X T) in *.
      cbn [snd] in *.
      destruct (IH (add_response (existing_session_response d)
                      (bump_storageOps (bump_storageOps w)), k))
        as [H1 [H2 [H3 H4]]]; [left; exact D | exact Hrest |].
      rewrite H1, H2, H3. cbn [fst responses add_response].
      unfold login_count. cbn [filter length]. fold (login_count evs).
      rewrite repeat_snoc. auto.
    + cbn [flow_step fst snd] in *.
      destruct (nth_error (spawned w) k) as [[dc iv]|].
      * destruct (loginBackground_log dc iv e w Hev) as [B1 [B2 [B3 [n B4]]]].
        destruct (IH (snd (loginBackground (dc, iv) e w), S k))
          as [H1 [H2 [H3 H4]]]; [right; exact B1 | exact Hrest |].
        rewrite H1, H2, H3. cbn [fst]. rewrite B2, B3.
        unfold flows_started at 1. rewrite B4, flows_started_app,
          token_requests_start_no_flow. cbn [length]. rewrite Nat.add_0_r.
        unfold login_count. cbn [filter]. auto.
      * destruct (IH (w, k)) as [H1 [H2 [H3 H4]]]; [exact D | exact Hrest |].
        unfold login_count. cbn [filter]. auto.
Qed.

(** C3: login requests that are issued while a session that has not expired
    is in the store are all answered with that session's user code and
    verification URI; none of them asks the device-code endpoint, starts a
    poll or stores a session, whatever polls end in between.  So of a run
    that begins with an empty store and a granted login, and whose later
    login requests each find the session still stored, only the first starts
    a flow.  The store has room for one session. *)
Theorem login_single_flight :
  (forall d evs s,
     deviceCode (fst s) = Some d ->
     logins_find_session evs s ->
     flows_started (fst (flow_run evs s)) = flows_started (fst s) /\
     spawned (fst (flow_run evs s)) = spawned (fst s) /\
     responses (fst (flow_run evs s))
       = (responses (fst s)
          ++ repeat (existing_session_response d) (login_count evs))%list /\
     (deviceCode (fst (flow_run evs s)) = Some d \/
      deviceCode (fst (flow_run evs s)) = None)) /\
  (forall data status e0 evs w,
     reliable e0 ->
     deviceCode w = None ->
     device_code_resp e0 = Resp status (Json data) ->
     status_ok status = true ->
     logins_find_session evs
       (flow_step (w, length (spawned w)) (LoginRequest e0)) ->
     flows_started (fst (flow_run (LoginRequest e0 :: evs) (w, length (spawned w))))
       = S (flows_started w) /\
     spawned (fst (flow_run (LoginRequest e0 :: evs) (w, length (spawned w))))
       = (spawned w ++ [(device_code data, interval data)])%list /\
     responses (fst (flow_run (LoginRequest e0 :: evs) (w, length (spawned w))))
       = (responses w ++ new_flow_response data
            :: repeat (existing_session_response data) (login_count evs))%list /\
     (deviceCode (fst (flow_run (LoginRequest e0 :: evs) (w, length (spawned w))))
        = Some (with_expires_at data (now e0 + expires_in data * 1000)) \/
      deviceCode (fst (flow_run (LoginRequest e0 :: evs) (w, length (spawned w))))
        = None)).
Proof.
  split.
  - intros d evs s D H. apply flow_run_existing; [left; exact D | exact H].
  - intros data status e0 evs w R D A S H.
    unfold flow_run. cbn [fold_left].
    fold (flow_run evs (flow_step (w, length (spawned w)) (LoginRequest e0))).
    destruct (flow_run_existing
                (with_expires_at data (now e0 + expires_in data * 1000)) evs
                (flow_step (w, length (spawned w)) (LoginRequest e0)))
      as [H1 [H2 [H3 H4]]].
    + left. cbn [flow_step fst snd].
      rewrite (handleGithubLogin_starts e0 w status data R D A S). reflexivity.
    + exact H.
    + split; [|split; [|split; [|exact H4]]].
      all: rewrite ?H1, ?H2, ?H3; cbn [flow_step fst snd].
      all: rewrite (handleGithubLogin_starts e0 w status data R D A S).
      * unfold flows_started at 1.
        cbn [snd requests add_spawned add_response set_deviceCode
             bump_storageOps add_request].
        rewrite flows_started_app. cbn. lia.
      * reflexivity.
      * cbn. rewrite <- app_assoc. reflexivity.
Qed.

Lemma login_single_flight_witness :
  (flows_started (fst (flow_run [LoginRequest (env_at 2000);
                                 LoginRequest (env_grant 3000)]
                         (world_in_flow, 0%nat))) = 0%nat /\
   spawned (fst (flow_run [LoginRequest (env_at 2000);
                           LoginRequest (env_grant 3000)]
                   (world_in_flow, 0%nat))) = [] /\
   responses (fst (flow_run [LoginRequest (env_at 2000);
                             LoginRequest (env_grant 3000)]
                     (world_in_flow, 0%nat)))
     = [existing_session_response sample_device_data;
        existing_session_response sample_device_data] /\
   (deviceCode (fst (flow_run [LoginRequest (env_at 2000);
                               LoginRequest (env_grant 3000)]
                       (world_in_flow, 0%nat)))
      = Some (with_expires_at sample_device_data 901000) \/
    deviceCode (fst (flow_run [LoginRequest (env_at 2000);
                               LoginRequest (env_grant 3000)]
                       (world_in_flow, 0%nat))) = None)) /\
  (flows_started (fst (flow_run [LoginRequest (env_grant 1000);
                                 LoginRequest (env_at 2000);
                                 LoginRequest (env_at 3000);
                                 PollEnds env_pending_twice]
                         (initial_world, 0%nat))) = 1%nat /\
   spawned (fst (flow_run [LoginRequest (env_grant 1000);
                           LoginRequest (env_at 2000);
                           LoginRequest (env_at 3000);
                           PollEnds env_pending_twice]
                   (initial_world, 0%nat))) = [("D1", 5)] /\
   responses (fst (flow_run [LoginRequest (env_grant 1000);
                             LoginRequest (env_at 2000);
                             LoginRequest (env_at 3000);
                             PollEnds env_pending_twice]
                     (initial_world, 0%nat)))
     = [new_flow_response sample_device_data;
        existing_session_response sample_device_data;
        existing_session_response sample_device_data] /\
   (deviceCode (fst (flow_run [LoginRequest (env_grant 1000);
                               LoginRequest (env_at 2000);
                               LoginRequest (env_at 3000);
                               PollEnds env_pending_twice]
                       (initial_world, 0%nat)))
      = Some (with_expires_at sample_device_data 901000) \/
    deviceCode (fst (flow_run [LoginRequest (env_grant 1000);
                               LoginRequest (env_at 2000);
                               LoginRequest (env_at 3000);
                               PollEnds env_pending_twice]
                       (initial_world, 0%nat))) = None)).
Proof.
  split.
  - refine (proj1 login_single_flight
              (with_expires_at sample_device_data 901000)
              [LoginRequest (env_at 2000); LoginRequest (env_grant 3000)]
              (world_in_flow, 0%nat) eq_refl _).
    cbn [logins_find_session].
    repeat split;
      try (exists (with_expires_at sample_device_data 901000), 901000;
           repeat split; cbn; lia).
  - refine (proj2 login_single_flight sample_device_data 200 (env_grant 1000)
              [LoginRequest (env_at 2000); LoginRequest (env_at 3000);
               PollEnds env_pending_twice]
              initial_world (fun _ => eq_refl) eq_refl eq_refl eq_refl _).
    cbn [logins_find_session].
    repeat split;
      try (exists (with_expires_at sample_device_data 901000), 901000;
           repeat split; cbn; lia).
Defined.

(** Once the poll of a flow has ended, the session is gone, and a login
    request starts a second flow although the first session's [expires_at]
    (901000) has not passed: here the token endpoint answers
    [authorization_pending] to all 60 requests of the first poll. *)
Example poll_end_frees_login :
  let s := flow_run
             [LoginRequest (env_grant 1000);
              PollEnds (env_token (Resp 200 (Json (mkTokenData None
                                                     (Some "authorization_pending")))));
              LoginRequest (env_grant 400000)]
             (initial_world, 0%nat) in
  flows_started (fst s) = 2%nat /\
  spawned (fst s) = [("D1", 5); ("D1", 5)] /\
  deviceCode (fst s) = Some (with_expires_at sample_device_data 1300000).
Proof. vm_compute. repeat split. Qed.
